(** * AERA: voice capture, conversation history and sensor polling

    A shallow embedding of three TypeScript modules of the AERA dashboard:

    - [src/hooks/useGroqSTT.ts]: the speech-to-text hook with its
      volume-threshold voice activity detector (module [GroqSTT]);
    - the Groq chat service ([sendMessageToGemini],
      [streamMessageToGemini]) with its rolling conversation history
      (module [GroqService]);
    - the Raspberry Pi sensor service ([fetchSensorData]) with the
      simulation helpers of [src/lib/simulation.ts] (module
      [SensorService]).

    Module [JS] holds what the three share of the JavaScript platform:
    strings as UTF-16 code units, JSON values, truthiness, property
    access and abrupt completion. *)

From Stdlib Require Import ZArith QArith Qround Lia Bool Ascii String Floats.
From stdpp Require Import base option list strings pretty.

Local Open Scope Z_scope.

(* ===================================================================== *)
(** * The JavaScript platform                                             *)
(* ===================================================================== *)

Module JS.

(** ** Strings

    A JavaScript string is a sequence of UTF-16 code units. *)

Definition jsstring := list N.

(** An ASCII literal of the source, as code units. *)
Fixpoint lit (s : string) : jsstring :=
  match s with
  | EmptyString => []
  | String c r => N_of_ascii c :: lit r
  end.

Definition code_unit_eqb (a b : N) : bool := N.eqb a b.

Fixpoint jsstring_eqb (a b : jsstring) : bool :=
  match a, b with
  | [], [] => true
  | x :: a', y :: b' => code_unit_eqb x y && jsstring_eqb a' b'
  | _, _ => false
  end.

(** [String.prototype.startsWith]. *)
Fixpoint startsWith (s prefix : jsstring) : bool :=
  match prefix, s with
  | [], _ => true
  | p :: prefix', c :: s' => code_unit_eqb c p && startsWith s' prefix'
  | _ :: _, [] => false
  end.

(** [s.slice(n)] for a non-negative [n]. *)
Definition slice_from (n : nat) (s : jsstring) : jsstring := drop n s.

(** [s.split(sep)] for a one-unit separator: one more piece than there
    are separators, so [''.split('\n')] is [['']]. *)
Fixpoint split (sep : N) (s : jsstring) : list jsstring :=
  match s with
  | [] => [[]]
  | c :: r =>
      if code_unit_eqb c sep then [] :: split sep r
      else match split sep r with
           | [] => [[c]]
           | piece :: pieces => (c :: piece) :: pieces
           end
  end.

(** ECMAScript WhiteSpace and LineTerminator code points, the ones
    [String.prototype.trim] strips: TAB, LF, VT, FF, CR, SP, NBSP,
    U+1680, U+2000..U+200A, LS, PS, U+202F, U+205F, U+3000, BOM. *)
Definition is_whitespace (c : N) : bool :=
  ((9 <=? c) && (c <=? 13) || (c =? 32) || (c =? 160) || (c =? 5760)
   || (8192 <=? c) && (c <=? 8202) || (c =? 8232) || (c =? 8233)
   || (c =? 8239) || (c =? 8287) || (c =? 12288) || (c =? 65279))%N.

Fixpoint trimStart (s : jsstring) : jsstring :=
  match s with
  | [] => []
  | c :: r => if is_whitespace c then trimStart r else s
  end.

Definition trimEnd (s : jsstring) : jsstring :=
  reverse (trimStart (reverse s)).

(** [String.prototype.trim]. *)
Definition trim (s : jsstring) : jsstring := trimEnd (trimStart s).

(** A string of white space only. *)
Definition blank (s : jsstring) : Prop :=
  Forall (fun c => is_whitespace c = true) s.

(** ** JSON values

    What [JSON.parse] and [response.json()] produce.  A number is kept
    as a rational: the code only passes numbers through and tests them
    against zero.  An object is its list of own properties. *)

#[local] Set Warnings "-register-all".
Inductive JSON : Type :=
| JNull
| JBool (b : bool)
| JNumber (q : Q)
| JString (s : jsstring)
| JArray (items : list JSON)
| JObject (props : list (jsstring * JSON)).

(** A JavaScript value reachable from JSON data: [None] is [undefined]. *)
Definition value := option JSON.

Definition undefined : value := None.

(** ToBoolean. *)
Definition truthy (v : value) : bool :=
  match v with
  | None => false
  | Some JNull => false
  | Some (JBool b) => b
  | Some (JNumber q) => negb (Qeq_bool q 0)
  | Some (JString s) => negb (jsstring_eqb s [])
  | Some (JArray _) => true
  | Some (JObject _) => true
  end.

(** [typeof v === 'number']. *)
Definition typeof_number (v : value) : option Q :=
  match v with
  | Some (JNumber q) => Some q
  | _ => None
  end.

(** ** Abrupt completion *)

Inductive exn : Type :=
| TypeError
| SyntaxError
| AbortError
| Error (message : jsstring)
| GeminiConfigError (message : jsstring)
| GeminiApiError (message : jsstring) (statusCode : option Z)
    (isRetryable : bool).

Inductive completion (A : Type) : Type :=
| Normal (a : A)
| Throw (e : exn).
Arguments Normal {A} a.
Arguments Throw {A} e.

Definition bind {A B} (c : completion A) (k : A -> completion B)
  : completion B :=
  match c with
  | Normal a => k a
  | Throw e => Throw e
  end.

(** [try { c } catch (e) { h e }]. *)
Definition try_catch {A} (c : completion A) (h : exn -> completion A)
  : completion A :=
  match c with
  | Normal a => Normal a
  | Throw e => h e
  end.

(** ** fetch

    A response is its status and what reading its body gives: [text]
    for [response.text()], [json] for [response.json()], each of which
    may reject.  [response.ok] is the 2xx range. *)

Record Response := {
  status : Z;
  text : completion jsstring;
  json : completion JSON
}.

Definition ok (r : Response) : bool :=
  (200 <=? status r) && (status r <=? 299).

(** [await fetch(...)]: the promise rejects or resolves to a response. *)
Definition fetch_result := completion Response.

(** [a || b] on two optional strings (environment variables). *)
Definition or_string (a b : option jsstring) : option jsstring :=
  match a with
  | Some (_ :: _) => a
  | _ => b
  end.

(** [!s] on an optional string. *)
Definition falsy_string (s : option jsstring) : bool :=
  match s with
  | Some (_ :: _) => false
  | _ => true
  end.

Fixpoint lookup_prop (key : jsstring) (props : list (jsstring * JSON))
  : value :=
  match props with
  | [] => None
  | (k, v) :: rest => if jsstring_eqb k key then Some v
                      else lookup_prop key rest
  end.

(** [v.key] for a key that no prototype defines (every key the code
    reads is such a key): a TypeError on [null] and [undefined], the
    own property of an object, [undefined] on everything else. *)
Definition get (v : value) (key : jsstring) : completion value :=
  match v with
  | None | Some JNull => Throw TypeError
  | Some (JObject props) => Normal (lookup_prop key props)
  | Some _ => Normal undefined
  end.

(** The same on a value known not to be [null]. *)
Definition prop (v : JSON) (key : jsstring) : value :=
  match v with
  | JObject props => lookup_prop key props
  | _ => undefined
  end.

(** [v[0]]: element 0 of an array, the first code unit of a string,
    the property named "0" of an object. *)
Definition get0 (v : value) : completion value :=
  match v with
  | None | Some JNull => Throw TypeError
  | Some (JArray items) => Normal (head items)
  | Some (JString s) => Normal ((fun c => JString [c]) <$> head s)
  | Some (JObject props) => Normal (lookup_prop (lit "0") props)
  | Some _ => Normal undefined
  end.

(** [v?.key]. *)
Definition get_opt (v : value) (key : jsstring) : completion value :=
  match v with
  | None | Some JNull => Normal undefined
  | _ => get v key
  end.

End JS.

(* ===================================================================== *)
(** * src/hooks/useGroqSTT.ts                                             *)
(* ===================================================================== *)

Module GroqSTT.
Import JS.

(** ** VAD configuration *)

Definition VAD_THRESHOLD : Q := 20%Q.
Definition SILENCE_DURATION : Z := 1500.

(** [analyser.fftSize = 256], so [frequencyBinCount] is 128. *)
Definition frequencyBinCount : nat := 128.

(** ** The hook's state

    The React state ([isListening], [transcript], [error]), the refs,
    and the part of the browser the hook acts on: the animation-frame
    callbacks requested and not yet run or cancelled, the [stop] events
    queued on recorders and not yet dispatched (each named by the stream
    its handler closes over), and the microphone streams whose tracks
    are live.  [submitted] and [uploads] log the clips handed to
    [processAudio] and the clips POSTed to [SERVER_URL], by size. *)

Inductive RecordingState := inactive | recording | paused.
Inductive AudioContextState := suspended | running | closed.
Inductive AudioNode := audioNode.

Record MediaRecorder := {
  state : RecordingState;
  stream : positive
}.

Record Hook := {
  isListening : bool;
  transcript : jsstring;
  error : option jsstring;
  mediaRecorderRef : option MediaRecorder;
  audioChunksRef : list Z;
  audioContextRef : option AudioContextState;
  analyserRef : option AudioNode;
  sourceRef : option AudioNode;
  animationFrameRef : option positive;
  lastSpeechTimeRef : Z;
  isSpeechDetectedRef : bool;
  frames : list positive;
  nextFrame : positive;
  stopEvents : list positive;
  liveStreams : list positive;
  nextStream : positive;
  submitted : list Z;
  uploads : list Z
}.

(** The hook before its first use: [useState] and [useRef] defaults. *)
Definition initial : Hook :=
  {| isListening := false; transcript := []; error := None;
     mediaRecorderRef := None; audioChunksRef := [];
     audioContextRef := None; analyserRef := None; sourceRef := None;
     animationFrameRef := None; lastSpeechTimeRef := 0;
     isSpeechDetectedRef := false; frames := []; nextFrame := 1%positive;
     stopEvents := []; liveStreams := []; nextStream := 1%positive;
     submitted := []; uploads := [] |}.

(** Field updates. *)
Definition set_isListening (x : bool) (h : Hook) : Hook :=
  {| isListening := x; transcript := transcript h; error := error h;
     mediaRecorderRef := mediaRecorderRef h; audioChunksRef :=
     audioChunksRef h; audioContextRef := audioContextRef h; analyserRef
     := analyserRef h; sourceRef := sourceRef h; animationFrameRef :=
     animationFrameRef h; lastSpeechTimeRef := lastSpeechTimeRef h;
     isSpeechDetectedRef := isSpeechDetectedRef h; frames := frames h;
     nextFrame := nextFrame h; stopEvents := stopEvents h; liveStreams :=
     liveStreams h; nextStream := nextStream h; submitted := submitted h;
     uploads := uploads h |}.
Definition set_transcript (x : jsstring) (h : Hook) : Hook :=
  {| isListening := isListening h; transcript := x; error := error h;
     mediaRecorderRef := mediaRecorderRef h; audioChunksRef :=
     audioChunksRef h; audioContextRef := audioContextRef h; analyserRef
     := analyserRef h; sourceRef := sourceRef h; animationFrameRef :=
     animationFrameRef h; lastSpeechTimeRef := lastSpeechTimeRef h;
     isSpeechDetectedRef := isSpeechDetectedRef h; frames := frames h;
     nextFrame := nextFrame h; stopEvents := stopEvents h; liveStreams :=
     liveStreams h; nextStream := nextStream h; submitted := submitted h;
     uploads := uploads h |}.
Definition set_error (x : option jsstring) (h : Hook) : Hook :=
  {| isListening := isListening h; transcript := transcript h; error := x;
     mediaRecorderRef := mediaRecorderRef h; audioChunksRef :=
     audioChunksRef h; audioContextRef := audioContextRef h; analyserRef
     := analyserRef h; sourceRef := sourceRef h; animationFrameRef :=
     animationFrameRef h; lastSpeechTimeRef := lastSpeechTimeRef h;
     isSpeechDetectedRef := isSpeechDetectedRef h; frames := frames h;
     nextFrame := nextFrame h; stopEvents := stopEvents h; liveStreams :=
     liveStreams h; nextStream := nextStream h; submitted := submitted h;
     uploads := uploads h |}.
Definition set_mediaRecorderRef (x : option MediaRecorder) (h : Hook) : Hook :=
  {| isListening := isListening h; transcript := transcript h; error :=
     error h; mediaRecorderRef := x; audioChunksRef := audioChunksRef h;
     audioContextRef := audioContextRef h; analyserRef := analyserRef h;
     sourceRef := sourceRef h; animationFrameRef := animationFrameRef h;
     lastSpeechTimeRef := lastSpeechTimeRef h; isSpeechDetectedRef :=
     isSpeechDetectedRef h; frames := frames h; nextFrame := nextFrame h;
     stopEvents := stopEvents h; liveStreams := liveStreams h; nextStream
     := nextStream h; submitted := submitted h; uploads := uploads h |}.
Definition set_audioChunksRef (x : list Z) (h : Hook) : Hook :=
  {| isListening := isListening h; transcript := transcript h; error :=
     error h; mediaRecorderRef := mediaRecorderRef h; audioChunksRef := x;
     audioContextRef := audioContextRef h; analyserRef := analyserRef h;
     sourceRef := sourceRef h; animationFrameRef := animationFrameRef h;
     lastSpeechTimeRef := lastSpeechTimeRef h; isSpeechDetectedRef :=
     isSpeechDetectedRef h; frames := frames h; nextFrame := nextFrame h;
     stopEvents := stopEvents h; liveStreams := liveStreams h; nextStream
     := nextStream h; submitted := submitted h; uploads := uploads h |}.
Definition set_audioContextRef (x : option AudioContextState) (h : Hook) : Hook :=
  {| isListening := isListening h; transcript := transcript h; error :=
     error h; mediaRecorderRef := mediaRecorderRef h; audioChunksRef :=
     audioChunksRef h; audioContextRef := x; analyserRef := analyserRef h;
     sourceRef := sourceRef h; animationFrameRef := animationFrameRef h;
     lastSpeechTimeRef := lastSpeechTimeRef h; isSpeechDetectedRef :=
     isSpeechDetectedRef h; frames := frames h; nextFrame := nextFrame h;
     stopEvents := stopEvents h; liveStreams := liveStreams h; nextStream
     := nextStream h; submitted := submitted h; uploads := uploads h |}.
Definition set_analyserRef (x : option AudioNode) (h : Hook) : Hook :=
  {| isListening := isListening h; transcript := transcript h; error :=
     error h; mediaRecorderRef := mediaRecorderRef h; audioChunksRef :=
     audioChunksRef h; audioContextRef := audioContextRef h; analyserRef
     := x; sourceRef := sourceRef h; animationFrameRef :=
     animationFrameRef h; lastSpeechTimeRef := lastSpeechTimeRef h;
     isSpeechDetectedRef := isSpeechDetectedRef h; frames := frames h;
     nextFrame := nextFrame h; stopEvents := stopEvents h; liveStreams :=
     liveStreams h; nextStream := nextStream h; submitted := submitted h;
     uploads := uploads h |}.
Definition set_sourceRef (x : option AudioNode) (h : Hook) : Hook :=
  {| isListening := isListening h; transcript := transcript h; error :=
     error h; mediaRecorderRef := mediaRecorderRef h; audioChunksRef :=
     audioChunksRef h; audioContextRef := audioContextRef h; analyserRef
     := analyserRef h; sourceRef := x; animationFrameRef :=
     animationFrameRef h; lastSpeechTimeRef := lastSpeechTimeRef h;
     isSpeechDetectedRef := isSpeechDetectedRef h; frames := frames h;
     nextFrame := nextFrame h; stopEvents := stopEvents h; liveStreams :=
     liveStreams h; nextStream := nextStream h; submitted := submitted h;
     uploads := uploads h |}.
Definition set_animationFrameRef (x : option positive) (h : Hook) : Hook :=
  {| isListening := isListening h; transcript := transcript h; error :=
     error h; mediaRecorderRef := mediaRecorderRef h; audioChunksRef :=
     audioChunksRef h; audioContextRef := audioContextRef h; analyserRef
     := analyserRef h; sourceRef := sourceRef h; animationFrameRef := x;
     lastSpeechTimeRef := lastSpeechTimeRef h; isSpeechDetectedRef :=
     isSpeechDetectedRef h; frames := frames h; nextFrame := nextFrame h;
     stopEvents := stopEvents h; liveStreams := liveStreams h; nextStream
     := nextStream h; submitted := submitted h; uploads := uploads h |}.
Definition set_lastSpeechTimeRef (x : Z) (h : Hook) : Hook :=
  {| isListening := isListening h; transcript := transcript h; error :=
     error h; mediaRecorderRef := mediaRecorderRef h; audioChunksRef :=
     audioChunksRef h; audioContextRef := audioContextRef h; analyserRef
     := analyserRef h; sourceRef := sourceRef h; animationFrameRef :=
     animationFrameRef h; lastSpeechTimeRef := x; isSpeechDetectedRef :=
     isSpeechDetectedRef h; frames := frames h; nextFrame := nextFrame h;
     stopEvents := stopEvents h; liveStreams := liveStreams h; nextStream
     := nextStream h; submitted := submitted h; uploads := uploads h |}.
Definition set_isSpeechDetectedRef (x : bool) (h : Hook) : Hook :=
  {| isListening := isListening h; transcript := transcript h; error :=
     error h; mediaRecorderRef := mediaRecorderRef h; audioChunksRef :=
     audioChunksRef h; audioContextRef := audioContextRef h; analyserRef
     := analyserRef h; sourceRef := sourceRef h; animationFrameRef :=
     animationFrameRef h; lastSpeechTimeRef := lastSpeechTimeRef h;
     isSpeechDetectedRef := x; frames := frames h; nextFrame := nextFrame
     h; stopEvents := stopEvents h; liveStreams := liveStreams h;
     nextStream := nextStream h; submitted := submitted h; uploads :=
     uploads h |}.
Definition set_frames (x : list positive) (h : Hook) : Hook :=
  {| isListening := isListening h; transcript := transcript h; error :=
     error h; mediaRecorderRef := mediaRecorderRef h; audioChunksRef :=
     audioChunksRef h; audioContextRef := audioContextRef h; analyserRef
     := analyserRef h; sourceRef := sourceRef h; animationFrameRef :=
     animationFrameRef h; lastSpeechTimeRef := lastSpeechTimeRef h;
     isSpeechDetectedRef := isSpeechDetectedRef h; frames := x; nextFrame
     := nextFrame h; stopEvents := stopEvents h; liveStreams :=
     liveStreams h; nextStream := nextStream h; submitted := submitted h;
     uploads := uploads h |}.
Definition set_nextFrame (x : positive) (h : Hook) : Hook :=
  {| isListening := isListening h; transcript := transcript h; error :=
     error h; mediaRecorderRef := mediaRecorderRef h; audioChunksRef :=
     audioChunksRef h; audioContextRef := audioContextRef h; analyserRef
     := analyserRef h; sourceRef := sourceRef h; animationFrameRef :=
     animationFrameRef h; lastSpeechTimeRef := lastSpeechTimeRef h;
     isSpeechDetectedRef := isSpeechDetectedRef h; frames := frames h;
     nextFrame := x; stopEvents := stopEvents h; liveStreams :=
     liveStreams h; nextStream := nextStream h; submitted := submitted h;
     uploads := uploads h |}.
Definition set_stopEvents (x : list positive) (h : Hook) : Hook :=
  {| isListening := isListening h; transcript := transcript h; error :=
     error h; mediaRecorderRef := mediaRecorderRef h; audioChunksRef :=
     audioChunksRef h; audioContextRef := audioContextRef h; analyserRef
     := analyserRef h; sourceRef := sourceRef h; animationFrameRef :=
     animationFrameRef h; lastSpeechTimeRef := lastSpeechTimeRef h;
     isSpeechDetectedRef := isSpeechDetectedRef h; frames := frames h;
     nextFrame := nextFrame h; stopEvents := x; liveStreams := liveStreams
     h; nextStream := nextStream h; submitted := submitted h; uploads :=
     uploads h |}.
Definition set_liveStreams (x : list positive) (h : Hook) : Hook :=
  {| isListening := isListening h; transcript := transcript h; error :=
     error h; mediaRecorderRef := mediaRecorderRef h; audioChunksRef :=
     audioChunksRef h; audioContextRef := audioContextRef h; analyserRef
     := analyserRef h; sourceRef := sourceRef h; animationFrameRef :=
     animationFrameRef h; lastSpeechTimeRef := lastSpeechTimeRef h;
     isSpeechDetectedRef := isSpeechDetectedRef h; frames := frames h;
     nextFrame := nextFrame h; stopEvents := stopEvents h; liveStreams :=
     x; nextStream := nextStream h; submitted := submitted h; uploads :=
     uploads h |}.
Definition set_nextStream (x : positive) (h : Hook) : Hook :=
  {| isListening := isListening h; transcript := transcript h; error :=
     error h; mediaRecorderRef := mediaRecorderRef h; audioChunksRef :=
     audioChunksRef h; audioContextRef := audioContextRef h; analyserRef
     := analyserRef h; sourceRef := sourceRef h; animationFrameRef :=
     animationFrameRef h; lastSpeechTimeRef := lastSpeechTimeRef h;
     isSpeechDetectedRef := isSpeechDetectedRef h; frames := frames h;
     nextFrame := nextFrame h; stopEvents := stopEvents h; liveStreams :=
     liveStreams h; nextStream := x; submitted := submitted h; uploads :=
     uploads h |}.
Definition set_submitted (x : list Z) (h : Hook) : Hook :=
  {| isListening := isListening h; transcript := transcript h; error :=
     error h; mediaRecorderRef := mediaRecorderRef h; audioChunksRef :=
     audioChunksRef h; audioContextRef := audioContextRef h; analyserRef
     := analyserRef h; sourceRef := sourceRef h; animationFrameRef :=
     animationFrameRef h; lastSpeechTimeRef := lastSpeechTimeRef h;
     isSpeechDetectedRef := isSpeechDetectedRef h; frames := frames h;
     nextFrame := nextFrame h; stopEvents := stopEvents h; liveStreams :=
     liveStreams h; nextStream := nextStream h; submitted := x; uploads :=
     uploads h |}.
Definition set_uploads (x : list Z) (h : Hook) : Hook :=
  {| isListening := isListening h; transcript := transcript h; error :=
     error h; mediaRecorderRef := mediaRecorderRef h; audioChunksRef :=
     audioChunksRef h; audioContextRef := audioContextRef h; analyserRef
     := analyserRef h; sourceRef := sourceRef h; animationFrameRef :=
     animationFrameRef h; lastSpeechTimeRef := lastSpeechTimeRef h;
     isSpeechDetectedRef := isSpeechDetectedRef h; frames := frames h;
     nextFrame := nextFrame h; stopEvents := stopEvents h; liveStreams :=
     liveStreams h; nextStream := nextStream h; submitted := submitted h;
     uploads := x |}.

(** ** Outcomes

    A hook operation runs to completion or throws; either way it
    leaves a state behind, the one a [catch] clause then sees. *)

Inductive outcome : Type :=
| Done (h : Hook)
| Threw (e : exn) (h : Hook).

Definition andThen (o : outcome) (k : Hook -> outcome) : outcome :=
  match o with
  | Done h => k h
  | Threw e h => Threw e h
  end.

Definition final (o : outcome) : Hook :=
  match o with
  | Done h => h
  | Threw _ h => h
  end.

(** ** Browser operations *)

(** [recorder.stop()]: an inactive recorder raises InvalidStateError
    (the original MediaStream Recording behaviour; later revisions
    return silently); otherwise the recorder becomes inactive at once
    and its [stop] event is queued. *)
Definition MediaRecorder_stop (r : MediaRecorder) (h : Hook) : outcome :=
  match state r with
  | inactive => Threw (Error (lit "InvalidStateError")) h
  | _ =>
      Done
        (set_stopEvents (stopEvents h ++ [stream r])
           (set_mediaRecorderRef
              (Some {| state := inactive; stream := stream r |}) h))
  end.

(** [recorder.start()] on a recorder just created. *)
Definition MediaRecorder_start (r : MediaRecorder) (h : Hook) : Hook :=
  set_mediaRecorderRef (Some {| state := recording; stream := stream r |}) h.

(** [requestAnimationFrame(checkVolume)]: handles are positive. *)
Definition requestAnimationFrame (h : Hook) : positive * Hook :=
  let id := nextFrame h in
  (id, set_nextFrame (Pos.succ id) (set_frames (frames h ++ [id]) h)).

(** [cancelAnimationFrame(id)]: a handle that is not pending is ignored. *)
Definition cancelAnimationFrame (id : positive) (h : Hook) : Hook :=
  set_frames (filter (fun f => f <> id) (frames h)) h.

(** [stream.getTracks().forEach(track => track.stop())]. *)
Definition stopTracks (sid : positive) (h : Hook) : Hook :=
  set_liveStreams (filter (fun s => s <> sid) (liveStreams h)) h.

(** ** cleanupAudio (lines 39-59) and stopListening (lines 164-172) *)

(** The guarded [mediaRecorderRef.current.stop()] both begin with. *)
Definition stopRecorderIfActive (h : Hook) : outcome :=
  match mediaRecorderRef h with
  | Some r =>
      match state r with
      | inactive => Done h
      | _ => MediaRecorder_stop r h
      end
  | None => Done h
  end.

(** The guarded [cancelAnimationFrame] both continue with. *)
Definition cancelPendingFrame (h : Hook) : Hook :=
  match animationFrameRef h with
  | Some id => set_animationFrameRef None (cancelAnimationFrame id h)
  | None => h
  end.

Definition cleanupAudio (h : Hook) : outcome :=
  andThen (stopRecorderIfActive h) (fun h =>
  let h := cancelPendingFrame h in
  let h := match sourceRef h with
           | Some _ => set_sourceRef None h
           | None => h
           end in
  let h := match analyserRef h with
           | Some _ => set_analyserRef None h
           | None => h
           end in
  let h := match audioContextRef h with
           | Some closed | None => h
           | Some _ => set_audioContextRef None h
           end in
  Done h).

Definition stopListening (h : Hook) : outcome :=
  andThen (stopRecorderIfActive h) (fun h =>
  Done (cancelPendingFrame h)).

(** ** processAudio (lines 174-203) *)

Record UploadEnv := {
  VITE_GROQ_API_KEY : option jsstring;
  VITE_GEMINI_API_KEY : option jsstring;
  upload : fetch_result
}.

(** The body of the [try] block: the text to hand to [setTranscript],
    if any.  A truthy [data.text] that is not a string has no [trim]
    method, and calling it raises a TypeError. *)
Definition transcribe (env : UploadEnv) : completion (option jsstring) :=
  bind (upload env) (fun response =>
  if negb (ok response)
  then Throw (Error (lit "Server " ++ lit (pretty (status response))))
  else
    bind (json response) (fun data =>
    bind (get (Some data) (lit "text")) (fun data_text =>
    if truthy data_text then
      match data_text with
      | Some (JString s) =>
          let cleanText := trim s in
          if (0 <? length cleanText)%nat then Normal (Some cleanText)
          else Normal None
      | _ => Throw TypeError
      end
    else Normal None))).

Definition processAudio (env : UploadEnv) (audioBlob : Z) (h : Hook)
  : Hook :=
  let h := set_submitted (submitted h ++ [audioBlob]) h in
  let apiKey := or_string (VITE_GROQ_API_KEY env) (VITE_GEMINI_API_KEY env) in
  if falsy_string apiKey then set_error (Some (lit "Missing API Key")) h
  else
    let h := set_uploads (uploads h ++ [audioBlob]) h in
    match transcribe env with
    | Normal (Some cleanText) => set_transcript cleanText h
    | Normal None => h
    | Throw _ => set_error (Some (lit "Transcription failed")) h
    end.

Definition resetTranscript (h : Hook) : Hook :=
  set_error None (set_transcript [] h).

(** ** The recorder's handlers (lines 92-111) *)

(** [new Blob(chunks).size]. *)
Definition Blob_size (chunks : list Z) : Z := foldr Z.add 0 chunks.

Definition ondataavailable (size : Z) (h : Hook) : Hook :=
  if size >? 0 then set_audioChunksRef (audioChunksRef h ++ [size]) h
  else h.

(** [onstop] of the recorder that records stream [sid]. *)
Definition onstop (env : UploadEnv) (sid : positive) (h : Hook) : Hook :=
  let audioBlob := Blob_size (audioChunksRef h) in
  let h := stopTracks sid h in
  let h := set_isListening false h in
  if isSpeechDetectedRef h && (audioBlob >? 1000)
  then processAudio env audioBlob h
  else h.

(** ** The VAD loop (lines 117-153) *)

(** One reading of the analyser: the byte frequency data and the
    value of [Date.now()] at that moment. *)
Record VolumeSample := {
  dataArray : list Z;
  now : Z
}.

(** A [Uint8Array] of [frequencyBinCount] bytes.  On such an array
    [sum / dataArray.length] is exact in double precision (the sum is
    below 2^15 and the divisor is 2^7), so the rational below is the
    very number the code compares with the threshold. *)
Definition Uint8Array_wf (d : list Z) : Prop :=
  length d = frequencyBinCount /\ Forall (fun b => 0 <= b <= 255) d.

Definition sum (d : list Z) : Z := foldl Z.add 0 d.

(** [sum / dataArray.length]; [None] is the NaN of an empty array. *)
Definition average (d : list Z) : option Q :=
  match length d with
  | O => None
  | S n => Some (sum d # Pos.of_succ_nat n)
  end.

(** [average > VAD_THRESHOLD]; false on NaN. *)
Definition above_threshold (d : list Z) : bool :=
  match average d with
  | Some a => negb (Qle_bool a VAD_THRESHOLD)
  | None => false
  end.

Definition checkVolume (v : VolumeSample) (h : Hook) : outcome :=
  match analyserRef h with
  | None => Done h
  | Some _ =>
      let h :=
        if above_threshold (dataArray v)
        then set_lastSpeechTimeRef (now v) (set_isSpeechDetectedRef true h)
        else h in
      let continue (h : Hook) :=
        let (id, h) := requestAnimationFrame h in
        Done (set_animationFrameRef (Some id) h) in
      if isSpeechDetectedRef h then
        let timeSinceSpeech := now v - lastSpeechTimeRef h in
        if timeSinceSpeech >? SILENCE_DURATION
        then stopListening h
        else continue h
      else continue h
  end.

(** ** startListening (lines 61-162) *)

(** What the browser answers during start-up: the microphone prompt,
    the two constructors that may raise, and the analyser reading of
    the first, direct call of [checkVolume]. *)
Record StartEnv := {
  getUserMedia : completion unit;
  newAudioContext : completion AudioContextState;
  newMediaRecorder : completion unit;
  firstSample : VolumeSample
}.

(** The [try] block, for a call during whose [await] nothing else
    happens to the hook: the browser's answer is taken at once.  The two
    parts the [await] cuts the function into follow below. *)
Definition startListening_try (env : StartEnv) (h : Hook) : outcome :=
  andThen (cleanupAudio h) (fun h =>
  let h := set_transcript [] (set_error None h) in
  match getUserMedia env with
  | Throw e => Threw e h
  | Normal _ =>
      let sid := nextStream h in
      let h := set_nextStream (Pos.succ sid)
                 (set_liveStreams (liveStreams h ++ [sid]) h) in
      match newAudioContext env with
      | Throw e => Threw e h
      | Normal audioContext =>
          let h := set_audioContextRef (Some audioContext) h in
          let h := set_analyserRef (Some audioNode) h in
          let h := set_sourceRef (Some audioNode) h in
          let h := set_lastSpeechTimeRef 0 h in
          let h := set_isSpeechDetectedRef false h in
          match newMediaRecorder env with
          | Throw e => Threw e h
          | Normal _ =>
              let mediaRecorder := {| state := inactive; stream := sid |} in
              let h := set_mediaRecorderRef (Some mediaRecorder) h in
              let h := set_audioChunksRef [] h in
              let h := MediaRecorder_start mediaRecorder h in
              let h := set_isListening true h in
              checkVolume (firstSample env) h
          end
      end
  end).

Definition startListening (env : StartEnv) (h : Hook) : Hook :=
  match startListening_try env h with
  | Done h => h
  | Threw _ h =>
      set_isListening false
        (set_error (Some (lit "Microphone access denied")) h)
  end.

(** ** startListening around its await

    [await navigator.mediaDevices.getUserMedia] (line 67) suspends the
    function: lines 63-65 run when the caller calls it, lines 69-155 run
    when the browser answers, and any other handler of the hook may run
    in between, the caller's functions and a second [startListening]
    among them.  Every ref and every state setter belongs to the hook,
    not to the call, so the second part works on whatever the hook holds
    when the answer arrives. *)

(** The [catch] block (lines 157-161). *)
Definition startListening_catch (h : Hook) : Hook :=
  set_isListening false
    (set_error (Some (lit "Microphone access denied")) h).

(** Lines 63-67, up to the request for the microphone. *)
Definition startListening_request (h : Hook) : Hook :=
  match cleanupAudio h with
  | Done h => set_transcript [] (set_error None h)
  | Threw _ h => startListening_catch h
  end.

(** Lines 67-155, from the browser's answer on. *)
Definition startListening_answer (env : StartEnv) (h : Hook) : outcome :=
  match getUserMedia env with
  | Throw e => Threw e h
  | Normal _ =>
      let sid := nextStream h in
      let h := set_nextStream (Pos.succ sid)
                 (set_liveStreams (liveStreams h ++ [sid]) h) in
      match newAudioContext env with
      | Throw e => Threw e h
      | Normal audioContext =>
          let h := set_audioContextRef (Some audioContext) h in
          let h := set_analyserRef (Some audioNode) h in
          let h := set_sourceRef (Some audioNode) h in
          let h := set_lastSpeechTimeRef 0 h in
          let h := set_isSpeechDetectedRef false h in
          match newMediaRecorder env with
          | Throw e => Threw e h
          | Normal _ =>
              let mediaRecorder := {| state := inactive; stream := sid |} in
              let h := set_mediaRecorderRef (Some mediaRecorder) h in
              let h := set_audioChunksRef [] h in
              let h := MediaRecorder_start mediaRecorder h in
              let h := set_isListening true h in
              checkVolume (firstSample env) h
          end
      end
  end.

Definition startListening_resume (env : StartEnv) (h : Hook) : Hook :=
  match startListening_answer env h with
  | Done h => h
  | Threw _ h => startListening_catch h
  end.

(** ** Events

    What can happen to a mounted hook: the caller's three functions,
    the unmount cleanup, and the browser's callbacks.  An animation
    frame runs the oldest pending callback; a [stop] event runs the
    handler of the recorder it was queued on. *)

Inductive Event : Type :=
| StartListening (env : StartEnv)
| StopListening
| ResetTranscript
| CleanupAudio
| AnimationFrame (v : VolumeSample)
| DataAvailable (size : Z)
| RecorderStopped (env : UploadEnv).

Definition animationFrame (v : VolumeSample) (h : Hook) : outcome :=
  match frames h with
  | [] => Done h
  | _ :: pending => checkVolume v (set_frames pending h)
  end.

Definition recorderStopped (env : UploadEnv) (h : Hook) : Hook :=
  match stopEvents h with
  | [] => h
  | sid :: queued => onstop env sid (set_stopEvents queued h)
  end.

Definition step (ev : Event) (h : Hook) : Hook :=
  match ev with
  | StartListening env => startListening env h
  | StopListening => final (stopListening h)
  | ResetTranscript => resetTranscript h
  | CleanupAudio => final (cleanupAudio h)
  | AnimationFrame v => final (animationFrame v h)
  | DataAvailable size => ondataavailable size h
  | RecorderStopped env => recorderStopped env h
  end.

Definition run (evs : list Event) (h : Hook) : Hook :=
  foldl (fun h ev => step ev h) h evs.

(** An event of a session under way: anything but a new start. *)
Definition within_session (ev : Event) : bool :=
  match ev with
  | StartListening _ => false
  | _ => true
  end.

(** ** Moments

    The same with [startListening] in its two parts: the call, which
    runs up to the [await], and the browser's answer, which runs the
    rest.  [Happens (StartListening env)] remains the call that is
    answered before anything else happens. *)

Inductive Moment : Type :=
| StartRequested
| StartAnswered (env : StartEnv)
| Happens (ev : Event).

Definition moment (m : Moment) (h : Hook) : Hook :=
  match m with
  | StartRequested => startListening_request h
  | StartAnswered env => startListening_resume env h
  | Happens ev => step ev h
  end.

Definition play (ms : list Moment) (h : Hook) : Hook :=
  foldl (fun h m => moment m h) h ms.

(** The starts of a sequence of moments do not overlap: [startListening]
    is called only while no earlier call waits for its answer, and an
    answer arrives only for a call that waits.  [waiting] says whether a
    call is waiting when the sequence begins. *)
Fixpoint serial (waiting : bool) (ms : list Moment) : bool :=
  match ms with
  | [] => true
  | StartRequested :: ms => negb waiting && serial true ms
  | StartAnswered _ :: ms => waiting && serial false ms
  | Happens (StartListening _) :: ms => negb waiting && serial false ms
  | Happens _ :: ms => serial waiting ms
  end.

(** ** What a recording hears and holds *)



Fixpoint sizes (evs : list Event) : list Z :=
  match evs with
  | [] => []
  | DataAvailable size :: evs => size :: sizes evs
  | _ :: evs => sizes evs
  end.



(** What the recording events leave alone. *)
Definition sameResults (h h' : Hook) : Prop :=
  submitted h' = submitted h /\ uploads h' = uploads h
  /\ error h' = error h /\ transcript h' = transcript h.

(** ** States of the VAD loop and sample inputs *)

(** The loop is scheduled: the analyser is wired, and the one pending
    animation frame is the one [animationFrameRef] names. *)
Definition scheduled (h : Hook) : Prop :=
  analyserRef h <> None
  /\ exists id, frames h = [id] /\ animationFrameRef h = Some id.

(** A reading whose average does not exceed the threshold, and one
    whose average does. *)
Definition quiet (v : VolumeSample) : Prop :=
  above_threshold (dataArray v) = false.

Definition loud (v : VolumeSample) : Prop :=
  above_threshold (dataArray v) = true.

(** The recorder is, or has become, inactive. *)
Definition recorderIdle (h : Hook) : Prop :=
  match mediaRecorderRef h with
  | Some r => state r = inactive
  | None => True
  end.

(** A reading with every bin at [level], taken at time [t]. *)
Definition reading (level t : Z) : VolumeSample :=
  {| dataArray := replicate frequencyBinCount level; now := t |}.

(** A start-up in which the browser grants everything. *)
Definition granted (first : VolumeSample) : StartEnv :=
  {| getUserMedia := Normal tt; newAudioContext := Normal running;
     newMediaRecorder := Normal tt; firstSample := first |}.

(** A transcription service answering 200 with the given body. *)
Definition answering (data : JSON) : UploadEnv :=
  {| VITE_GROQ_API_KEY := Some (lit "gsk_test");
     VITE_GEMINI_API_KEY := None;
     upload := Normal {| status := 200; text := Throw TypeError;
                         json := Normal data |} |}.

(** The body [{"text": " Përshëndetje "}] and the greeting itself. *)
Definition greeting : jsstring :=
  lit "P" ++ [235%N] ++ lit "rsh" ++ [235%N] ++ lit "ndetje".

Definition greetingBody : JSON :=
  JObject [(lit "text", JString (lit " " ++ greeting ++ lit " "))].

(** What a tick knows once it has looked at its reading: whether
    speech has been detected, and when it was last heard. *)
Definition heard (v : VolumeSample) (h : Hook) : bool :=
  isSpeechDetectedRef h || above_threshold (dataArray v).

Definition lastHeard (v : VolumeSample) (h : Hook) : Z :=
  if above_threshold (dataArray v) then now v else lastSpeechTimeRef h.

(** A session just started in a silent room, at time 0. *)
Definition listening : Hook :=
  startListening (granted (reading 0 0)) initial.

(** A session started while someone speaks. *)
Definition hearing : Hook :=
  startListening (granted (reading 80 0)) initial.

(** ** Further states and sample inputs *)

(** At most one tick of the VAD loop is pending: no animation frame at
    all, or the scheduled one. *)
Definition singleLoop (h : Hook) : Prop :=
  frames h = [] \/ scheduled h.

(** The upload did not produce a usable body: the request was rejected,
    the status is not 2xx, the body is not JSON, the body is [null], or
    its [text] is a truthy value that is not a string. *)
Definition uploadFailed (env : UploadEnv) : Prop :=
  match upload env with
  | Throw _ => True
  | Normal response =>
      ok response = false
      \/ match json response with
         | Throw _ => True
         | Normal data =>
             data = JNull
             \/ match prop data (lit "text") with
                | Some (JString _) => False
                | v => truthy v = true
                end
         end
  end.

(** The total size of the non-empty chunks among [sizes]. *)
Definition recorded (sizes : list Z) : Z :=
  foldr (fun size total => if size >? 0 then size + total else total) 0 sizes.

(** A transcription service answering 200 with a body that has no
    [text]. *)
Definition silentBody : JSON := JObject [(lit "language", JString (lit "sq"))].

(** A start-up in which the user refuses the microphone. *)
Definition denied (first : VolumeSample) : StartEnv :=
  {| getUserMedia := Throw (Error (lit "NotAllowedError"));
     newAudioContext := Normal running;
     newMediaRecorder := Normal tt; firstSample := first |}.

(** A start-up on a browser that cannot record [audio/webm]. *)
Definition unsupported (first : VolumeSample) : StartEnv :=
  {| getUserMedia := Normal tt; newAudioContext := Normal running;
     newMediaRecorder := Throw (Error (lit "NotSupportedError"));
     firstSample := first |}.

(** A transcription service that answers with the given status and no
    readable body, and a set-up without any key. *)
Definition refusing (code : Z) : UploadEnv :=
  {| VITE_GROQ_API_KEY := Some (lit "gsk_test");
     VITE_GEMINI_API_KEY := None;
     upload := Normal {| status := code; text := Throw TypeError;
                         json := Throw SyntaxError |} |}.

(** A session in which speech was heard, 5000 bytes were recorded and
    the caller has just stopped. *)
Definition recordedSpeech : Hook :=
  run [DataAvailable 5000; StopListening] hearing.

Definition keyless : UploadEnv :=
  {| VITE_GROQ_API_KEY := None; VITE_GEMINI_API_KEY := Some [];
     upload := Throw TypeError |}.

End GroqSTT.

(* ===================================================================== *)
(** * The Groq chat service                                               *)
(* ===================================================================== *)

Module GroqService.
Import JS.

Inductive Role := system | user | assistant.

(** A history entry.  [content] is declared a string; it holds whatever
    value the code stores there. *)
Record ChatMessage := {
  role : Role;
  content : JSON
}.

(** The prompt of lines 32-37, as code units. *)
Definition SYSTEM_PROMPT : jsstring :=
  [84; 105; 32; 106; 101; 32; 65; 69; 82; 65; 44; 32; 110; 106; 235; 32;
   112; 97; 115; 113; 121; 114; 235; 32; 105; 110; 116; 101; 108; 105;
   103; 106; 101; 110; 116; 101; 32; 102; 117; 116; 117; 114; 105; 115;
   116; 105; 107; 101; 46; 10; 45; 32; 70; 111; 108; 32; 118; 101; 116;
   235; 109; 32; 83; 104; 113; 105; 112; 46; 10; 45; 32; 80; 235; 114;
   103; 106; 105; 103; 106; 117; 32; 115; 104; 107; 117; 114; 116; 32;
   100; 104; 101; 32; 115; 97; 107; 116; 235; 32; 40; 109; 97; 107; 115;
   105; 109; 117; 109; 105; 32; 50; 32; 102; 106; 97; 108; 105; 41; 46;
   10; 45; 32; 74; 105; 32; 101; 32; 115; 106; 101; 108; 108; 115; 104;
   109; 101; 44; 32; 112; 97; 107; 32; 109; 105; 115; 116; 101; 114;
   105; 111; 122; 101; 44; 32; 112; 111; 114; 32; 115; 104; 117; 109;
   235; 32; 101; 32; 100; 111; 98; 105; 115; 104; 109; 101; 46; 10; 45;
   32; 77; 111; 115; 32; 112; 235; 114; 100; 111; 114; 32; 102; 111;
   114; 109; 97; 116; 116; 105; 110; 103; 32; 40; 98; 111; 108; 100; 47;
   105; 116; 97; 108; 105; 99; 41; 44; 32; 118; 101; 116; 235; 109; 32;
   116; 101; 107; 115; 116; 32; 116; 235; 32; 116; 104; 106; 101; 115;
   104; 116; 235; 32; 112; 235; 114; 32; 116; 39; 117; 32; 108; 101;
   120; 117; 97; 114; 32; 109; 101; 32; 122; 235; 46; 10; 45; 32; 78;
   235; 115; 101; 32; 116; 235; 32; 112; 121; 101; 115; 105; 110; 32;
   112; 235; 114; 32; 111; 114; 235; 110; 32; 111; 115; 101; 32; 100;
   97; 116; 235; 110; 44; 32; 112; 235; 114; 103; 106; 105; 103; 106;
   117; 32; 98; 97; 122; 117; 97; 114; 32; 110; 235; 32; 107; 111; 104;
   235; 110; 32; 97; 107; 116; 117; 97; 108; 101; 46]%N.

(** The reply used when the response carries none (line 77). *)
Definition fallback_reply : jsstring :=
  [77; 235; 32; 102; 97; 108; 110; 105; 44; 32; 110; 117; 107; 32; 97;
   114; 114; 105; 116; 97; 32; 116; 235; 32; 112; 235; 114; 103; 106;
   105; 103; 106; 101; 109; 46]%N.

(** The module's state: the rolling history, and a log of the message
    lists POSTed to [GROQ_API_URL]. *)
Record Service := {
  conversationHistory : list ChatMessage;
  requests : list (list ChatMessage)
}.

Definition loaded : Service :=
  {| conversationHistory := []; requests := [] |}.

Definition set_history (h : list ChatMessage) (s : Service) : Service :=
  {| conversationHistory := h; requests := requests s |}.

(** [conversationHistory.push(m)]. *)
Definition push (m : ChatMessage) (s : Service) : Service :=
  set_history (conversationHistory s ++ [m]) s.

(** [conversationHistory.pop()]. *)
Definition pop (s : Service) : Service :=
  set_history (removelast (conversationHistory s)) s.

(** [fetch(GROQ_API_URL, { body: JSON.stringify({ messages, ... }) })]. *)
Definition post (s : Service) : Service :=
  {| conversationHistory := conversationHistory s;
     requests := requests s ++ [conversationHistory s] |}.

(** Lines 45-49 and 102-105: seed an empty history with the system
    prompt, then queue the user's message. *)
Definition enqueue (userMessage : jsstring) (s : Service) : Service :=
  let s := if (length (conversationHistory s) =? 0)%nat
           then push {| role := system; content := JString SYSTEM_PROMPT |} s
           else s in
  push {| role := user; content := JString userMessage |} s.

(** Lines 82-87: [[history[0], ...history.slice(-6)]] once the length
    exceeds 7. *)
Definition trimHistory (h : list ChatMessage) : list ChatMessage :=
  if (7 <? length h)%nat then
    match h with
    | first :: _ => first :: drop (length h - 6) h
    | [] => h
    end
  else h.

(** [resetConversation] and [getConversationLength]. *)
Definition resetConversation (s : Service) : Service := set_history [] s.
Definition getConversationLength (s : Service) : nat :=
  length (conversationHistory s).

Section Platform.

(** [VITE_GROQ_API_KEY || VITE_GEMINI_API_KEY || ''], fixed when the
    module loads. *)
Variable API_KEY : jsstring.

(** [JSON.parse]: a value, or a SyntaxError. *)
Variable JSON_parse : jsstring -> completion JSON.

(** ToString of a value that is not a string, as [+=] applies it. *)
Variable ToString : JSON -> jsstring.

(** ** sendMessageToGemini (lines 41-96) *)

(** [data.choices[0]?.message?.content] (line 77). *)
Definition firstChoiceContent (data : JSON) : completion value :=
  bind (get (Some data) (lit "choices")) (fun choices =>
  bind (get0 choices) (fun choice =>
  bind (get_opt choice (lit "message")) (fun message =>
  get_opt message (lit "content")))).

(** The [try] block up to the reply (lines 53-77). *)
Definition requestReply (answer : fetch_result) : completion JSON :=
  bind answer (fun response =>
  if negb (ok response) then
    bind (text response) (fun err =>
    if status response =? 429
    then Throw (GeminiApiError (lit "Groq Rate Limit - Too fast")
                  (Some 429) true)
    else Throw (GeminiApiError
                  (lit "Groq Error: " ++ lit (pretty (status response)))
                  (Some (status response)) false))
  else
    bind (json response) (fun data =>
    bind (get (Some data) (lit "choices")) (fun choices =>
    bind (get0 choices) (fun choice =>
    bind (get_opt choice (lit "message")) (fun message =>
    bind (get_opt message (lit "content")) (fun content =>
    Normal (match content with
            | Some c => if truthy content then c
                        else JString fallback_reply
            | None => JString fallback_reply
            end))))))).

Definition sendMessageToGemini (userMessage : jsstring)
    (answer : fetch_result) (s : Service) : completion JSON * Service :=
  match API_KEY with
  | [] => (Throw (GeminiConfigError (lit "VITE_GROQ_API_KEY is missing")), s)
  | _ :: _ =>
      let s := post (enqueue userMessage s) in
      match requestReply answer with
      | Normal reply =>
          let s := push {| role := assistant; content := reply |} s in
          let s := set_history (trimHistory (conversationHistory s)) s in
          (Normal reply, s)
      | Throw error => (Throw error, pop s)
      end
  end.

(** [sendMessageToGemini] around its awaits.  Lines 45-65 run when the
    function is called with a key configured; lines 67-95 run once the
    request has been answered and the body read.  The history is the
    module's, not the call's: if another function of the module is
    called in between, the second part works on the history that one
    left. *)
Definition sendMessage_begin (userMessage : jsstring) (s : Service)
  : Service :=
  post (enqueue userMessage s).

Definition sendMessage_settle (answer : fetch_result) (s : Service)
  : completion JSON * Service :=
  match requestReply answer with
  | Normal reply =>
      let s := push {| role := assistant; content := reply |} s in
      let s := set_history (trimHistory (conversationHistory s)) s in
      (Normal reply, s)
  | Throw error => (Throw error, pop s)
  end.

(** ** streamMessageToGemini (lines 99-158) *)

(** The body of a streamed response as its reader delivers it: the
    decoded chunks, then either [done] or a failed read. *)
Record Reader := {
  chunks : list jsstring;
  ending : completion unit
}.

Record StreamResponse := {
  stream_status : Z;
  body : option Reader
}.

Definition stream_ok (r : StreamResponse) : bool :=
  (200 <=? stream_status r) && (stream_status r <=? 299).

(** The generator's local state: [fullResponse] and what it has
    yielded so far. *)
Record Stream := {
  fullResponse : jsstring;
  yielded : list JSON
}.

(** Lines 140-141: [JSON.parse(line.slice(6)).choices[0]?.delta?.content]. *)
Definition deltaContent (line : jsstring) : completion value :=
  bind (JSON_parse (slice_from 6 line)) (fun json =>
  bind (get (Some json) (lit "choices")) (fun choices =>
  bind (get0 choices) (fun choice =>
  bind (get_opt choice (lit "delta")) (fun delta =>
  get_opt delta (lit "content"))))).

(** The string [fullResponse += content] appends. *)
Definition textOf (c : JSON) : jsstring :=
  match c with
  | JString s => s
  | _ => ToString c
  end.

Definition append (c : JSON) (st : Stream) : Stream :=
  {| fullResponse := fullResponse st ++ textOf c;
     yielded := yielded st ++ [c] |}.

(** Lines 138-147: the body of the loop over the lines of a chunk. *)
Definition processLine (st : Stream) (line : jsstring) : Stream :=
  if startsWith line (lit "data: ")
     && negb (jsstring_eqb line (lit "data: [DONE]"))
  then
    match deltaContent line with
    | Normal (Some c) => if truthy (Some c) then append c st else st
    | Normal None => st
    | Throw _ => st
    end
  else st.

(** Lines 134-148: one chunk, split at line feeds. *)
Definition processChunk (st : Stream) (chunk : jsstring) : Stream :=
  foldl processLine st (split 10%N chunk).

(** Lines 126-149: the whole [while] loop, read to the end. *)
Definition readAll (r : Reader) : Stream :=
  foldl processChunk {| fullResponse := []; yielded := [] |} (chunks r).

(** The generator, drained by its consumer: what it yielded, how it
    ended, and the module state it left. *)
Definition streamMessageToGemini (userMessage : jsstring)
    (answer : completion StreamResponse) (s : Service)
  : list JSON * completion unit * Service :=
  match API_KEY with
  | [] => ([], Throw (GeminiConfigError (lit "API Key missing")), s)
  | _ :: _ =>
      let s := post (enqueue userMessage s) in
      match answer with
      | Throw error => ([], Throw error, pop s)
      | Normal response =>
          if negb (stream_ok response) then
            ([], Throw (GeminiApiError
                          (lit "Stream Error: "
                             ++ lit (pretty (stream_status response)))
                          None false), pop s)
          else
            match body response with
            | None => ([], Throw (Error (lit "No body")), pop s)
            | Some reader =>
                let st := readAll reader in
                match ending reader with
                | Throw error => (yielded st, Throw error, pop s)
                | Normal _ =>
                    (yielded st, Normal tt,
                     push {| role := assistant;
                             content := JString (fullResponse st) |} s)
                end
            end
      end
  end.

(** [streamMessageToGemini] around its awaits: lines 102-121 run when
    the generator is first advanced with a key configured, which is
    [sendMessage_begin]; the rest runs once the request has been
    answered, on the history the module holds by then. *)
Definition streamMessage_settle (answer : completion StreamResponse)
    (s : Service) : list JSON * completion unit * Service :=
  match answer with
  | Throw error => ([], Throw error, pop s)
  | Normal response =>
      if negb (stream_ok response) then
        ([], Throw (GeminiApiError
                      (lit "Stream Error: "
                         ++ lit (pretty (stream_status response)))
                      None false), pop s)
      else
        match body response with
        | None => ([], Throw (Error (lit "No body")), pop s)
        | Some reader =>
            let st := readAll reader in
            match ending reader with
            | Throw error => (yielded st, Throw error, pop s)
            | Normal _ =>
                (yielded st, Normal tt,
                 push {| role := assistant;
                         content := JString (fullResponse st) |} s)
            end
        end
  end.

(** What a line contributes to the reply, as the description of the
    stream has it: the truthy [choices[0].delta.content] of a line that
    begins with the data prefix and is not the sentinel; nothing for any
    other line, nor for a line that does not parse. *)
Definition contribution (line : jsstring) : option JSON :=
  if startsWith line (lit "data: ")
     && negb (jsstring_eqb line (lit "data: [DONE]"))
  then match deltaContent line with
       | Normal (Some c) => if truthy (Some c) then Some c else None
       | _ => None
       end
  else None.

(** The lines of a stream, chunk by chunk. *)
Definition linesOf (r : Reader) : list jsstring :=
  concat (map (split 10%N) (chunks r)).

End Platform.

(** ** Reachable histories and sample exchanges *)

(** The two entries a call adds before the request. *)
Definition systemEntry : ChatMessage :=
  {| role := system; content := JString SYSTEM_PROMPT |}.

Definition userEntry (userMessage : jsstring) : ChatMessage :=
  {| role := user; content := JString userMessage |}.

Definition assistantEntry (reply : JSON) : ChatMessage :=
  {| role := assistant; content := reply |}.

(** The history a call works on: the one it found, seeded if empty. *)
Definition seed (h : list ChatMessage) : list ChatMessage :=
  match h with
  | [] => [systemEntry]
  | _ :: _ => h
  end.


(** A history is empty or begins with the system prompt, followed by
    user and assistant entries only. *)
Definition seeded (h : list ChatMessage) : Prop :=
  match h with
  | [] => True
  | first :: rest =>
      first = {| role := system; content := JString SYSTEM_PROMPT |}
      /\ Forall (fun m => role m <> system) rest
  end.

(** The text of a JSON string literal, and of the streamed payload
    [{"choices":[{"delta":{"content":"c"}}]}], with its value. *)
Definition quoted (c : string) : jsstring := [34%N] ++ lit c ++ [34%N].

Definition deltaText (c : string) : jsstring :=
  lit "{" ++ quoted "choices" ++ lit ":[{" ++ quoted "delta" ++ lit ":{"
    ++ quoted "content" ++ lit ":" ++ quoted c ++ lit "}}]}".

Definition deltaValue (c : string) : JSON :=
  JObject [(lit "choices",
            JArray [JObject [(lit "delta",
                              JObject [(lit "content", JString (lit c))])]])].

(** [JSON.parse] on the payloads used in the examples; every other text
    of the examples is not JSON. *)
Definition parseSample (s : jsstring) : completion JSON :=
  match lookup_prop s [(deltaText "x", deltaValue "x");
                       (deltaText "", deltaValue "");
                       (deltaText "Po", deltaValue "Po")] with
  | Some v => Normal v
  | None => Throw SyntaxError
  end.

(** The contents of the examples are strings, on which ToString is the
    identity and is not consulted. *)
Definition toStringSample (v : JSON) : jsstring := [].

Definition sampleKey : jsstring := lit "gsk_test".

(** A 429 answer whose body reads fine, and one whose body does not. *)
Definition rateLimited : fetch_result :=
  Normal {| status := 429; text := Normal (lit "slow down");
            json := Throw SyntaxError |}.

Definition rateLimitedBroken : fetch_result :=
  Normal {| status := 429; text := Throw TypeError;
            json := Throw SyntaxError |}.

(** A 200 answer carrying the reply [c]. *)
Definition replying (c : string) : fetch_result :=
  Normal {| status := 200; text := Throw TypeError;
            json := Normal
              (JObject [(lit "choices",
                 JArray [JObject [(lit "message",
                    JObject [(lit "content", JString (lit c))])]])]) |}.

(** A 200 stream delivering the given chunks and then [done]. *)
Definition streaming (cs : list jsstring) : completion StreamResponse :=
  Normal {| stream_status := 200;
            body := Some {| chunks := cs; ending := Normal tt |} |}.

(** The history after three answered questions: seven entries. *)
Definition threeExchanges : Service :=
  let ask q a s := snd (sendMessageToGemini sampleKey (lit q) (replying a) s) in
  ask "tre" "3" (ask "dy" "2" (ask "nje" "1" loaded)).

(** ** Sequences of calls *)

(** What a caller can do with the module. *)
Inductive Call : Type :=
| SendMessage (userMessage : jsstring) (answer : fetch_result)
| StreamMessage (userMessage : jsstring) (answer : completion StreamResponse)
| ResetConversation.

Section Calls.

Variable API_KEY : jsstring.
Variable JSON_parse : jsstring -> completion JSON.
Variable ToString : JSON -> jsstring.

(** The module state a call leaves, the generator of a streamed call
    being drained.  The call is taken from its start to its settlement:
    no other function of the module is called while it waits. *)
Definition call (c : Call) (s : Service) : Service :=
  match c with
  | SendMessage userMessage answer =>
      snd (sendMessageToGemini API_KEY userMessage answer s)
  | StreamMessage userMessage answer =>
      snd (streamMessageToGemini API_KEY JSON_parse ToString userMessage
             answer s)
  | ResetConversation => resetConversation s
  end.

(** Calls made one after the other, each settled before the next is
    made.  The history is private to the module, so between two such
    calls nothing changes it. *)
Definition calls (cs : list Call) (s : Service) : Service :=
  foldl (fun s c => call c s) s cs.

End Calls.

(** The user message of a call that sends a request. *)
Definition question (c : Call) : option jsstring :=
  match c with
  | SendMessage userMessage _ => Some userMessage
  | StreamMessage userMessage _ => Some userMessage
  | ResetConversation => None
  end.

Definition streams (c : Call) : bool :=
  match c with
  | StreamMessage _ _ => true
  | _ => false
  end.

(** An answer with the given status and a readable body; a 200 answer
    without choices; a stream refused with the given status; a stream
    whose reader fails after the given chunks. *)
Definition erring (code : Z) : fetch_result :=
  Normal {| status := code; text := Normal (lit "error");
            json := Throw SyntaxError |}.

Definition speechless : fetch_result :=
  Normal {| status := 200; text := Throw TypeError;
            json := Normal (JObject [(lit "choices", JArray [])]) |}.

Definition streamRefused (code : Z) : completion StreamResponse :=
  Normal {| stream_status := code; body := None |}.

Definition streamBroken (cs : list jsstring) : completion StreamResponse :=
  Normal {| stream_status := 200;
            body := Some {| chunks := cs; ending := Throw TypeError |} |}.

End GroqService.

(* ===================================================================== *)
(** * The sensor service and src/lib/simulation.ts                        *)
(* ===================================================================== *)

Module SensorService.
Import JS.

(** [lastUpdated] is a [Date], kept as its millisecond time stamp. *)
Record SensorData := {
  temperature : option Q;
  humidity : option Q;
  tempAlert : bool;
  light : option Q;
  lightIsDark : bool;
  motion : bool;
  lastMotion : option Q;
  isConnected : bool;
  lastUpdated : Z
}.

(** What one call depends on: the build-time environment variables,
    the time at which the module was loaded, the time [new Date()]
    gives when the record is built, and the answer of the [fetch] (an
    abort by the 5 s timer is a rejection with AbortError); for the
    simulation, the five [Math.random()] draws in the order in which
    they are made, doubles in the range from 0 up to but not including
    1, and the value of [Date.now()] on line 30. *)
Record Env := {
  VITE_SIMULATION_MODE : value;
  PI_IP : jsstring;
  SENSOR_PORT : jsstring;
  loadTime : Z;
  clock : Z;
  Date_now : Z;
  random : float * float * float * float * float;
  answer : fetch_result
}.

(** [DEFAULT_SENSOR_DATA] (lines 142-152); its date is taken when the
    module loads. *)
Definition DEFAULT_SENSOR_DATA (env : Env) : SensorData :=
  {| temperature := None; humidity := None; tempAlert := false;
     light := None; lightIsDark := false; motion := false;
     lastMotion := None; isConnected := false;
     lastUpdated := loadTime env |}.

(** [{ ...d, lastUpdated: t }]. *)
Definition with_lastUpdated (t : Z) (d : SensorData) : SensorData :=
  {| temperature := temperature d; humidity := humidity d;
     tempAlert := tempAlert d; light := light d;
     lightIsDark := lightIsDark d; motion := motion d;
     lastMotion := lastMotion d; isConnected := isConnected d;
     lastUpdated := t |}.

(** [isSimulationMode] (simulation.ts, lines 9-12). *)
Definition isSimulationMode (env : Env) : bool :=
  match VITE_SIMULATION_MODE env with
  | Some (JString s) =>
      jsstring_eqb s (lit "true") || jsstring_eqb s (lit "1")
  | Some (JBool true) => true
  | _ => false
  end.

(** ** Doubles

    The simulation computes in IEEE 754 double precision, which the
    kernel's floating-point numbers are.  The record keeps a number as
    the rational it stands for. *)

(** The value of a finite double; [None] for NaN and the infinities,
    which the simulation cannot produce from draws below 1.  Both zeros
    have the value 0. *)
Definition Number_value (x : float) : option Q :=
  match Prim2SF x with
  | S754_zero _ => Some 0%Q
  | S754_finite s m e =>
      let n := if s then Zneg m else Zpos m in
      Some (if 0 <=? e then inject_Z (n * 2 ^ e)
            else Qmake n (Z.to_pos (2 ^ (- e))))
  | S754_infinity _ | S754_nan => None
  end.

(** The double nearest to an integer (ties to even); exact below 2^53. *)
Definition Number_of_Z (n : Z) : float :=
  SF2Prim (binary_normalize prec emax n 0 false).

(** [Math.round]: the integer nearest to [x], the larger one on a tie;
    NaN and the infinities are returned as they are. *)
Definition Math_round (x : float) : float :=
  match Number_value x with
  | Some q => Number_of_Z (Qfloor (q + (1 # 2)))
  | None => x
  end.

(** [generateSimulatedSensorData] (simulation.ts, lines 17-34), in
    double precision as in the source.  The literal 0.7 stands for the
    double nearest to it, there as here. *)
#[local] Set Warnings "-inexact-float".
Definition generateSimulatedSensorData (env : Env) : SensorData :=
  let '(r1, r2, r3, r4, r5) := random env in
  let temperature := (18 + r1 * 10)%float in
  let humidity := (40 + r2 * 30)%float in
  let light := (r3 * 100)%float in
  {| temperature := Number_value (Math_round (temperature * 10) / 10)%float;
     humidity := Number_value (Math_round humidity);
     tempAlert := (26 <? temperature)%float;
     light := Number_value (Math_round light);
     lightIsDark := (light <? 30)%float;
     motion := (0.7 <? r4)%float;
     lastMotion :=
       Number_value (Number_of_Z (Date_now env) - r5 * 60000)%float;
     isConnected := true;
     lastUpdated := clock env |}.

(** The [try] block of [fetchSensorData] (lines 166-195). *)
Definition readSensors (env : Env) : completion SensorData :=
  bind (answer env) (fun response =>
  if negb (ok response)
  then Throw (Error (lit "Sensor API error: "
                       ++ lit (pretty (status response))))
  else
    bind (json response) (fun data =>
    let field key := get (Some data) (lit key) in
    bind (field "temperature") (fun data_temperature =>
    bind (field "humidity") (fun data_humidity =>
    bind (field "temp_alert") (fun data_temp_alert =>
    bind (field "light") (fun data_light =>
    bind (field "light_is_dark") (fun data_light_is_dark =>
    bind (field "motion") (fun data_motion =>
    bind (field "last_motion") (fun data_last_motion =>
    Normal {| temperature := typeof_number data_temperature;
              humidity := typeof_number data_humidity;
              tempAlert := truthy data_temp_alert;
              light := typeof_number data_light;
              lightIsDark := truthy data_light_is_dark;
              motion := truthy data_motion;
              lastMotion := typeof_number data_last_motion;
              isConnected := true;
              lastUpdated := clock env |}))))))))).

(** [fetchSensorData] (lines 155-202): how the promise settles. *)
Definition fetchSensorData (env : Env) : completion SensorData :=
  if isSimulationMode env then Normal (generateSimulatedSensorData env)
  else
    match PI_IP env with
    | [] => Normal (with_lastUpdated (clock env) (DEFAULT_SENSOR_DATA env))
    | _ :: _ =>
        try_catch (readSensors env) (fun error =>
        Normal (with_lastUpdated (clock env) (DEFAULT_SENSOR_DATA env)))
    end.

(** ** Outcomes of a poll and sample answers *)

(** The record of a sensor service that could not be reached. *)
Definition offline (t : Z) : SensorData :=
  {| temperature := None; humidity := None; tempAlert := false;
     light := None; lightIsDark := false; motion := false;
     lastMotion := None; isConnected := false; lastUpdated := t |}.

(** The request failed: the [fetch] was rejected (network failure or
    abort), the status is not 2xx, the body is not JSON, or the body is
    [null]. *)
Definition failed (env : Env) : Prop :=
  match answer env with
  | Throw _ => True
  | Normal response =>
      ok response = false
      \/ match json response with
         | Throw _ => True
         | Normal data => data = JNull
         end
  end.

(** A hardware set-up whose sensor endpoint answers 200 with [data]. *)
Definition wired (data : JSON) : Env :=
  {| VITE_SIMULATION_MODE := undefined; PI_IP := lit "192.168.1.50";
     SENSOR_PORT := lit "5000"; loadTime := 1000; clock := 2000;
     Date_now := 2000; random := (0, 0, 0, 0, 0)%float;
     answer := Normal {| status := 200; text := Throw TypeError;
                         json := Normal data |} |}.

(** Simulation mode at time 2000 with the given draws. *)
Definition simulating (draws : float * float * float * float * float)
  : Env :=
  {| VITE_SIMULATION_MODE := Some (JString (lit "true")); PI_IP := [];
     SENSOR_PORT := lit "5000"; loadTime := 1000; clock := 2000;
     Date_now := 2000; random := draws; answer := Throw TypeError |}.

(** The body [{"temperature": "22", "temp_alert": "no", "motion": 1}]. *)
Definition mistyped : JSON :=
  JObject [(lit "temperature", JString (lit "22"));
           (lit "temp_alert", JString (lit "no"));
           (lit "motion", JNumber 1)].

End SensorService.

(* ===================================================================== *)
(** * The rest of the sensor service: camera, status, polling             *)
(* ===================================================================== *)

Module Hardware.
Import JS SensorService.

(** What the camera helpers depend on besides the sensor environment:
    the camera port, the kinds of the devices the browser lists (or the
    failure of the listing), and the answer of the health request. *)
Record Camera := {
  CAMERA_PORT : jsstring;
  enumerateDevices : completion (list jsstring);
  health : fetch_result
}.

Record HardwareStatus := {
  sensorsConnected : bool;
  cameraConnected : bool;
  cameraUrl : option jsstring;
  isSimulation : bool
}.

(** [checkCameraConnection] (lines 205-232). *)
Definition checkCameraConnection (env : Env) (cam : Camera)
  : completion bool :=
  if isSimulationMode env then
    try_catch
      (bind (enumerateDevices cam) (fun devices =>
       Normal (existsb (fun kind => jsstring_eqb kind (lit "videoinput"))
                 devices)))
      (fun _ => Normal false)
  else
    match PI_IP env with
    | [] => Normal false
    | _ :: _ =>
        try_catch
          (bind (health cam) (fun response => Normal (ok response)))
          (fun _ => Normal false)
    end.

(** [http://${PI_IP}:${CAMERA_PORT}]. *)
Definition cameraBase (env : Env) (cam : Camera) : jsstring :=
  lit "http://" ++ PI_IP env ++ lit ":" ++ CAMERA_PORT cam.

(** [getCameraStreamUrl] (lines 235-241); [None] is [null]. *)
Definition getCameraStreamUrl (env : Env) (cam : Camera) : option jsstring :=
  if isSimulationMode env then None
  else match PI_IP env with
       | [] => None
       | _ :: _ => Some (cameraBase env cam ++ lit "/stream")
       end.

(** [getCameraSnapshotUrl] (lines 244-250). *)
Definition getCameraSnapshotUrl (env : Env) (cam : Camera)
  : option jsstring :=
  if isSimulationMode env then None
  else match PI_IP env with
       | [] => None
       | _ :: _ => Some (cameraBase env cam ++ lit "/snapshot")
       end.

(** [useBrowserCamera] (lines 253-255). *)
Definition useBrowserCamera (env : Env) : bool := isSimulationMode env.

(** [getHardwareStatus] (lines 258-270).  [Promise.all] rejects as soon
    as one of the two promises does. *)
Definition getHardwareStatus (env : Env) (cam : Camera)
  : completion HardwareStatus :=
  bind (fetchSensorData env) (fun sensorData =>
  bind (checkCameraConnection env cam) (fun cameraConnected =>
  Normal {| sensorsConnected := isConnected sensorData;
            cameraConnected := cameraConnected;
            cameraUrl := if cameraConnected
                         then getCameraStreamUrl env cam else None;
            isSimulation := isSimulationMode env |})).

(** [isHardwareConfigured] (lines 311-313). *)
Definition isHardwareConfigured (env : Env) : bool :=
  negb (jsstring_eqb (PI_IP env) []) || isSimulationMode env.

(** ** createSensorPoller (lines 273-308)

    The poller's variables ([isPolling], whether the timeout it set is
    pending), whether a poll is waiting for [fetchSensorData], and the
    calls made so far to [onData] and [onError], by argument. *)
Record Poller := {
  isPolling : bool;
  timeoutPending : bool;
  fetching : bool;
  delivered : list SensorData;
  reported : list exn
}.

(** What a call of one of the caller's callbacks does: it returns or
    throws, and on the way it may have called the cleanup function of
    the poller, which sets [isPolling] to false. *)
Record Callback := {
  completes : completion unit;
  stops : bool
}.

Section Poller.

(** The caller's [onData], and the caller's [onError], which is
    optional. *)
Variable onData : SensorData -> Callback.
Variable onError : option (exn -> Callback).

(** [poll()] up to its [await]. *)
Definition poll (p : Poller) : Poller :=
  if isPolling p
  then {| isPolling := true; timeoutPending := timeoutPending p;
          fetching := true; delivered := delivered p;
          reported := reported p |}
  else p.

(** [createSensorPoller]: the first poll starts at once. *)
Definition createSensorPoller : Poller :=
  poll {| isPolling := true; timeoutPending := false; fetching := false;
          delivered := []; reported := [] |}.

(** The [try] block from the [await] on (lines 285-288): how it ends,
    the call it made to [onData], if any, and the value of [isPolling]
    it leaves. *)
Record Tried := {
  tried : completion unit;
  called : list SensorData;
  pollingAfterTry : bool
}.

Definition deliver (env : Env) (p : Poller) : Tried :=
  match fetchSensorData env with
  | Normal data =>
      if isPolling p
      then {| tried := completes (onData data); called := [data];
              pollingAfterTry := negb (stops (onData data)) |}
      else {| tried := Normal tt; called := []; pollingAfterTry := false |}
  | Throw error =>
      {| tried := Throw error; called := [];
         pollingAfterTry := isPolling p |}
  end.

(** The [catch] block (lines 289-293) on what the [try] block left:
    how it ends, the call it made to [onError], if any, and the value
    of [isPolling] it leaves. *)
Record Caught := {
  caught : completion unit;
  errors : list exn;
  pollingAfterCatch : bool
}.

Definition report (t : Tried) : Caught :=
  match tried t with
  | Normal _ =>
      {| caught := Normal tt; errors := [];
         pollingAfterCatch := pollingAfterTry t |}
  | Throw error =>
      if pollingAfterTry t then
        match onError with
        | Some handler =>
            {| caught := completes (handler error); errors := [error];
               pollingAfterCatch := negb (stops (handler error)) |}
        | None =>
            {| caught := Normal tt; errors := [];
               pollingAfterCatch := true |}
        end
      else {| caught := Normal tt; errors := [];
              pollingAfterCatch := false |}
  end.

(** [poll()] from its [await] on, once [fetchSensorData] has settled.
    Lines 295-297 set the next timeout if the poller is still polling;
    they are not reached when the [catch] block throws, that is, when
    [onError] does: the promise of [poll] is then rejected, and nobody
    waits for it. *)
Definition resume (env : Env) (p : Poller) : Poller :=
  if fetching p then
    let t := deliver env p in
    let c := report t in
    {| isPolling := pollingAfterCatch c;
       timeoutPending := match caught c with
                         | Normal _ => pollingAfterCatch c
                         | Throw _ => false
                         end;
       fetching := false;
       delivered := delivered p ++ called t;
       reported := reported p ++ errors c |}
  else p.

(** The timeout fires. *)
Definition timeout (p : Poller) : Poller :=
  if timeoutPending p
  then poll {| isPolling := isPolling p; timeoutPending := false;
               fetching := fetching p; delivered := delivered p;
               reported := reported p |}
  else p.

(** The cleanup function the poller returns, called by the caller
    between two steps of the poller. *)
Definition stopPolling (p : Poller) : Poller :=
  {| isPolling := false; timeoutPending := false; fetching := fetching p;
     delivered := delivered p; reported := reported p |}.

Inductive PollerEvent : Type :=
| Settled (env : Env)
| TimedOut
| Stopped.

Definition pollerStep (ev : PollerEvent) (p : Poller) : Poller :=
  match ev with
  | Settled env => resume env p
  | TimedOut => timeout p
  | Stopped => stopPolling p
  end.

Definition pollerRun (evs : list PollerEvent) (p : Poller) : Poller :=
  foldl (fun p ev => pollerStep ev p) p evs.

(** The caller's [onError] returns whenever it is handed something
    [onData] threw. *)
Definition onErrorReturns : Prop :=
  forall d e handler,
    completes (onData d) = Throw e -> onError = Some handler ->
    exists u, completes (handler e) = Normal u.

(** What every step keeps: only what [onData] threw is reported, a
    poller that is not polling has no timeout pending, and a fetch in
    flight and a pending timeout exclude each other. *)
Definition orderly (q : Poller) : Prop :=
  Forall (fun e => exists d, completes (onData d) = Throw e) (reported q)
  /\ (isPolling q = false -> timeoutPending q = false)
  /\ fetching q && timeoutPending q = false.

End Poller.

(** A camera set-up with a webcam and a healthy Pi camera service, and
    an [onData] that always returns. *)
Definition healthy : Camera :=
  {| CAMERA_PORT := lit "8080";
     enumerateDevices := Normal [lit "audioinput"; lit "videoinput"];
     health := Normal {| status := 200; text := Throw TypeError;
                         json := Throw SyntaxError |} |}.

Definition accepting (d : SensorData) : Callback :=
  {| completes := Normal tt; stops := false |}.

(** An [onData] that throws on a disconnected record, an [onError] that
    throws as well, and an [onData] that stops the poller once the
    sensors are connected. *)
Definition demanding (d : SensorData) : Callback :=
  {| completes := if isConnected d then Normal tt
                  else Throw (Error (lit "offline"));
     stops := false |}.

Definition rethrowing (e : exn) : Callback :=
  {| completes := Throw e; stops := false |}.

Definition untilConnected (d : SensorData) : Callback :=
  {| completes := Normal tt; stops := isConnected d |}.

(** A set-up without device address and outside simulation mode. *)
Definition unconfigured : Env :=
  {| VITE_SIMULATION_MODE := undefined; PI_IP := [];
     SENSOR_PORT := lit "5000"; loadTime := 1000; clock := 2000;
     Date_now := 2000; random := (0, 0, 0, 0, 0)%float;
     answer := Throw TypeError |}.

End Hardware.

(* ===================================================================== *)
(** * lib/env: reading the build-time environment                         *)
(* ===================================================================== *)

Module EnvConfig.
Import JS.

(** [import.meta.env]: a variable is a string or is not defined; the
    simulation flag may also be a boolean. *)
Record ImportMetaEnv := {
  VITE_GROQ_API_KEY : option jsstring;
  VITE_GEMINI_API_KEY : option jsstring;
  VITE_RASPBERRY_PI_IP : option jsstring;
  VITE_SENSOR_PORT : option jsstring;
  VITE_CAMERA_PORT : option jsstring;
  VITE_SIMULATION_MODE : value
}.

(** In the two records below [None] is [null]. *)
Record EnvConfig := {
  groqApiKey : option jsstring;
  raspberryPiIp : option jsstring;
  sensorPort : jsstring;
  cameraPort : jsstring;
  simulationMode : bool
}.

Record EnvValidationResult := {
  isValid : bool;
  config : EnvConfig;
  warnings : list jsstring;
  errors : list jsstring
}.

(** [x || null] and [x || d] on an optional string. *)
Definition orNull (x : option jsstring) : option jsstring :=
  match x with
  | Some (_ :: _) => x
  | _ => None
  end.

Definition orDefault (x : option jsstring) (d : jsstring) : jsstring :=
  match x with
  | Some (c :: r) => c :: r
  | _ => d
  end.

(** [mode === 'true']. *)
Definition isTrueString (mode : value) : bool :=
  match mode with
  | Some (JString s) => jsstring_eqb s (lit "true")
  | _ => false
  end.

Definition missingKey : jsstring :=
  lit "VITE_GROQ_API_KEY is missing. Please get a free key from console.groq.com".

Definition oddKey : jsstring :=
  lit "API Key does not look like a standard Groq key (starts with gsk_).".

Definition noHardware : jsstring :=
  lit "VITE_RASPBERRY_PI_IP is not set. Hardware features disabled.".

(** [validateEnv]. *)
Definition validateEnv (e : ImportMetaEnv) : EnvValidationResult :=
  let groqApiKey :=
    orNull (or_string (VITE_GROQ_API_KEY e) (VITE_GEMINI_API_KEY e)) in
  let raspberryPiIp := orNull (VITE_RASPBERRY_PI_IP e) in
  let sensorPort := orDefault (VITE_SENSOR_PORT e) (lit "5000") in
  let cameraPort := orDefault (VITE_CAMERA_PORT e) (lit "8080") in
  let simulationMode := isTrueString (VITE_SIMULATION_MODE e) in
  let errors :=
    match groqApiKey with
    | None => [missingKey]
    | Some _ => []
    end in
  let warnings :=
    match groqApiKey with
    | None => []
    | Some key => if startsWith key (lit "gsk_") then [] else [oddKey]
    end in
  let warnings :=
    match raspberryPiIp with
    | None => if simulationMode then warnings else warnings ++ [noHardware]
    | Some _ => warnings
    end in
  {| isValid := (length errors =? 0)%nat;
     config := {| groqApiKey := groqApiKey; raspberryPiIp := raspberryPiIp;
                  sensorPort := sensorPort; cameraPort := cameraPort;
                  simulationMode := simulationMode |};
     warnings := warnings;
     errors := errors |}.

(** [getEnvConfig]. *)
Definition getEnvConfig (e : ImportMetaEnv) : EnvConfig :=
  {| groqApiKey := orNull (VITE_GROQ_API_KEY e);
     raspberryPiIp := orNull (VITE_RASPBERRY_PI_IP e);
     sensorPort := orDefault (VITE_SENSOR_PORT e) (lit "5000");
     cameraPort := orDefault (VITE_CAMERA_PORT e) (lit "8080");
     simulationMode := isTrueString (VITE_SIMULATION_MODE e) |}.

(** The sensor service's module constants ([PI_IP], [SENSOR_PORT],
    lines 118-119 of the service) and what [isSimulationMode] reads, as
    taken from this environment; the rest of a call's circumstances is
    passed through. *)
Definition sensorEnv (e : ImportMetaEnv) (loadTime clock Date_now : Z)
    (random : float * float * float * float * float)
    (answer : fetch_result)
  : SensorService.Env :=
  {| SensorService.VITE_SIMULATION_MODE := VITE_SIMULATION_MODE e;
     SensorService.PI_IP := orDefault (VITE_RASPBERRY_PI_IP e) [];
     SensorService.SENSOR_PORT := orDefault (VITE_SENSOR_PORT e) (lit "5000");
     SensorService.loadTime := loadTime;
     SensorService.clock := clock;
     SensorService.Date_now := Date_now;
     SensorService.random := random;
     SensorService.answer := answer |}.

(** An environment with a Gemini key only and a Pi address. *)
Definition legacy : ImportMetaEnv :=
  {| VITE_GROQ_API_KEY := None;
     VITE_GEMINI_API_KEY := Some (lit "AIza-test");
     VITE_RASPBERRY_PI_IP := Some (lit "192.168.1.50");
     VITE_SENSOR_PORT := None; VITE_CAMERA_PORT := Some [];
     VITE_SIMULATION_MODE := undefined |}.

End EnvConfig.

(* ===================================================================== *)
(** * services/geminiVisionService.ts                                     *)
(* ===================================================================== *)

Module VisionService.
Import JS.

(** What the function rejects with: a plain [Error], or the module's
    [GeminiVisionError] with its optional status code and its retryable
    flag. *)
Inductive Rejection : Type :=
| PlainError (message : jsstring)
| GeminiVisionError (message : jsstring) (statusCode : option Z)
    (isRetryable : bool).

(** How the [try] block of [analyzeImageWithGemini] ends. *)
Inductive Attempt : Type :=
| Returned (result : JSON)
| Raised (e : exn)
| RaisedVision (message : jsstring) (statusCode : option Z)
    (isRetryable : bool).

Inductive Analysis : Type :=
| Resolved (result : JSON)
| Rejected (r : Rejection).

(** The prompt of lines 22-26 and the text of line 54 that follows it. *)
Definition VISION_SYSTEM_PROMPT : jsstring :=
  [84; 105; 32; 106; 101; 32; 115; 121; 116; 235; 32; 101; 32; 65; 69; 82;
   65; 44; 32; 110; 106; 235; 32; 112; 97; 115; 113; 121; 114; 235; 32;
   105; 110; 116; 101; 108; 105; 103; 106; 101; 110; 116; 101; 46; 10; 45;
   32; 80; 235; 114; 115; 104; 107; 114; 117; 97; 106; 32; 231; 102; 97;
   114; 235; 32; 115; 104; 101; 104; 32; 110; 235; 32; 105; 109; 97; 122;
   104; 32; 115; 104; 107; 117; 114; 116; 105; 109; 105; 115; 104; 116;
   32; 110; 235; 32; 83; 104; 113; 105; 112; 46; 10; 45; 32; 78; 235; 115;
   101; 32; 115; 104; 101; 104; 32; 110; 106; 235; 32; 112; 101; 114; 115;
   111; 110; 44; 32; 106; 101; 112; 32; 110; 106; 235; 32; 107; 111; 109;
   112; 108; 105; 109; 101; 110; 116; 32; 116; 235; 32; 108; 101; 104;
   116; 235; 32; 112; 235; 114; 32; 118; 101; 115; 104; 106; 101; 110; 32;
   111; 115; 101; 32; 115; 116; 105; 108; 105; 110; 46; 10; 45; 32; 78;
   235; 115; 101; 32; 116; 235; 32; 112; 121; 101; 115; 105; 110; 32; 34;
   231; 102; 97; 114; 235; 32; 235; 115; 104; 116; 235; 32; 107; 106; 111;
   34; 44; 32; 116; 114; 101; 103; 111; 32; 111; 98; 106; 101; 107; 116;
   105; 110; 46; 10; 45; 32; 77; 111; 115; 32; 112; 235; 114; 100; 111;
   114; 32; 109; 97; 114; 107; 100; 111; 119; 110; 46; 32; 80; 235; 114;
   103; 106; 105; 103; 106; 117; 32; 110; 235; 32; 50; 32; 102; 106; 97;
   108; 105; 32; 109; 97; 107; 115; 105; 109; 117; 109; 105; 46]%N.

Definition questionHeader : jsstring :=
  [10; 10; 80; 121; 101; 116; 106; 97; 32; 101; 32; 112; 235; 114; 100;
   111; 114; 117; 101; 115; 105; 116; 58; 32]%N.

Definition VISION_MODEL : jsstring :=
  lit "meta-llama/llama-4-scout-17b-16e-instruct".

(** Lines 37-39: the image as a data URL. *)
Definition imageUrlOf (imageBase64 : jsstring) : jsstring :=
  if startsWith imageBase64 (lit "data:") then imageBase64
  else lit "data:image/jpeg;base64," ++ imageBase64.

(** The text part of the request (line 54). *)
Definition promptOf (question : jsstring) : jsstring :=
  VISION_SYSTEM_PROMPT ++ questionHeader ++ question.

(** [data.choices[0]?.message?.content] (line 76). *)
Definition firstChoiceContent (data : JSON) : completion value :=
  bind (get (Some data) (lit "choices")) (fun choices =>
  bind (get0 choices) (fun choice =>
  bind (get_opt choice (lit "message")) (fun message =>
  get_opt message (lit "content")))).

(** Lines 42-81: the [try] block. *)
Definition attempt (answer : fetch_result) : Attempt :=
  match answer with
  | Throw e => Raised e
  | Normal response =>
      if negb (ok response) then
        match text response with
        | Throw e => Raised e
        | Normal err =>
            if (status response =? 400) || (status response =? 404)
            then RaisedVision
                   (lit "Model Error (" ++ VISION_MODEL
                      ++ lit "). Try using 'llama-3.2-11b-vision-preview' if this fails.")
                   None false
            else RaisedVision
                   (lit "Groq Vision Error: " ++ lit (pretty (status response)))
                   None false
        end
      else
        match
          bind (json response) (fun data =>
          bind (get (Some data) (lit "choices")) (fun choices =>
          bind (get0 choices) (fun choice =>
          bind (get_opt choice (lit "message")) (fun message =>
          get_opt message (lit "content")))))
        with
        | Throw e => Raised e
        | Normal result =>
            match result with
            | Some r => if truthy result then Returned r
                        else Raised (Error (lit "No content returned from Vision API"))
            | None => Raised (Error (lit "No content returned from Vision API"))
            end
        end
  end.

(** [analyzeImageWithGemini] (lines 28-87): how the promise settles,
    and the image URL and text of the request it sent, if any. *)
Definition analyzeImageWithGemini (API_KEY imageBase64 question : jsstring)
    (answer : fetch_result) : Analysis * option (jsstring * jsstring) :=
  match API_KEY with
  | [] => (Rejected (PlainError (lit "VITE_GROQ_API_KEY is missing")), None)
  | _ :: _ =>
      let imageUrl := imageUrlOf imageBase64 in
      let sent := Some (promptOf question, imageUrl) in
      match attempt answer with
      | Returned result => (Resolved result, sent)
      | Raised _ | RaisedVision _ _ _ =>
          (Rejected (GeminiVisionError (lit "Failed to analyze image")
                       None false), sent)
      end
  end.

(** The one rejection of the [catch] block (line 85). *)
Definition failure : Rejection :=
  GeminiVisionError (lit "Failed to analyze image") None false.

(** A 200 answer describing the image. *)
Definition describing (c : string) : fetch_result :=
  Normal {| status := 200; text := Throw TypeError;
            json := Normal
              (JObject [(lit "choices",
                 JArray [JObject [(lit "message",
                    JObject [(lit "content", JString (lit c))])]])]) |}.

End VisionService.

(* ===================================================================== *)
(** * Properties of the speech-to-text hook                               *)
(* ===================================================================== *)

Module GroqSTTSpec.
Import JS GroqSTT.

(** ** The teardown routines never throw *)

Lemma stopRecorderIfActive_done (h : Hook) :
  exists h', stopRecorderIfActive h = Done h' /\ recorderIdle h'
             /\ animationFrameRef h' = animationFrameRef h
             /\ frames h' = frames h
             /\ isSpeechDetectedRef h' = isSpeechDetectedRef h.
Proof.
  unfold stopRecorderIfActive, recorderIdle.
  destruct (mediaRecorderRef h) as [[st sid]|] eqn:Hrec; cbn.
  - destruct st; cbn; eexists; (split; [reflexivity|]); cbn;
      rewrite ?Hrec; auto.
  - eexists; split; [reflexivity|]. rewrite Hrec. auto.
Qed.

Lemma stopRecorderIfActive_idle (h : Hook) :
  recorderIdle h -> stopRecorderIfActive h = Done h.
Proof.
  unfold stopRecorderIfActive, recorderIdle.
  destruct (mediaRecorderRef h) as [[st sid]|]; cbn; [|reflexivity].
  intros ->. reflexivity.
Qed.

Lemma cancelPendingFrame_None (h : Hook) :
  animationFrameRef (cancelPendingFrame h) = None.
Proof.
  unfold cancelPendingFrame.
  destruct (animationFrameRef h) eqn:E; [reflexivity | exact E].
Qed.

Lemma cancelPendingFrame_id (h : Hook) :
  animationFrameRef h = None -> cancelPendingFrame h = h.
Proof. unfold cancelPendingFrame. intros ->. reflexivity. Qed.

Lemma cancelPendingFrame_recorder (h : Hook) :
  mediaRecorderRef (cancelPendingFrame h) = mediaRecorderRef h.
Proof. unfold cancelPendingFrame. destruct (animationFrameRef h); reflexivity. Qed.

Lemma stopListening_done (h : Hook) :
  exists h', stopListening h = Done h' /\ recorderIdle h'
             /\ animationFrameRef h' = None
             /\ isSpeechDetectedRef h' = isSpeechDetectedRef h.
Proof.
  unfold stopListening.
  destruct (stopRecorderIfActive_done h) as (h1 & -> & Hidle & _ & _ & Hflag).
  cbn. eexists; split; [reflexivity|]. split; [|split].
  - unfold recorderIdle in *. now rewrite cancelPendingFrame_recorder.
  - apply cancelPendingFrame_None.
  - rewrite <- Hflag. unfold cancelPendingFrame.
    destruct (animationFrameRef h1); reflexivity.
Qed.

Lemma stopListening_settled (h : Hook) :
  recorderIdle h -> animationFrameRef h = None -> stopListening h = Done h.
Proof.
  intros Hidle Hframe. unfold stopListening.
  rewrite (stopRecorderIfActive_idle h Hidle). cbn.
  now rewrite (cancelPendingFrame_id h Hframe).
Qed.

Lemma cleanupAudio_done (h : Hook) :
  exists h', cleanupAudio h = Done h' /\ recorderIdle h'
             /\ animationFrameRef h' = None
             /\ sourceRef h' = None /\ analyserRef h' = None
             /\ (audioContextRef h' = None \/ audioContextRef h' = Some closed)
             /\ isSpeechDetectedRef h' = isSpeechDetectedRef h.
Proof.
  unfold cleanupAudio.
  destruct (stopRecorderIfActive_done h) as (h1 & -> & Hidle & _ & _ & Hflag).
  cbn. eexists; split; [reflexivity|].
  pose proof (cancelPendingFrame_None h1) as Hframe.
  pose proof (cancelPendingFrame_recorder h1) as Hrec.
  assert (Hf : isSpeechDetectedRef (cancelPendingFrame h1) = isSpeechDetectedRef h)
    by (rewrite <- Hflag; unfold cancelPendingFrame;
        destruct (animationFrameRef h1); reflexivity).
  unfold recorderIdle in *. rewrite <- Hrec in Hidle.
  generalize dependent (cancelPendingFrame h1). intros h2 Hidle Hframe _ Hf.
  destruct (sourceRef h2) eqn:Hs, (analyserRef h2) eqn:Ha,
    (audioContextRef h2) as [[]|] eqn:Hc; cbn; rewrite ?Hs, ?Ha, ?Hc; cbn;
    rewrite ?Hs, ?Ha, ?Hc; cbn; auto 10.
Qed.

Lemma cleanupAudio_settled (h : Hook) :
  recorderIdle h -> animationFrameRef h = None ->
  sourceRef h = None -> analyserRef h = None ->
  audioContextRef h = None \/ audioContextRef h = Some closed ->
  cleanupAudio h = Done h.
Proof.
  intros Hidle Hframe Hs Ha Hc. unfold cleanupAudio.
  rewrite (stopRecorderIfActive_idle h Hidle). cbn.
  rewrite (cancelPendingFrame_id h Hframe), Hs, Ha.
  destruct Hc as [-> | ->]; reflexivity.
Qed.

Lemma stopListening_scheduled (h : Hook) :
  scheduled h ->
  exists h1, stopListening h = Done h1 /\ frames h1 = []
             /\ animationFrameRef h1 = None.
Proof.
  intros (_ & id & Hfr & Href). unfold stopListening.
  destruct (stopRecorderIfActive_done h) as (h1 & -> & _ & Href1 & Hfr1 & _).
  cbn. eexists; split; [reflexivity|].
  unfold cancelPendingFrame. rewrite Href1, Href. cbn.
  rewrite Hfr1, Hfr. cbn. rewrite decide_False by (intros H; now apply H).
  split; reflexivity.
Qed.

(** C9.  The teardown is idempotent.  From any state of the hook,
    [stopListening] returns without throwing, and a second call from the
    state it leaves returns that very state, so that at most one [stop]
    event is queued however often the call is repeated; the same holds
    for [cleanupAudio], after which [stopListening] changes nothing
    either.  When a tick of the VAD loop ends in the stop path, a manual
    stop right after it changes nothing; and when the manual stop comes
    first, the pending tick is cancelled and never runs. *)
Theorem teardown_idempotent (h : Hook) :
  (exists h1, stopListening h = Done h1 /\ stopListening h1 = Done h1
              /\ (length (stopEvents h1) <= S (length (stopEvents h)))%nat)
  /\ (exists h2, cleanupAudio h = Done h2 /\ cleanupAudio h2 = Done h2
                 /\ stopListening h2 = Done h2)
  /\ (forall (v : VolumeSample) (k : Hook),
        checkVolume v h = stopListening k ->
        exists h3, checkVolume v h = Done h3 /\ stopListening h3 = Done h3)
  /\ (scheduled h ->
      forall v : VolumeSample,
        exists h1, stopListening h = Done h1 /\ animationFrame v h1 = Done h1).
Proof.
  split; [|split; [|split]].
  - destruct (stopListening_done h) as (h1 & E & Hidle & Hframe & _).
    exists h1. split; [exact E|]. split.
    + now apply stopListening_settled.
    + revert E. unfold stopListening, stopRecorderIfActive, MediaRecorder_stop.
      destruct (mediaRecorderRef h) as [[[] sid]|]; cbn; intros [= <-];
        unfold cancelPendingFrame; cbn;
        destruct (animationFrameRef h); cbn; rewrite ?length_app; cbn; lia.
  - destruct (cleanupAudio_done h)
      as (h2 & E & Hidle & Hframe & Hs & Ha & Hc & _).
    exists h2. split; [exact E|]. split.
    + now apply cleanupAudio_settled.
    + now apply stopListening_settled.
  - intros v k ->.
    destruct (stopListening_done k) as (h3 & E & Hidle & Hframe & _).
    exists h3. split; [exact E|]. now apply stopListening_settled.
  - intros Hsched v.
    destruct (stopListening_scheduled h Hsched) as (h1 & E & Hfr & _).
    exists h1. split; [exact E|]. unfold animationFrame. now rewrite Hfr.
Qed.

(** ** The accept/reject policy of [onstop] *)


Lemma processAudio_flag (env : UploadEnv) (clip : Z) (h : Hook) :
  isSpeechDetectedRef (processAudio env clip h) = isSpeechDetectedRef h.
Proof.
  unfold processAudio.
  destruct (falsy_string _); [reflexivity|].
  destruct (transcribe env) as [[c|]|e]; reflexivity.
Qed.



(** ** The speech flag within a session *)

Lemma stopListening_flag (h : Hook) :
  isSpeechDetectedRef (final (stopListening h)) = isSpeechDetectedRef h.
Proof. destruct (stopListening_done h) as (h' & -> & _ & _ & E). exact E. Qed.

Lemma cleanupAudio_flag (h : Hook) :
  isSpeechDetectedRef (final (cleanupAudio h)) = isSpeechDetectedRef h.
Proof.
  destruct (cleanupAudio_done h) as (h' & -> & _ & _ & _ & _ & _ & E).
  exact E.
Qed.

Lemma checkVolume_flag (v : VolumeSample) (h : Hook) :
  isSpeechDetectedRef h = true ->
  isSpeechDetectedRef (final (checkVolume v h)) = true.
Proof.
  intros Hflag. unfold checkVolume.
  destruct (analyserRef h); [|exact Hflag].
  set (h0 := if above_threshold (dataArray v) then _ else h).
  assert (H0 : isSpeechDetectedRef h0 = true)
    by (subst h0; destruct (above_threshold _); [reflexivity | exact Hflag]).
  rewrite H0.
  destruct (now v - lastSpeechTimeRef h0 >? SILENCE_DURATION).
  - now rewrite stopListening_flag.
  - cbn. exact H0.
Qed.

Lemma step_flag (ev : Event) (h : Hook) :
  within_session ev = true ->
  isSpeechDetectedRef h = true ->
  isSpeechDetectedRef (step ev h) = true.
Proof.
  intros Hev Hflag. destruct ev as [env| | | |v|size|env]; cbn in *.
  - discriminate.
  - now rewrite stopListening_flag.
  - exact Hflag.
  - now rewrite cleanupAudio_flag.
  - unfold animationFrame. destruct (frames h); [exact Hflag|].
    now apply checkVolume_flag.
  - unfold ondataavailable. destruct (size >? 0); exact Hflag.
  - unfold recorderStopped. destruct (stopEvents h); [exact Hflag|].
    unfold onstop. cbn.
    destruct (_ && _); [rewrite processAudio_flag|]; exact Hflag.
Qed.

(** C4.  Within a session the speech flag is monotone: once it is true,
    no sequence of events other than a new start (ticks of the VAD loop,
    stops, the unmount cleanup, recorder callbacks, transcript resets)
    makes it false again; and a successful start whose first reading is
    quiet does reset it. *)
Theorem speechDetected_monotone (evs : list Event) (h : Hook) :
  Forall (fun ev => within_session ev = true) evs ->
  isSpeechDetectedRef h = true ->
  isSpeechDetectedRef (run evs h) = true
  /\ (forall first : VolumeSample,
        quiet first ->
        isSpeechDetectedRef
          (step (StartListening (granted first)) (run evs h)) = false).
Proof.
  intros Hevs Hflag. split.
  - revert h Hflag. induction Hevs as [|ev evs Hev _ IH]; intros h Hflag.
    + exact Hflag.
    + cbn. apply IH. now apply step_flag.
  - intros first Hquiet. generalize (run evs h). clear Hevs Hflag h evs.
    intros h.
    unfold step, startListening, startListening_try.
    destruct (cleanupAudio_done h) as (h1 & -> & _).
    unfold andThen, granted, getUserMedia, newAudioContext,
      newMediaRecorder, firstSample, checkVolume.
    unfold quiet in Hquiet.
    cbn [analyserRef set_isListening set_audioChunksRef set_mediaRecorderRef
         set_isSpeechDetectedRef set_lastSpeechTimeRef set_sourceRef
         set_analyserRef MediaRecorder_start]. rewrite Hquiet.
    reflexivity.
Qed.

(** ** The VAD loop *)

(** The threshold test on whole numbers: the average of a non-empty
    array exceeds 20 exactly when the sum exceeds 20 times the length. *)
Lemma above_threshold_spec (d : list Z) :
  d <> [] ->
  above_threshold d = true <-> 20 * Z.of_nat (length d) < sum d.
Proof.
  intros Hne. unfold above_threshold, average.
  destruct d as [|b d]; [now elim Hne|]. cbn [length].
  rewrite negb_true_iff, <- not_true_iff_false, Qle_bool_iff.
  unfold VAD_THRESHOLD, Qle. cbn [Qnum Qden].
  rewrite Zpos_P_of_succ_nat, <- Nat2Z.inj_succ. lia.
Qed.

(** A tick that finds no speech so far, or speech at most
    [SILENCE_DURATION] ago, schedules the next tick and leaves the
    recorder alone. *)
Lemma tick_continues (v : VolumeSample) (h : Hook) :
  scheduled h ->
  heard v h = false \/ now v - lastHeard v h <= SILENCE_DURATION ->
  exists h', animationFrame v h = Done h'
    /\ scheduled h'
    /\ isSpeechDetectedRef h' = heard v h
    /\ lastSpeechTimeRef h' = lastHeard v h
    /\ mediaRecorderRef h' = mediaRecorderRef h
    /\ stopEvents h' = stopEvents h
    /\ nextFrame h' = Pos.succ (nextFrame h).
Proof.
  intros (Han & id & Hfr & Href) Hcont.
  unfold animationFrame, checkVolume, heard, lastHeard in *.
  rewrite Hfr. cbn [analyserRef set_frames].
  destruct (analyserRef h) as [n|] eqn:Ha; [clear Han | now elim Han].
  destruct (above_threshold (dataArray v)) eqn:Habove;
    cbn [isSpeechDetectedRef lastSpeechTimeRef set_lastSpeechTimeRef
         set_isSpeechDetectedRef set_frames].
  - rewrite orb_true_r in *. cbv beta iota in Hcont.
    destruct Hcont as [|Hle]; [discriminate|].
    destruct (now v - now v >? SILENCE_DURATION) eqn:Hgt;
      [apply Z.gtb_gt in Hgt; lia|].
    eexists; split; [reflexivity|]. cbn. unfold scheduled. cbn.
    rewrite Ha. repeat split; eauto; discriminate.
  - rewrite orb_false_r in *. cbv beta iota in Hcont.
    destruct (isSpeechDetectedRef h) eqn:Hflag.
    + destruct Hcont as [|Hle]; [discriminate|].
      destruct (now v - lastSpeechTimeRef h >? SILENCE_DURATION) eqn:Hgt;
        [apply Z.gtb_gt in Hgt; lia|].
      eexists; split; [reflexivity|]. cbn. unfold scheduled. cbn.
      rewrite Ha, Hflag. repeat split; eauto; discriminate.
    + eexists; split; [reflexivity|]. cbn. unfold scheduled. cbn.
      rewrite Ha, Hflag. repeat split; eauto; discriminate.
Qed.

(** A tick that finds the last speech more than [SILENCE_DURATION] ago
    ends in [stopListening] and schedules nothing. *)
Lemma tick_stops (v : VolumeSample) (h : Hook) :
  scheduled h ->
  isSpeechDetectedRef h = true -> quiet v ->
  SILENCE_DURATION < now v - lastSpeechTimeRef h ->
  animationFrame v h = stopListening (set_frames [] h).
Proof.
  intros (Han & id & Hfr & Href) Hflag Hquiet Hlate.
  unfold animationFrame, checkVolume. rewrite Hfr.
  cbn [analyserRef set_frames].
  destruct (analyserRef h) as [n|]; [clear Han | now elim Han].
  unfold quiet in Hquiet. rewrite Hquiet.
  cbn [isSpeechDetectedRef lastSpeechTimeRef set_frames]. rewrite Hflag.
  destruct (now v - lastSpeechTimeRef h >? SILENCE_DURATION) eqn:Hgt;
    [reflexivity|].
  rewrite Z.gtb_ltb, Z.ltb_ge in Hgt. lia.
Qed.

Lemma quiet_ticks (vs : list VolumeSample) (h : Hook) :
  scheduled h ->
  Forall (fun v => quiet v
                   /\ (isSpeechDetectedRef h = false
                       \/ now v - lastSpeechTimeRef h <= SILENCE_DURATION)) vs ->
  let h' := run (map AnimationFrame vs) h in
  scheduled h'
  /\ isSpeechDetectedRef h' = isSpeechDetectedRef h
  /\ lastSpeechTimeRef h' = lastSpeechTimeRef h
  /\ mediaRecorderRef h' = mediaRecorderRef h
  /\ stopEvents h' = stopEvents h
  /\ Pos.to_nat (nextFrame h') = (Pos.to_nat (nextFrame h) + length vs)%nat.
Proof.
  intros Hsched Hvs. revert h Hsched Hvs.
  induction vs as [|v vs IH]; intros h Hsched Hvs.
  - cbn. split; [exact Hsched|]. repeat split. lia.
  - apply Forall_cons in Hvs as [[Hquiet Hcont] Hvs].
    assert (Hheard : heard v h = isSpeechDetectedRef h)
      by (unfold heard; rewrite Hquiet; apply orb_false_r).
    assert (Hlast : lastHeard v h = lastSpeechTimeRef h)
      by (unfold lastHeard; now rewrite Hquiet).
    destruct (tick_continues v h Hsched)
      as (h1 & E & Hs1 & Hf1 & Hl1 & Hr1 & He1 & Hn1).
    { rewrite Hheard, Hlast. exact Hcont. }
    rewrite Hheard in Hf1. rewrite Hlast in Hl1.
    cbn [map run foldl step]. rewrite E. cbn [final].
    destruct (IH h1 Hs1) as (Hs & Hf & Hl & Hr & He & Hn).
    { rewrite Hf1, Hl1. exact Hvs. }
    unfold run in *. cbn zeta in *.
    rewrite Hf, Hl, Hr, He, Hn, Hf1, Hl1, Hr1, He1, Hn1.
    split; [exact Hs|]. repeat split. cbn [length]. lia.
Qed.

(** C2.  While the average never exceeds the threshold, the VAD loop
    never stops the session.  Starting from a scheduled loop on which no
    speech has been detected, any number of quiet ticks leaves the loop
    scheduled with the flag still false and the recorder untouched (no
    [stop] event queued), each tick having requested the next one; only
    [stopListening] then ends it, cancelling the pending tick. *)
Theorem silence_never_auto_stops (vs : list VolumeSample) (h : Hook) :
  scheduled h ->
  isSpeechDetectedRef h = false ->
  Forall quiet vs ->
  let h' := run (map AnimationFrame vs) h in
  scheduled h'
  /\ isSpeechDetectedRef h' = false
  /\ mediaRecorderRef h' = mediaRecorderRef h
  /\ stopEvents h' = stopEvents h
  /\ Pos.to_nat (nextFrame h') = (Pos.to_nat (nextFrame h) + length vs)%nat
  /\ exists h'', stopListening h' = Done h'' /\ frames h'' = []
                 /\ animationFrameRef h'' = None.
Proof.
  intros Hsched Hflag Hquiet.
  destruct (quiet_ticks vs h Hsched) as (Hs & Hf & _ & Hr & He & Hn).
  { eapply Forall_impl; [exact Hquiet|]. cbn. auto. }
  cbn zeta. rewrite Hf. repeat split; try apply Hs; auto.
  now apply stopListening_scheduled.
Qed.

(** C3.  Silence after speech stops the session.  Let the loop be
    scheduled with the recorder recording; let a tick find the average
    above the threshold, and let every later tick find it at or below
    it.  As long as those ticks come no later than [SILENCE_DURATION]
    after the loud one, the loop stays scheduled and the recorder keeps
    recording; the first tick that comes later ends in [stopListening]:
    the recorder is stopped, its [stop] event queued, and no animation
    frame is left pending, so no further tick runs. *)
Theorem silence_after_speech_auto_stops
    (h : Hook) (sid : positive) (speech last : VolumeSample)
    (pause : list VolumeSample) :
  scheduled h ->
  mediaRecorderRef h = Some {| state := recording; stream := sid |} ->
  loud speech ->
  Forall (fun v => quiet v /\ now v - now speech <= SILENCE_DURATION) pause ->
  quiet last ->
  SILENCE_DURATION < now last - now speech ->
  let before := run (map AnimationFrame (speech :: pause)) h in
  let after := step (AnimationFrame last) before in
  (scheduled before
   /\ mediaRecorderRef before = mediaRecorderRef h
   /\ stopEvents before = stopEvents h)
  /\ animationFrame last before = stopListening (set_frames [] before)
  /\ mediaRecorderRef after = Some {| state := inactive; stream := sid |}
  /\ stopEvents after = stopEvents h ++ [sid]
  /\ frames after = []
  /\ animationFrameRef after = None
  /\ (forall v, step (AnimationFrame v) after = after).
Proof.
  intros Hsched Hrec Hloud Hpause Hquiet Hlate.
  destruct (tick_continues speech h Hsched)
    as (h1 & E1 & Hs1 & Hf1 & Hl1 & Hr1 & He1 & _).
  { right. unfold lastHeard. rewrite Hloud. unfold SILENCE_DURATION. lia. }
  assert (Hflag1 : isSpeechDetectedRef h1 = true)
    by (rewrite Hf1; unfold heard; rewrite Hloud; apply orb_true_r).
  assert (Hlast1 : lastSpeechTimeRef h1 = now speech)
    by (rewrite Hl1; unfold lastHeard; now rewrite Hloud).
  destruct (quiet_ticks pause h1 Hs1) as (Hs & Hf & Hl & Hr & He & _).
  { eapply Forall_impl; [exact Hpause|]. cbn. intros v [Hq Hle].
    split; [exact Hq|]. right. now rewrite Hlast1. }
  cbn zeta. cbn [map run foldl]. cbn [step]. rewrite E1. cbn [final].
  fold (run (map AnimationFrame pause) h1).
  set (before := run (map AnimationFrame pause) h1) in *.
  rewrite Hflag1 in Hf. rewrite Hlast1 in Hl. rewrite Hr1 in Hr.
  rewrite He1 in He.
  assert (Estop : animationFrame last before
                  = stopListening (set_frames [] before)).
  { apply tick_stops; auto. now rewrite Hl. }
  rewrite Estop.
  destruct Hs as (Han & id & Hfr & Href).
  assert (Eafter : stopListening (set_frames [] before)
                   = Done (set_animationFrameRef None
                             (set_stopEvents (stopEvents h ++ [sid])
                                (set_mediaRecorderRef
                                   (Some {| state := inactive; stream := sid |})
                                   (set_frames [] before))))).
  { unfold stopListening, stopRecorderIfActive.
    cbn [mediaRecorderRef set_frames]. rewrite Hr, Hrec.
    cbn [state MediaRecorder_stop stream andThen stopEvents set_frames].
    rewrite He. unfold cancelPendingFrame.
    cbn [animationFrameRef set_stopEvents set_mediaRecorderRef set_frames].
    rewrite Href. reflexivity. }
  rewrite Eafter. cbn [final].
  split; [|split; [|split; [|split; [|split; [|split]]]]]; try reflexivity.
  - split; [|split]; [|exact Hr|exact He].
    split; [exact Han|]. exists id. split; [exact Hfr|exact Href].
Qed.

(** ** Trimming and the transcript *)

Lemma trimStart_spec (s : jsstring) :
  exists l, s = l ++ trimStart s /\ blank l
            /\ (forall c, head (trimStart s) = Some c -> is_whitespace c = false).
Proof.
  induction s as [|c s (l & E & Hl & Hh)]; cbn.
  - exists []. repeat split; [constructor | discriminate].
  - destruct (is_whitespace c) eqn:Hc.
    + exists (c :: l). cbn. rewrite <- E. repeat split; auto.
      now constructor.
    + exists []. repeat split; [constructor|]. now intros ? [= <-].
Qed.

(** [trim] removes a blank prefix and a blank suffix, and what it leaves
    neither starts nor ends with white space. *)
Lemma trim_spec (s : jsstring) :
  exists l r, s = l ++ trim s ++ r /\ blank l /\ blank r
    /\ (forall c, head (trim s) = Some c -> is_whitespace c = false)
    /\ (forall c, last (trim s) = Some c -> is_whitespace c = false).
Proof.
  unfold trim, trimEnd.
  destruct (trimStart_spec s) as (l & E & Hl & Hh).
  set (m := trimStart s) in *.
  destruct (trimStart_spec (reverse m)) as (r & E' & Hr & Hh').
  set (k := trimStart (reverse m)) in *.
  assert (Em : m = reverse k ++ reverse r).
  { rewrite <- reverse_app, <- E'. now rewrite reverse_involutive. }
  exists l, (reverse r). repeat split.
  - now rewrite <- Em.
  - exact Hl.
  - unfold blank in *. now rewrite Forall_reverse.
  - intros c Hc. destruct (reverse k) as [|c' k'] eqn:Ek; [discriminate|].
    cbn in Hc. injection Hc as ->. apply Hh. now rewrite Em.
  - intros c Hc. apply Hh'. rewrite last_reverse in Hc. exact Hc.
Qed.

(** C5.  A response whose body carries a string [text] yields that
    string trimmed.  With a key configured, a 2xx answer and a JSON body
    whose [text] is the string [t], [processAudio] sets the transcript
    to [trim t] when that is not empty, and otherwise leaves the
    transcript as it was; in neither case does it set an error.  [trim t]
    is [t] without its leading and trailing white space. *)
Theorem processAudio_trims_text
    (env : UploadEnv) (clip : Z) (h : Hook) (response : Response)
    (data : JSON) (t : jsstring) :
  falsy_string
    (or_string (VITE_GROQ_API_KEY env) (VITE_GEMINI_API_KEY env)) = false ->
  upload env = Normal response ->
  ok response = true ->
  json response = Normal data ->
  get (Some data) (lit "text") = Normal (Some (JString t)) ->
  let h' := processAudio env clip h in
  error h' = error h
  /\ transcript h' = match trim t with
                     | [] => transcript h
                     | _ :: _ => trim t
                     end
  /\ exists l r, t = l ++ trim t ++ r /\ blank l /\ blank r
       /\ (forall c, head (trim t) = Some c -> is_whitespace c = false)
       /\ (forall c, last (trim t) = Some c -> is_whitespace c = false).
Proof.
  intros Hkey Hup Hok Hjson Htext. cbn zeta.
  split; [|split; [|apply trim_spec]];
    unfold processAudio, transcribe; rewrite Hkey, Hup; cbn [bind];
    rewrite Hok; cbn [negb bind]; rewrite Hjson; cbn [bind];
    rewrite Htext; cbn [bind truthy].
  - destruct t as [|c t]; [reflexivity|]. cbn [jsstring_eqb negb].
    destruct (trim (c :: t)); reflexivity.
  - destruct t as [|c t]; [reflexivity|]. cbn [jsstring_eqb negb].
    destruct (trim (c :: t)); reflexivity.
Qed.

(** ** A session from the browser's answer to its stop handler *)

Lemma startListening_split (env : StartEnv) (h : Hook) :
  startListening env h = startListening_resume env (startListening_request h).
Proof.
  unfold startListening, startListening_try, startListening_resume,
    startListening_request.
  destruct (cleanupAudio_done h) as (h1 & -> & _). reflexivity.
Qed.

(** What the second part of a granted start leaves, on any state. *)
Lemma resume_granted
    (env : StartEnv) (audioContext : AudioContextState) (h : Hook) :
  getUserMedia env = Normal tt ->
  newAudioContext env = Normal audioContext ->
  newMediaRecorder env = Normal tt ->
  let h' := startListening_resume env h in
  analyserRef h' = Some audioNode
  /\ frames h' = frames h ++ [nextFrame h]
  /\ animationFrameRef h' = Some (nextFrame h)
  /\ nextFrame h' = Pos.succ (nextFrame h)
  /\ mediaRecorderRef h'
     = Some {| state := recording; stream := nextStream h |}
  /\ isListening h' = true
  /\ audioChunksRef h' = []
  /\ isSpeechDetectedRef h' = above_threshold (dataArray (firstSample env))
  /\ liveStreams h' = liveStreams h ++ [nextStream h]
  /\ nextStream h' = Pos.succ (nextStream h)
  /\ stopEvents h' = stopEvents h
  /\ sameResults h h'.
Proof.
  intros Hmic Hctx Hrec. cbn zeta.
  unfold startListening_resume, startListening_answer, sameResults.
  rewrite Hmic, Hctx, Hrec. unfold checkVolume.
  cbn [analyserRef set_isListening set_audioChunksRef set_mediaRecorderRef
       set_isSpeechDetectedRef set_lastSpeechTimeRef set_sourceRef
       set_analyserRef MediaRecorder_start].
  destruct (above_threshold (dataArray (firstSample env)));
    cbn [isSpeechDetectedRef lastSpeechTimeRef set_lastSpeechTimeRef
         set_isSpeechDetectedRef].
  - rewrite Z.sub_diag. change (0 >? SILENCE_DURATION) with false.
    cbn iota. cbn. repeat split.
  - cbn. repeat split.
Qed.







Lemma run_app (evs1 evs2 : list Event) (h : Hook) :
  run (evs1 ++ evs2) h = run evs2 (run evs1 h).
Proof. unfold run. apply foldl_app. Qed.





(** ** Concrete sessions *)

Lemma listening_scheduled : scheduled listening.
Proof.
  vm_compute. split; [discriminate|]. exists 1%positive. split; reflexivity.
Qed.



Lemma silence_never_auto_stops_witness :
  let vs := [reading 0 16; reading 20 33; reading 3 50000] in
  let h' := run (map AnimationFrame vs) listening in
  scheduled h'
  /\ isSpeechDetectedRef h' = false
  /\ mediaRecorderRef h' = mediaRecorderRef listening
  /\ stopEvents h' = stopEvents listening
  /\ Pos.to_nat (nextFrame h')
     = (Pos.to_nat (nextFrame listening) + length vs)%nat
  /\ exists h'', stopListening h' = Done h'' /\ frames h'' = []
                 /\ animationFrameRef h'' = None.
Proof.
  apply (silence_never_auto_stops
           [reading 0 16; reading 20 33; reading 3 50000] listening).
  - exact listening_scheduled.
  - vm_compute. reflexivity.
  - repeat constructor.
Defined.

Lemma silence_after_speech_auto_stops_witness :
  let speech := reading 80 100 in
  let pause := [reading 5 600; reading 20 1600] in
  let last := reading 0 1601 in
  let before := run (map AnimationFrame (speech :: pause)) listening in
  let after := step (AnimationFrame last) before in
  (scheduled before
   /\ mediaRecorderRef before = mediaRecorderRef listening
   /\ stopEvents before = stopEvents listening)
  /\ animationFrame last before = stopListening (set_frames [] before)
  /\ mediaRecorderRef after
     = Some {| state := inactive; stream := 1%positive |}
  /\ stopEvents after = stopEvents listening ++ [1%positive]
  /\ frames after = []
  /\ animationFrameRef after = None
  /\ (forall v, step (AnimationFrame v) after = after).
Proof.
  apply (silence_after_speech_auto_stops listening 1%positive
           (reading 80 100) (reading 0 1601)
           [reading 5 600; reading 20 1600]).
  - exact listening_scheduled.
  - vm_compute. reflexivity.
  - vm_compute. reflexivity.
  - repeat constructor; vm_compute; discriminate.
  - vm_compute. reflexivity.
  - vm_compute. reflexivity.
Defined.

Lemma speechDetected_monotone_witness :
  let evs := [AnimationFrame (reading 0 10); DataAvailable 5000;
              StopListening; RecorderStopped (answering greetingBody);
              ResetTranscript; CleanupAudio] in
  isSpeechDetectedRef (run evs hearing) = true
  /\ (forall first : VolumeSample,
        quiet first ->
        isSpeechDetectedRef
          (step (StartListening (granted first)) (run evs hearing)) = false).
Proof.
  apply (speechDetected_monotone
           [AnimationFrame (reading 0 10); DataAvailable 5000;
            StopListening; RecorderStopped (answering greetingBody);
            ResetTranscript; CleanupAudio] hearing).
  - repeat constructor.
  - vm_compute. reflexivity.
Defined.

Lemma processAudio_trims_text_witness :
  let h' := processAudio (answering greetingBody) 5000 initial in
  error h' = error initial
  /\ transcript h' = greeting.
Proof.
  destruct (processAudio_trims_text (answering greetingBody) 5000 initial
              {| status := 200; text := Throw TypeError;
                 json := Normal greetingBody |}
              greetingBody (lit " " ++ greeting ++ lit " ")
              eq_refl eq_refl eq_refl eq_refl eq_refl)
    as (Herr & Htr & _).
  split; [exact Herr | exact Htr].
Defined.

(** Scenario A and Scenario B of the specification, run end to end:
    a 5000-byte clip with speech is transcribed to the greeting; a
    500-byte clip without speech is dropped. *)
Example scenario_A :
  let evs := [AnimationFrame (reading 0 10); DataAvailable 5000;
              StopListening; RecorderStopped (answering greetingBody)] in
  transcript (run evs hearing) = greeting
  /\ uploads (run evs hearing) = [5000]
  /\ error (run evs hearing) = None.
Proof. vm_compute. repeat split. Qed.

Example scenario_B :
  let evs := [AnimationFrame (reading 0 10); DataAvailable 500;
              StopListening; RecorderStopped (answering greetingBody)] in
  transcript (run evs listening) = []
  /\ uploads (run evs listening) = []
  /\ submitted (run evs listening) = []
  /\ error (run evs listening) = None.
Proof. vm_compute. repeat split. Qed.

End GroqSTTSpec.

(* ===================================================================== *)
(** * Properties of the chat service                                      *)
(* ===================================================================== *)

Module GroqServiceSpec.
Import JS GroqService.

Lemma enqueue_history (userMessage : jsstring) (s : Service) :
  conversationHistory (enqueue userMessage s)
  = seed (conversationHistory s) ++ [userEntry userMessage].
Proof.
  unfold enqueue. destruct s as [[|m h] rq]; reflexivity.
Qed.

Lemma enqueue_requests (userMessage : jsstring) (s : Service) :
  requests (enqueue userMessage s) = requests s.
Proof.
  unfold enqueue. destruct s as [[|m h] rq]; reflexivity.
Qed.

Lemma seed_seeded (h : list ChatMessage) : seeded h -> seeded (seed h).
Proof.
  destruct h as [|m h]; [|auto]. intros _. cbn. split; [reflexivity|constructor].
Qed.

(** ** A rate-limited call *)

(** On a fresh module the history is empty before the call and holds the
    system prompt after it. *)
Lemma rate_limit_changes_fresh_history :
  let out := sendMessageToGemini sampleKey (lit "Tung") rateLimited loaded in
  conversationHistory loaded = []
  /\ conversationHistory (snd out) = [systemEntry]
  /\ conversationHistory (snd out) <> conversationHistory loaded.
Proof. repeat split. discriminate. Qed.

(** When the body of a 429 answer cannot be read, the error thrown is
    that of the failed read; the user message is retracted all the
    same. *)
Example rate_limit_unreadable_body :
  let out := sendMessageToGemini sampleKey (lit "Tung") rateLimitedBroken
               threeExchanges in
  fst out = Throw TypeError
  /\ conversationHistory (snd out) = conversationHistory threeExchanges.
Proof. vm_compute. repeat split. Qed.

(** C6, as amended.  A call answered with status 429 (status and body
    received) throws a [GeminiApiError] with status code 429 and the
    retryable flag set.  The user message it had queued is
    removed again: the history is the one the call found, except that an
    empty history now holds the system prompt.  Exactly one request was
    sent, carrying the history with the user message: there is no
    retry. *)
Theorem rate_limit_retracts_user_message
    (API_KEY userMessage err : jsstring) (response : Response) (s : Service) :
  API_KEY <> [] ->
  status response = 429 ->
  text response = Normal err ->
  let out := sendMessageToGemini API_KEY userMessage (Normal response) s in
  fst out
  = Throw (GeminiApiError (lit "Groq Rate Limit - Too fast") (Some 429) true)
  /\ conversationHistory (snd out) = seed (conversationHistory s)
  /\ requests (snd out)
     = requests s ++ [seed (conversationHistory s) ++ [userEntry userMessage]].
Proof.
  intros Hkey Hstatus Htext. cbn zeta. unfold sendMessageToGemini.
  destruct API_KEY as [|k key]; [now elim Hkey|].
  unfold requestReply, ok. cbn [bind]. rewrite Hstatus, Htext.
  cbn [Z.leb Z.compare Pos.compare Pos.compare_cont andb negb bind Z.eqb
       Pos.eqb fst snd].
  unfold pop, post. cbn [conversationHistory requests set_history].
  rewrite enqueue_history, enqueue_requests, removelast_last.
  repeat split.
Qed.

Lemma rate_limit_retracts_user_message_witness :
  let out := sendMessageToGemini sampleKey (lit "Tung") rateLimited
               threeExchanges in
  fst out
  = Throw (GeminiApiError (lit "Groq Rate Limit - Too fast") (Some 429) true)
  /\ conversationHistory (snd out) = seed (conversationHistory threeExchanges)
  /\ requests (snd out)
     = requests threeExchanges
       ++ [seed (conversationHistory threeExchanges) ++ [userEntry (lit "Tung")]].
Proof.
  apply (rate_limit_retracts_user_message sampleKey (lit "Tung")
           (lit "slow down")
           {| status := 429; text := Normal (lit "slow down");
              json := Throw SyntaxError |}
           threeExchanges).
  - discriminate.
  - reflexivity.
  - reflexivity.
Defined.

(** ** The rolling history *)

Lemma trimHistory_length (h : list ChatMessage) :
  (length (trimHistory h) <= 7)%nat.
Proof.
  unfold trimHistory. destruct (7 <? length h)%nat eqn:Hlong.
  - apply Nat.ltb_lt in Hlong. destruct h as [|first rest]; [cbn; lia|].
    cbn [length] in *. rewrite length_drop. cbn [length]. lia.
  - apply Nat.ltb_ge in Hlong. exact Hlong.
Qed.

Lemma trimHistory_long (first : ChatMessage) (rest : list ChatMessage) :
  (7 <= length rest)%nat ->
  trimHistory (first :: rest) = first :: drop (length rest - 6) rest.
Proof.
  intros Hlong. unfold trimHistory.
  destruct (7 <? length (first :: rest))%nat eqn:E.
  - f_equal. cbn [length].
    replace (S (length rest) - 6)%nat with (S (length rest - 6)) by lia.
    reflexivity.
  - apply Nat.ltb_ge in E. cbn [length] in E. lia.
Qed.

Lemma trimHistory_short (h : list ChatMessage) :
  (length h <= 7)%nat -> trimHistory h = h.
Proof.
  intros Hshort. unfold trimHistory.
  destruct (7 <? length h)%nat eqn:E; [|reflexivity].
  apply Nat.ltb_lt in E. lia.
Qed.

Lemma trimHistory_seeded (h : list ChatMessage) :
  seeded h -> seeded (trimHistory h).
Proof.
  intros Hseed. unfold trimHistory.
  destruct (7 <? length h)%nat eqn:Hlong; [|exact Hseed].
  apply Nat.ltb_lt in Hlong. destruct h as [|first rest]; [exact I|].
  destruct Hseed as [-> Hrest]. split; [reflexivity|].
  cbn [length] in *.
  replace (S (length rest) - 6)%nat with (S (length rest - 6)) by lia.
  cbn [drop]. now apply Forall_drop.
Qed.

(** The non-streaming call trims: after a reply the history is the
    trimmed extension of the one the call found, it holds at most seven
    entries and begins with the system prompt; and when the extension is
    longer than seven, what remains is the system prompt followed by the
    last six entries. *)
Lemma send_reply_trims
    (API_KEY userMessage : jsstring) (answer : fetch_result) (reply : JSON)
    (s : Service) :
  API_KEY <> [] ->
  requestReply answer = Normal reply ->
  seeded (conversationHistory s) ->
  let full := seed (conversationHistory s)
                ++ [userEntry userMessage; assistantEntry reply] in
  let out := sendMessageToGemini API_KEY userMessage answer s in
  fst out = Normal reply
  /\ conversationHistory (snd out) = trimHistory full
  /\ (length (conversationHistory (snd out)) <= 7)%nat
  /\ head (conversationHistory (snd out)) = Some systemEntry
  /\ seeded (conversationHistory (snd out))
  /\ ((7 < length full)%nat ->
      conversationHistory (snd out)
      = systemEntry :: drop (length full - 6) full).
Proof.
  intros Hkey Hreply Hseed. cbn zeta. unfold sendMessageToGemini.
  destruct API_KEY as [|k key]; [now elim Hkey|]. rewrite Hreply.
  cbn [fst snd]. unfold push, post.
  cbn [conversationHistory requests set_history].
  rewrite enqueue_history, <- app_assoc. cbn [app].
  fold (assistantEntry reply).
  set (full := seed (conversationHistory s) ++ _).
  assert (Hfull : seeded full).
  { subst full. apply seed_seeded in Hseed.
    destruct (seed (conversationHistory s)) as [|first rest] eqn:E.
    - destruct (conversationHistory s); discriminate.
    - destruct Hseed as [-> Hrest]. split; [reflexivity|].
      apply Forall_app. split; [exact Hrest|].
      repeat constructor; discriminate. }
  assert (Hhead : head full = Some systemEntry).
  { subst full. destruct (conversationHistory s) as [|first rest] eqn:E;
      [reflexivity|]. destruct Hseed as [-> _].
    reflexivity. }
  split; [reflexivity|]. split; [reflexivity|].
  split; [apply trimHistory_length|].
  pose proof (trimHistory_seeded full Hfull) as Htrim.
  split; [|split; [exact Htrim|]].
  - unfold trimHistory. destruct (7 <? length full)%nat; [|exact Hhead].
    destruct full; [discriminate|]. exact Hhead.
  - intros Hlong. unfold trimHistory.
    apply Nat.ltb_lt in Hlong. rewrite Hlong.
    destruct full as [|first rest]; [discriminate|].
    now injection Hhead as ->.
Qed.

(** The streaming call does not: after a stream read to its end the
    history is the extension itself, whatever its length. *)
Lemma stream_reply_extends
    (API_KEY : jsstring) (JSON_parse : jsstring -> completion JSON)
    (ToString : JSON -> jsstring) (userMessage : jsstring)
    (response : StreamResponse) (reader : Reader) (s : Service) :
  API_KEY <> [] ->
  stream_ok response = true ->
  body response = Some reader ->
  ending reader = Normal tt ->
  let out := streamMessageToGemini API_KEY JSON_parse ToString userMessage
               (Normal response) s in
  let st := readAll JSON_parse ToString reader in
  out.1.1 = yielded st
  /\ out.1.2 = Normal tt
  /\ conversationHistory out.2
     = seed (conversationHistory s)
       ++ [userEntry userMessage;
           assistantEntry (JString (fullResponse st))].
Proof.
  intros Hkey Hok Hbody Hend. cbn zeta. unfold streamMessageToGemini.
  destruct API_KEY as [|k key]; [now elim Hkey|].
  rewrite Hok, Hbody, Hend. cbn [negb fst snd]. unfold push, post.
  cbn [conversationHistory requests set_history].
  rewrite enqueue_history, <- app_assoc. repeat split.
Qed.

(** C7, at the failing input.  With seven entries in the history, a
    streamed reply read to its end leaves nine: nothing is trimmed. The
    non-streaming call on the same history and question leaves seven. *)
Theorem streamed_reply_is_not_trimmed :
  let question := lit "kater" in
  let streamed :=
    streamMessageToGemini sampleKey parseSample toStringSample question
      (streaming [lit "data: " ++ deltaText "Po"]) threeExchanges in
  let sent :=
    sendMessageToGemini sampleKey question (replying "Po") threeExchanges in
  length (conversationHistory threeExchanges) = 7%nat
  /\ streamed.1.1 = [JString (lit "Po")]
  /\ streamed.1.2 = Normal tt
  /\ length (conversationHistory streamed.2) = 9%nat
  /\ sent.1 = Normal (JString (lit "Po"))
  /\ length (conversationHistory sent.2) = 7%nat.
Proof. vm_compute. repeat split. Qed.

(** ** The streamed reply *)

Section Streams.

Variable JSON_parse : jsstring -> completion JSON.
Variable ToString : JSON -> jsstring.

Local Abbreviation processLine := (processLine JSON_parse ToString).
Local Abbreviation contribution := (contribution JSON_parse).
Local Abbreviation readAll := (readAll JSON_parse ToString).
Local Abbreviation textOf := (textOf ToString).

Lemma processLine_contribution (st : Stream) (line : jsstring) :
  processLine st line
  = match contribution line with
    | Some c => append ToString c st
    | None => st
    end.
Proof.
  unfold GroqService.processLine, GroqService.contribution.
  destruct (_ && _); [|reflexivity].
  destruct (deltaContent JSON_parse line) as [[c|]|e]; try reflexivity.
  destruct (truthy (Some c)); reflexivity.
Qed.

Lemma processLines_spec (lines : list jsstring) (st : Stream) :
  yielded (foldl processLine st lines)
  = yielded st ++ omap contribution lines
  /\ fullResponse (foldl processLine st lines)
     = fullResponse st ++ concat (map textOf (omap contribution lines)).
Proof.
  revert st. induction lines as [|line lines IH]; intros st.
  - cbn. now rewrite !app_nil_r.
  - cbn [foldl]. destruct (IH (processLine st line)) as [Hy Hf].
    rewrite Hy, Hf, processLine_contribution.
    change (omap contribution (line :: lines))
      with (match contribution line with
            | Some c => c :: omap contribution lines
            | None => omap contribution lines
            end).
    destruct (contribution line) as [c|]; [|split; reflexivity].
    cbn [append yielded fullResponse map concat].
    rewrite <- !app_assoc. split; reflexivity.
Qed.

Lemma readAll_lines (r : Reader) :
  readAll r
  = foldl processLine {| fullResponse := []; yielded := [] |} (linesOf r).
Proof.
  unfold GroqService.readAll, linesOf.
  generalize {| fullResponse := []; yielded := [] |}.
  induction (chunks r) as [|chunk cs IH]; intros st; [reflexivity|].
  cbn [foldl map concat]. rewrite foldl_app. apply IH.
Qed.


End Streams.


End GroqServiceSpec.

(* ===================================================================== *)
(** * Properties of the sensor service                                    *)
(* ===================================================================== *)

Module SensorServiceSpec.
Import JS SensorService.

Lemma get_prop (data : JSON) (key : jsstring) :
  data <> JNull -> get (Some data) key = Normal (prop data key).
Proof. destruct data; intros Hne; try reflexivity. now elim Hne. Qed.

Lemma default_offline (env : Env) :
  with_lastUpdated (clock env) (DEFAULT_SENSOR_DATA env) = offline (clock env).
Proof. reflexivity. Qed.

(** The [try] block throws exactly when the request failed. *)
Lemma readSensors_failed (env : Env) :
  failed env -> exists e, readSensors env = Throw e.
Proof.
  unfold failed, readSensors.
  destruct (answer env) as [response|e]; [|intros _; now exists e].
  cbn [bind]. intros [Hok | Hbody].
  - rewrite Hok. cbn [negb]. eauto.
  - destruct (ok response); cbn [negb]; [|eauto].
    destruct (json response) as [data|e]; [|now exists e].
    subst data. now exists TypeError.
Qed.

Lemma readSensors_answered
    (env : Env) (response : Response) (data : JSON) :
  answer env = Normal response ->
  ok response = true ->
  json response = Normal data ->
  data <> JNull ->
  readSensors env
  = Normal {| temperature := typeof_number (prop data (lit "temperature"));
              humidity := typeof_number (prop data (lit "humidity"));
              tempAlert := truthy (prop data (lit "temp_alert"));
              light := typeof_number (prop data (lit "light"));
              lightIsDark := truthy (prop data (lit "light_is_dark"));
              motion := truthy (prop data (lit "motion"));
              lastMotion := typeof_number (prop data (lit "last_motion"));
              isConnected := true;
              lastUpdated := clock env |}.
Proof.
  intros Hans Hok Hjson Hne. unfold readSensors.
  rewrite Hans. cbn [bind]. rewrite Hok. cbn [negb]. rewrite Hjson.
  cbn [bind]. rewrite !(get_prop data _ Hne). reflexivity.
Qed.

(** A boolean field is never [null]: a body whose [temp_alert] is the
    string "no" and whose [motion] is the number 1 gives [true] for both,
    while the mistyped [temperature] does fall back to [null]. *)
Lemma boolean_fields_are_coerced :
  fetchSensorData (wired mistyped)
  = Normal {| temperature := None; humidity := None; tempAlert := true;
              light := None; lightIsDark := false; motion := true;
              lastMotion := None; isConnected := true;
              lastUpdated := 2000 |}.
Proof. vm_compute. reflexivity. Qed.

(** The simulation in double precision.  With the draws 0.8, 0.5, 0.3,
    0.7 and 0.5 the temperature is 26 and the light 30, both after
    rounding to the nearest double, so neither alert is raised, and a
    draw of 0.7 is no motion; with the draws 0.81, 0.29 and 0.71 both
    alerts are raised and motion is reported. *)
#[local] Set Warnings "-inexact-float".
Example simulated_readings :
  let d := generateSimulatedSensorData
             (simulating (0.8, 0.5, 0.3, 0.7, 0.5)%float) in
  let d' := generateSimulatedSensorData
              (simulating (0.81, 0.5, 0.29, 0.71, 0.5)%float) in
  (tempAlert d = false /\ lightIsDark d = false /\ motion d = false
   /\ option_map Qred (temperature d) = Some 26%Q
   /\ option_map Qred (humidity d) = Some 55%Q
   /\ option_map Qred (light d) = Some 30%Q
   /\ option_map Qred (lastMotion d) = Some (-28000)%Q
   /\ isConnected d = true /\ lastUpdated d = 2000)
  /\ (tempAlert d' = true /\ lightIsDark d' = true /\ motion d' = true
      /\ option_map Qred (light d') = Some 29%Q).
Proof. vm_compute. repeat split. Qed.

(** C10, as amended.  [fetchSensorData] always returns a record and
    never throws.  In simulation mode the record is the simulated one,
    connected and stamped with the current time.  Otherwise, without a device address or when the request fails
    (rejected or aborted fetch, status outside 2xx, body that is not
    JSON or is [null]), it is the default record, disconnected, with
    every reading [null] or [false], stamped with the current time.
    Otherwise it is connected and stamped with the current time; each
    numeric field is the response field when that is a number and [null]
    when it is not, and each boolean field is the truthiness of the
    response field. *)
Theorem fetchSensorData_total (env : Env) :
  exists d, fetchSensorData env = Normal d
    /\ (isSimulationMode env = true ->
        d = generateSimulatedSensorData env
        /\ isConnected d = true /\ lastUpdated d = clock env)
    /\ (isSimulationMode env = false ->
        PI_IP env = [] \/ failed env -> d = offline (clock env))
    /\ (isSimulationMode env = false ->
        PI_IP env <> [] ->
        forall response data,
          answer env = Normal response ->
          ok response = true ->
          json response = Normal data ->
          data <> JNull ->
          isConnected d = true /\ lastUpdated d = clock env
          /\ temperature d = typeof_number (prop data (lit "temperature"))
          /\ humidity d = typeof_number (prop data (lit "humidity"))
          /\ light d = typeof_number (prop data (lit "light"))
          /\ lastMotion d = typeof_number (prop data (lit "last_motion"))
          /\ tempAlert d = truthy (prop data (lit "temp_alert"))
          /\ lightIsDark d = truthy (prop data (lit "light_is_dark"))
          /\ motion d = truthy (prop data (lit "motion"))).
Proof.
  unfold fetchSensorData. destruct (isSimulationMode env).
  { eexists. split; [reflexivity|]. split; [|split; discriminate].
    intros _. unfold generateSimulatedSensorData.
    destruct (random env) as [[[[r1 r2] r3] r4] r5]. repeat split. }
  destruct (PI_IP env) as [|c ip] eqn:Hip.
  { eexists. split; [reflexivity|]. split; [discriminate|].
    split; [reflexivity|]. intros _ Hne. now elim Hne. }
  destruct (readSensors env) as [d|e] eqn:Hread; cbn [try_catch].
  - exists d. split; [reflexivity|]. split; [discriminate|]. split.
    + intros _ [Hno | Hfail]; [discriminate|].
      destruct (readSensors_failed env Hfail) as (e & He). congruence.
    + intros _ _ response data Hans Hok Hjson Hne.
      rewrite (readSensors_answered env response data Hans Hok Hjson Hne)
        in Hread.
      injection Hread as <-. repeat split.
  - eexists. split; [reflexivity|]. split; [discriminate|].
    split; [reflexivity|].
    intros _ _ response data Hans Hok Hjson Hne.
    rewrite (readSensors_answered env response data Hans Hok Hjson Hne)
      in Hread.
    discriminate.
Qed.

End SensorServiceSpec.

(* ===================================================================== *)
(** * Further properties of the speech-to-text hook                       *)
(* ===================================================================== *)

Module GroqSTTExtra.
Import JS GroqSTT GroqSTTSpec.

(** ** Starting *)

Lemma cleanupAudio_singleLoop (h : Hook) :
  singleLoop h ->
  exists h1, cleanupAudio h = Done h1
    /\ frames h1 = [] /\ animationFrameRef h1 = None
    /\ analyserRef h1 = None /\ sourceRef h1 = None
    /\ recorderIdle h1
    /\ isListening h1 = isListening h
    /\ liveStreams h1 = liveStreams h /\ nextStream h1 = nextStream h
    /\ nextFrame h1 = nextFrame h
    /\ isSpeechDetectedRef h1 = isSpeechDetectedRef h.
Proof.
  intros Hloop. unfold cleanupAudio.
  destruct (stopRecorderIfActive_done h) as (h0 & E & Hidle & Href & Hfr & Hflag).
  assert (Hkeep : isListening h0 = isListening h
                  /\ liveStreams h0 = liveStreams h
                  /\ nextStream h0 = nextStream h
                  /\ nextFrame h0 = nextFrame h).
  { revert E. unfold stopRecorderIfActive, MediaRecorder_stop.
    destruct (mediaRecorderRef h) as [[[] sid]|]; cbn; intros [= <-];
      repeat split. }
  destruct Hkeep as (Hl & Hs & Hn & Hf).
  rewrite E. cbn [andThen].
  assert (Hcancel : frames (cancelPendingFrame h0) = []).
  { unfold cancelPendingFrame. rewrite Href.
    destruct Hloop as [Hnone | (_ & id & Hone & Hid)].
    - destruct (animationFrameRef h); cbn; rewrite Hfr, Hnone; reflexivity.
    - rewrite Hid. cbn. rewrite Hfr, Hone. cbn.
      rewrite decide_False by (intros H; now apply H). reflexivity. }
  pose proof (cancelPendingFrame_None h0) as Hnone.
  pose proof (cancelPendingFrame_recorder h0) as Hrec.
  assert (Hsame : isListening (cancelPendingFrame h0) = isListening h
                  /\ liveStreams (cancelPendingFrame h0) = liveStreams h
                  /\ nextStream (cancelPendingFrame h0) = nextStream h
                  /\ nextFrame (cancelPendingFrame h0) = nextFrame h
                  /\ isSpeechDetectedRef (cancelPendingFrame h0)
                     = isSpeechDetectedRef h).
  { rewrite <- Hl, <- Hs, <- Hn, <- Hf, <- Hflag. unfold cancelPendingFrame.
    destruct (animationFrameRef h0); repeat split. }
  unfold recorderIdle in *. rewrite <- Hrec in Hidle.
  destruct Hsame as (H1 & H2 & H3 & H4 & H5).
  remember (cancelPendingFrame h0) as h2 eqn:Eh2. clear Eh2 Hrec.
  eexists. split; [reflexivity|].
  destruct (sourceRef h2) eqn:Hsrc, (analyserRef h2) eqn:Han,
    (audioContextRef h2) as [[]|] eqn:Hctx; cbn; rewrite ?Hsrc, ?Han, ?Hctx;
    cbn; rewrite ?Hsrc, ?Han, ?Hctx; cbn; repeat split; assumption.
Qed.

Lemma cancelPendingFrame_empty (h : Hook) :
  frames h = [] -> frames (cancelPendingFrame h) = [].
Proof.
  intros Hnone. unfold cancelPendingFrame.
  destruct (animationFrameRef h); cbn; rewrite Hnone; reflexivity.
Qed.

Lemma stopListening_empty (h : Hook) :
  frames h = [] -> frames (final (stopListening h)) = [].
Proof.
  intros Hnone. unfold stopListening.
  destruct (stopRecorderIfActive_done h) as (h0 & -> & _ & _ & Hfr & _).
  cbn [andThen final]. apply cancelPendingFrame_empty. now rewrite Hfr.
Qed.

(** The first, direct call of [checkVolume] always schedules a tick. *)
Lemma first_tick (v : VolumeSample) (h : Hook) (node : AudioNode) :
  analyserRef h = Some node ->
  isSpeechDetectedRef h = false ->
  frames h = [] ->
  exists h', checkVolume v h = Done h'
    /\ scheduled h'
    /\ isSpeechDetectedRef h' = above_threshold (dataArray v)
    /\ mediaRecorderRef h' = mediaRecorderRef h
    /\ isListening h' = isListening h
    /\ error h' = error h /\ transcript h' = transcript h
    /\ audioChunksRef h' = audioChunksRef h
    /\ liveStreams h' = liveStreams h
    /\ stopEvents h' = stopEvents h.
Proof.
  intros Han Hflag Hnone. unfold checkVolume. rewrite Han.
  destruct (above_threshold (dataArray v));
    cbn [isSpeechDetectedRef lastSpeechTimeRef set_lastSpeechTimeRef
         set_isSpeechDetectedRef].
  - rewrite Z.sub_diag. change (0 >? SILENCE_DURATION) with false.
    cbn iota. eexists. split; [reflexivity|]. unfold scheduled. cbn.
    rewrite Han, Hnone. repeat split; eauto; discriminate.
  - rewrite Hflag. eexists. split; [reflexivity|]. unfold scheduled. cbn.
    rewrite Han, Hnone, Hflag. repeat split; eauto; discriminate.
Qed.

Lemma cleanupAudio_stopEvents (h : Hook) (sid : positive) :
  mediaRecorderRef h = Some {| state := recording; stream := sid |} ->
  stopEvents (final (cleanupAudio h)) = stopEvents h ++ [sid].
Proof.
  intros Hrec. unfold cleanupAudio, stopRecorderIfActive. rewrite Hrec.
  cbn [state MediaRecorder_stop stream andThen].
  set (h0 := set_stopEvents _ _).
  assert (H0 : stopEvents (cancelPendingFrame h0) = stopEvents h ++ [sid])
    by (unfold cancelPendingFrame; destruct (animationFrameRef h0);
        reflexivity).
  remember (cancelPendingFrame h0) as h1 eqn:E. clear E.
  destruct (sourceRef h1) eqn:Hs, (analyserRef h1) eqn:Ha,
    (audioContextRef h1) as [[]|] eqn:Hc; cbn; rewrite ?Hs, ?Ha, ?Hc; cbn;
    rewrite ?Hs, ?Ha, ?Hc; cbn; exact H0.
Qed.

(** X1.  A refused microphone.  When [getUserMedia] rejects, the hook
    reports "Microphone access denied" and is not listening; the
    previous session has been torn down (no tick pending, analyser
    released, recorder inactive), no stream has been acquired, and the
    speech flag is left as it was. *)
Theorem start_denied (env : StartEnv) (e : exn) (h : Hook) :
  singleLoop h ->
  getUserMedia env = Throw e ->
  let h' := startListening env h in
  error h' = Some (lit "Microphone access denied")
  /\ isListening h' = false
  /\ transcript h' = []
  /\ frames h' = [] /\ animationFrameRef h' = None
  /\ analyserRef h' = None
  /\ recorderIdle h'
  /\ liveStreams h' = liveStreams h
  /\ isSpeechDetectedRef h' = isSpeechDetectedRef h.
Proof.
  intros Hloop Hmic. cbn zeta. unfold startListening, startListening_try.
  destruct (cleanupAudio_singleLoop h Hloop)
    as (h1 & -> & Hfr & Href & Han & _ & Hidle & _ & Hlive & _ & _ & Hflag).
  cbn [andThen]. rewrite Hmic. cbn.
  unfold recorderIdle in *. cbn. repeat split; assumption.
Qed.

Lemma cleanupAudio_keeps (h : Hook) :
  let h' := final (cleanupAudio h) in
  isListening h' = isListening h
  /\ isSpeechDetectedRef h' = isSpeechDetectedRef h
  /\ audioChunksRef h' = audioChunksRef h
  /\ liveStreams h' = liveStreams h
  /\ (forall sid,
        mediaRecorderRef h = Some {| state := recording; stream := sid |} ->
        stopEvents h' = stopEvents h ++ [sid]).
Proof.
  cbn zeta. pose proof (cleanupAudio_stopEvents h) as Hstop.
  revert Hstop. unfold cleanupAudio.
  destruct (stopRecorderIfActive_done h) as (h0 & E & _).
  assert (Hkeep : isListening h0 = isListening h
                  /\ isSpeechDetectedRef h0 = isSpeechDetectedRef h
                  /\ audioChunksRef h0 = audioChunksRef h
                  /\ liveStreams h0 = liveStreams h).
  { revert E. unfold stopRecorderIfActive, MediaRecorder_stop.
    destruct (mediaRecorderRef h) as [[[] sid]|]; cbn; intros [= <-];
      repeat split. }
  rewrite E. cbn [andThen].
  assert (Hsame : isListening (cancelPendingFrame h0) = isListening h
                  /\ isSpeechDetectedRef (cancelPendingFrame h0)
                     = isSpeechDetectedRef h
                  /\ audioChunksRef (cancelPendingFrame h0) = audioChunksRef h
                  /\ liveStreams (cancelPendingFrame h0) = liveStreams h).
  { destruct Hkeep as (<- & <- & <- & <-). unfold cancelPendingFrame.
    destruct (animationFrameRef h0); repeat split. }
  remember (cancelPendingFrame h0) as h2 eqn:Eh2. clear Eh2.
  destruct Hsame as (H1 & H2 & H3 & H4).
  destruct (sourceRef h2) eqn:Hsrc, (analyserRef h2) eqn:Han,
    (audioContextRef h2) as [[]|] eqn:Hctx; cbn; rewrite ?Hsrc, ?Han, ?Hctx;
    cbn; rewrite ?Hsrc, ?Han, ?Hctx; cbn; intros Hstop;
    (split; [exact H1|]); (split; [exact H2|]); (split; [exact H3|]);
    (split; [exact H4 | exact Hstop]).
Qed.

(** X2.  A start in its two parts.  The call itself, up to the request
    for the microphone, tears the running session down (no tick named
    by [animationFrameRef], analyser released, recorder inactive, the
    [stop] event of a recorder that was recording queued) and clears
    error and transcript; it leaves [isListening], the speech flag, the
    chunks and the live streams as they were.  When the browser then
    grants the microphone and both constructors succeed, the second
    part, on whatever state the hook is in by then, wires the analyser,
    starts a recorder on the fresh stream, sets [isListening], empties
    the chunks, sets the speech flag to whether the first reading was
    loud, and adds one tick to those pending; it leaves error and
    transcript as it finds them.  On a hook with no tick pending the
    loop is then scheduled; and a call during whose wait nothing
    happens is the one part followed by the other. *)
Theorem start_in_two_parts
    (env : StartEnv) (audioContext : AudioContextState) (h : Hook) :
  getUserMedia env = Normal tt ->
  newAudioContext env = Normal audioContext ->
  newMediaRecorder env = Normal tt ->
  let requested := startListening_request h in
  let h' := startListening_resume env h in
  (error requested = None /\ transcript requested = []
   /\ animationFrameRef requested = None /\ analyserRef requested = None
   /\ recorderIdle requested
   /\ isListening requested = isListening h
   /\ isSpeechDetectedRef requested = isSpeechDetectedRef h
   /\ audioChunksRef requested = audioChunksRef h
   /\ liveStreams requested = liveStreams h
   /\ (forall sid,
         mediaRecorderRef h = Some {| state := recording; stream := sid |} ->
         stopEvents requested = stopEvents h ++ [sid]))
  /\ (analyserRef h' = Some audioNode
      /\ frames h' = frames h ++ [nextFrame h]
      /\ animationFrameRef h' = Some (nextFrame h)
      /\ mediaRecorderRef h'
         = Some {| state := recording; stream := nextStream h |}
      /\ isListening h' = true
      /\ audioChunksRef h' = []
      /\ isSpeechDetectedRef h'
         = above_threshold (dataArray (firstSample env))
      /\ liveStreams h' = liveStreams h ++ [nextStream h]
      /\ stopEvents h' = stopEvents h
      /\ error h' = error h /\ transcript h' = transcript h)
  /\ (frames h = [] -> scheduled h')
  /\ startListening env h = startListening_resume env requested.
Proof.
  intros Hmic Hctx Hrec. cbn zeta.
  split; [|split; [|split; [|apply startListening_split]]].
  - destruct (cleanupAudio_keeps h) as (Hl & Hf & Hc & Hv & Hq).
    unfold startListening_request.
    destruct (cleanupAudio_done h) as (h1 & E & Hidle & Href & _ & Han & _).
    rewrite E in *. cbn [final] in *. unfold recorderIdle in *. cbn.
    auto 12.
  - destruct (resume_granted env audioContext h Hmic Hctx Hrec)
      as (Ha & Hfr & Href & _ & Hr & Hl & Hc & Hf & Hv & _ & Hq & Hs).
    destruct Hs as (_ & _ & He & Ht). auto 12.
  - intros Hnone.
    destruct (resume_granted env audioContext h Hmic Hctx Hrec)
      as (Ha & Hfr & Href & _).
    unfold scheduled. rewrite Ha, Hfr, Href, Hnone.
    split; [discriminate|]. eauto.
Qed.

(** X3.  A start that fails after the microphone was granted.  When the
    recorder cannot be constructed, the hook reports "Microphone access
    denied" and is not listening, yet the stream it was granted stays
    live and the audio graph stays wired: no recorder exists whose
    [stop] handler would release them. *)
Theorem start_unsupported
    (env : StartEnv) (audioContext : AudioContextState) (e : exn) (h : Hook) :
  singleLoop h ->
  getUserMedia env = Normal tt ->
  newAudioContext env = Normal audioContext ->
  newMediaRecorder env = Throw e ->
  let h' := startListening env h in
  error h' = Some (lit "Microphone access denied")
  /\ isListening h' = false
  /\ nextStream h ∈ liveStreams h'
  /\ recorderIdle h'
  /\ frames h' = []
  /\ analyserRef h' = Some audioNode
  /\ audioContextRef h' = Some audioContext.
Proof.
  intros Hloop Hmic Hctx Hrec. cbn zeta.
  unfold startListening, startListening_try.
  destruct (cleanupAudio_singleLoop h Hloop)
    as (h1 & -> & Hfr & Href & Han & _ & Hidle & _ & Hlive & Hnext & _ & _).
  cbn [andThen]. rewrite Hmic, Hctx, Hrec. cbn.
  unfold recorderIdle in *. cbn. rewrite Hnext.
  repeat split; try assumption.
  apply elem_of_app. right. now apply list_elem_of_singleton.
Qed.

(** ** One loop at most *)

Lemma step_singleLoop (ev : Event) (h : Hook) :
  singleLoop h -> singleLoop (step ev h).
Proof.
  intros Hloop. destruct ev as [env| | | |v|size|env]; cbn [step].
  - unfold startListening, startListening_try.
    destruct (cleanupAudio_singleLoop h Hloop)
      as (h1 & -> & Hfr & Href & Han & _ & Hidle & _).
    cbn [andThen].
    destruct (getUserMedia env); [|left; exact Hfr].
    destruct (newAudioContext env) as [ctx|]; [|left; exact Hfr].
    destruct (newMediaRecorder env); [|left; exact Hfr].
    set (h2 := set_isListening true _).
    destruct (first_tick (firstSample env) h2 audioNode)
      as (h' & -> & Hs & _); [reflexivity | reflexivity | exact Hfr |].
    right. exact Hs.
  - left. destruct Hloop as [Hnone | Hsched].
    + now apply stopListening_empty.
    + destruct (stopListening_scheduled h Hsched) as (h1 & -> & Hfr & _).
      exact Hfr.
  - exact Hloop.
  - left. destruct (cleanupAudio_singleLoop h Hloop) as (h1 & -> & Hfr & _).
    exact Hfr.
  - destruct Hloop as [Hnone | Hsched].
    + left. unfold animationFrame. now rewrite Hnone.
    + destruct Hsched as (Han & id & Hfr & Href).
      unfold animationFrame, checkVolume. rewrite Hfr.
      cbn [analyserRef set_frames].
      destruct (analyserRef h) as [node|] eqn:Ea; [|now elim Han].
      set (h0 := if above_threshold (dataArray v) then _ else _).
      assert (Hfr0 : frames h0 = [])
        by (subst h0; destruct (above_threshold _); reflexivity).
      assert (Han0 : analyserRef h0 = Some node)
        by (subst h0; destruct (above_threshold _); exact Ea).
      assert (Hcont : scheduled
                (final (let (id0, h1) := requestAnimationFrame h0 in
                        Done (set_animationFrameRef (Some id0) h1)))).
      { cbn. unfold scheduled. cbn. rewrite Han0, Hfr0.
        split; [discriminate|]. eauto. }
      destruct (isSpeechDetectedRef h0); [|right; exact Hcont].
      destruct (now v - lastSpeechTimeRef h0 >? SILENCE_DURATION);
        [|right; exact Hcont].
      left. now apply stopListening_empty.
  - unfold ondataavailable. destruct (size >? 0); exact Hloop.
  - unfold recorderStopped. destruct (stopEvents h) as [|sid queued];
      [exact Hloop|].
    assert (Hsame : forall k, frames (onstop env sid k) = frames k
                      /\ animationFrameRef (onstop env sid k)
                         = animationFrameRef k
                      /\ analyserRef (onstop env sid k) = analyserRef k).
    { intros k. unfold onstop. cbn.
      destruct (_ && _); [|repeat split].
      unfold processAudio. destruct (falsy_string _); [repeat split|].
      destruct (transcribe env) as [[c|]|]; repeat split. }
    destruct (Hsame (set_stopEvents queued h)) as (Hf & Hr & Ha).
    unfold singleLoop, scheduled in *. rewrite Hf, Hr, Ha. exact Hloop.
Qed.

Lemma request_idle (h : Hook) :
  singleLoop h -> frames (startListening_request h) = [].
Proof.
  intros Hloop. unfold startListening_request.
  destruct (cleanupAudio_singleLoop h Hloop) as (h1 & -> & Hfr & _).
  exact Hfr.
Qed.

Lemma resume_singleLoop (env : StartEnv) (h : Hook) :
  frames h = [] -> singleLoop (startListening_resume env h).
Proof.
  intros Hnone. unfold startListening_resume, startListening_answer.
  destruct (getUserMedia env); [|left; exact Hnone].
  destruct (newAudioContext env) as [ctx|]; [|left; exact Hnone].
  destruct (newMediaRecorder env); [|left; exact Hnone].
  set (h2 := set_isListening true _).
  destruct (first_tick (firstSample env) h2 audioNode)
    as (h' & -> & Hs & _); [reflexivity | reflexivity | exact Hnone |].
  right. exact Hs.
Qed.

(** While a call waits for the microphone no tick is pending, and
    nothing but the answer brings one. *)
Lemma step_idle (ev : Event) (h : Hook) :
  within_session ev = true -> frames h = [] -> frames (step ev h) = [].
Proof.
  intros Hev Hnone.
  assert (Hloop : singleLoop (step ev h))
    by (apply step_singleLoop; left; exact Hnone).
  destruct ev as [env| | | |v|size|env]; cbn [step] in *.
  - discriminate.
  - now apply stopListening_empty.
  - exact Hnone.
  - destruct (cleanupAudio_singleLoop h) as (h1 & -> & Hfr & _);
      [left; exact Hnone | exact Hfr].
  - unfold animationFrame. now rewrite Hnone.
  - unfold ondataavailable. destruct (size >? 0); exact Hnone.
  - unfold recorderStopped. destruct (stopEvents h) as [|sid queued];
      [exact Hnone|].
    unfold onstop. cbn. destruct (_ && _); [|exact Hnone].
    unfold processAudio. destruct (falsy_string _); [exact Hnone|].
    destruct (transcribe env) as [[c|]|]; exact Hnone.
Qed.

Lemma play_singleLoop (ms : list Moment) :
  forall (waiting : bool) (h : Hook),
    serial waiting ms = true ->
    (if waiting then frames h = [] else singleLoop h) ->
    singleLoop (play ms h).
Proof.
  induction ms as [|m ms IH]; intros waiting h Hserial Hinv.
  - destruct waiting; [left|]; exact Hinv.
  - change (play (m :: ms) h) with (play ms (moment m h)).
    destruct m as [|env|ev]; cbn [serial moment] in *.
    + apply andb_true_iff in Hserial as [Hw Hserial].
      destruct waiting; [discriminate|].
      apply (IH true); [exact Hserial|]. now apply request_idle.
    + apply andb_true_iff in Hserial as [Hw Hserial].
      destruct waiting; [|discriminate].
      apply (IH false); [exact Hserial|]. now apply resume_singleLoop.
    + destruct waiting.
      * assert (Hev : within_session ev = true /\ serial true ms = true).
        { destruct ev; cbn in *; try discriminate; auto. }
        destruct Hev as [Hev Hserial'].
        apply (IH true); [exact Hserial'|]. now apply step_idle.
      * assert (Hserial' : serial false ms = true).
        { destruct ev; cbn in *; auto. }
        apply (IH false); [exact Hserial'|]. now apply step_singleLoop.
Qed.

(** X4.  One loop, unless starts overlap.  As long as [startListening]
    is not called while an earlier call still waits for the microphone,
    the hook never has two ticks of the VAD loop pending, whatever the
    caller and the browser do, in whatever order, also during the wait:
    either no animation frame is pending, or exactly one is, the one
    [animationFrameRef] names, with the analyser wired. *)
Theorem one_loop_unless_starts_overlap (ms : list Moment) :
  serial false ms = true ->
  singleLoop (play ms initial).
Proof.
  intros Hserial. apply (play_singleLoop ms false); [exact Hserial|].
  left. reflexivity.
Qed.

(** ** Uploading *)

Lemma processAudio_keeps (env : UploadEnv) (clip : Z) (h : Hook) :
  liveStreams (processAudio env clip h) = liveStreams h
  /\ isListening (processAudio env clip h) = isListening h
  /\ audioChunksRef (processAudio env clip h) = audioChunksRef h.
Proof.
  unfold processAudio. destruct (falsy_string _); [repeat split|].
  destruct (transcribe env) as [[c|]|]; repeat split.
Qed.

(** X5.  No key, no upload.  When a recorder stops with speech
    detected and more than 1000 bytes recorded, but neither a Groq nor
    a Gemini key is set, the clip is handed to [processAudio] and goes
    no further: the error is "Missing API Key", nothing is sent, and
    the transcript is left alone. *)
Theorem stop_without_key (env : UploadEnv) (sid : positive) (h : Hook) :
  isSpeechDetectedRef h = true ->
  1000 < Blob_size (audioChunksRef h) ->
  falsy_string
    (or_string (VITE_GROQ_API_KEY env) (VITE_GEMINI_API_KEY env)) = true ->
  let h' := onstop env sid h in
  error h' = Some (lit "Missing API Key")
  /\ submitted h' = submitted h ++ [Blob_size (audioChunksRef h)]
  /\ uploads h' = uploads h
  /\ transcript h' = transcript h.
Proof.
  intros Hflag Hsize Hkey. cbn zeta. unfold onstop. cbn. rewrite Hflag.
  assert (Hgt : (Blob_size (audioChunksRef h) >? 1000) = true)
    by (apply Z.gtb_gt; lia).
  rewrite Hgt. cbn [andb].
  unfold processAudio. rewrite Hkey. repeat split.
Qed.

Lemma transcribe_failed (env : UploadEnv) :
  uploadFailed env -> exists e, transcribe env = Throw e.
Proof.
  unfold uploadFailed, transcribe.
  destruct (upload env) as [response|e]; [|intros _; now exists e].
  cbn [bind]. intros [Hok | Hbody].
  - rewrite Hok. cbn [negb]. eauto.
  - destruct (ok response); cbn [negb]; [|eauto].
    destruct (json response) as [data|e]; [|now exists e].
    cbn [bind]. destruct Hbody as [-> | Htext]; [now exists TypeError|].
    destruct data as [| | | | |props]; cbn [get prop bind undefined] in *;
      try discriminate.
    destruct (lookup_prop (lit "text") props) as [[| | |t| |]|];
      cbn [truthy] in *; try rewrite Htext; try discriminate; try tauto;
      now exists TypeError.
Qed.

(** X6.  A failed upload.  With a key configured, when the request is
    rejected, the status is not 2xx, the body is not JSON or is [null],
    or its [text] is a truthy value that is not a string, [processAudio]
    sets the error "Transcription failed" and leaves the transcript as
    it was; the clip was sent once. *)
Theorem processAudio_failure (env : UploadEnv) (clip : Z) (h : Hook) :
  falsy_string
    (or_string (VITE_GROQ_API_KEY env) (VITE_GEMINI_API_KEY env)) = false ->
  uploadFailed env ->
  let h' := processAudio env clip h in
  error h' = Some (lit "Transcription failed")
  /\ transcript h' = transcript h
  /\ uploads h' = uploads h ++ [clip].
Proof.
  intros Hkey Hfail. cbn zeta. unfold processAudio. rewrite Hkey.
  destruct (transcribe_failed env Hfail) as (e & ->). repeat split.
Qed.

(** X7.  Nothing recognised.  A 2xx answer whose body has no [text], or
    a falsy one (empty string, [null], [false], zero), changes neither
    the transcript nor the error. *)
Theorem processAudio_no_text
    (env : UploadEnv) (clip : Z) (h : Hook) (response : Response)
    (data : JSON) :
  falsy_string
    (or_string (VITE_GROQ_API_KEY env) (VITE_GEMINI_API_KEY env)) = false ->
  upload env = Normal response ->
  ok response = true ->
  json response = Normal data ->
  data <> JNull ->
  truthy (prop data (lit "text")) = false ->
  let h' := processAudio env clip h in
  error h' = error h
  /\ transcript h' = transcript h
  /\ uploads h' = uploads h ++ [clip].
Proof.
  intros Hkey Hup Hok Hjson Hne Htext. cbn zeta.
  unfold processAudio, transcribe. rewrite Hkey, Hup. cbn [bind].
  rewrite Hok. cbn [negb]. rewrite Hjson. cbn [bind].
  assert (Hget : get (Some data) (lit "text")
                 = Normal (prop data (lit "text")))
    by (destruct data; try reflexivity; now elim Hne).
  rewrite Hget. cbn [bind]. rewrite Htext. repeat split.
Qed.

(** ** The recorder's handlers *)

(** X8.  The microphone is released on every stop.  Whether the clip is
    uploaded or dropped, and whatever the upload does, after [onstop]
    the recorder's stream is no longer live, the other streams are as
    they were, and the hook is not listening. *)
Theorem onstop_releases_microphone
    (env : UploadEnv) (sid : positive) (h : Hook) :
  let h' := onstop env sid h in
  (sid ∉ liveStreams h')
  /\ (forall other, other <> sid ->
        other ∈ liveStreams h' <-> other ∈ liveStreams h)
  /\ isListening h' = false.
Proof.
  cbn zeta.
  assert (Hlive : liveStreams (onstop env sid h)
                  = filter (fun s => s <> sid) (liveStreams h)
                  /\ isListening (onstop env sid h) = false).
  { unfold onstop. cbn.
    destruct (_ && _); [|split; reflexivity].
    destruct (processAudio_keeps env (Blob_size (audioChunksRef h))
                (set_isListening false (stopTracks sid h))) as (-> & -> & _).
    split; reflexivity. }
  destruct Hlive as [-> ->]. split; [|split; [|reflexivity]].
  - rewrite list_elem_of_filter. intros [Hne _]. now apply Hne.
  - intros other Hne. rewrite list_elem_of_filter. tauto.
Qed.

Lemma Blob_size_app (chunks : list Z) (size : Z) :
  Blob_size (chunks ++ [size]) = Blob_size chunks + size.
Proof.
  unfold Blob_size. induction chunks as [|c chunks IH]; cbn; [lia|].
  rewrite IH. lia.
Qed.

(** X9.  The size of the clip.  A run of [dataavailable] events adds to
    the clip exactly the chunks of positive size, in order; the size of
    the clip grows by their total, and empty chunks leave no trace. *)
Theorem clip_size_accumulates (sizes : list Z) (h : Hook) :
  let h' := run (map DataAvailable sizes) h in
  audioChunksRef h' = audioChunksRef h ++ filter (fun size => 0 < size) sizes
  /\ Blob_size (audioChunksRef h')
     = Blob_size (audioChunksRef h) + recorded sizes
  /\ isSpeechDetectedRef h' = isSpeechDetectedRef h.
Proof.
  cbn zeta. revert h. induction sizes as [|size sizes IH]; intros h.
  - cbn. rewrite app_nil_r. repeat split. lia.
  - change (run (map DataAvailable (size :: sizes)) h)
      with (run (map DataAvailable sizes) (ondataavailable size h)).
    destruct (IH (ondataavailable size h)) as (Hc & Hb & Hf).
    rewrite Hb, Hc, Hf. clear Hb Hc Hf IH.
    unfold ondataavailable. cbn [recorded foldr]. fold (recorded sizes).
    rewrite filter_cons.
    destruct (size >? 0) eqn:Hpos.
    + apply Z.gtb_gt in Hpos. rewrite decide_True by lia.
      cbn [audioChunksRef set_audioChunksRef isSpeechDetectedRef].
      rewrite Blob_size_app, <- app_assoc. repeat split. lia.
    + rewrite Z.gtb_ltb, Z.ltb_ge in Hpos. rewrite decide_False by lia.
      repeat split.
Qed.

(** ** Concrete runs *)

Lemma hearing_scheduled : scheduled hearing.
Proof.
  vm_compute. split; [discriminate|]. exists 1%positive. split; reflexivity.
Qed.

Lemma start_denied_witness :
  let h' := startListening (denied (reading 0 0)) listening in
  error h' = Some (lit "Microphone access denied")
  /\ isListening h' = false
  /\ transcript h' = []
  /\ frames h' = [] /\ animationFrameRef h' = None
  /\ analyserRef h' = None
  /\ recorderIdle h'
  /\ liveStreams h' = liveStreams listening
  /\ isSpeechDetectedRef h' = isSpeechDetectedRef listening.
Proof.
  apply (start_denied (denied (reading 0 0)) (Error (lit "NotAllowedError"))
           listening).
  - right. exact listening_scheduled.
  - reflexivity.
Defined.

Lemma start_in_two_parts_witness :
  let env := granted (reading 80 7000) in
  let requested := startListening_request hearing in
  let h' := startListening_resume env hearing in
  (error requested = None /\ transcript requested = []
   /\ animationFrameRef requested = None /\ analyserRef requested = None
   /\ recorderIdle requested
   /\ isListening requested = isListening hearing
   /\ isSpeechDetectedRef requested = isSpeechDetectedRef hearing
   /\ audioChunksRef requested = audioChunksRef hearing
   /\ liveStreams requested = liveStreams hearing
   /\ (forall sid,
         mediaRecorderRef hearing
         = Some {| state := recording; stream := sid |} ->
         stopEvents requested = stopEvents hearing ++ [sid]))
  /\ (analyserRef h' = Some audioNode
      /\ frames h' = frames hearing ++ [nextFrame hearing]
      /\ animationFrameRef h' = Some (nextFrame hearing)
      /\ mediaRecorderRef h'
         = Some {| state := recording; stream := nextStream hearing |}
      /\ isListening h' = true
      /\ audioChunksRef h' = []
      /\ isSpeechDetectedRef h'
         = above_threshold (dataArray (firstSample env))
      /\ liveStreams h' = liveStreams hearing ++ [nextStream hearing]
      /\ stopEvents h' = stopEvents hearing
      /\ error h' = error hearing /\ transcript h' = transcript hearing)
  /\ (frames hearing = [] -> scheduled h')
  /\ startListening env hearing = startListening_resume env requested.
Proof.
  apply (start_in_two_parts (granted (reading 80 7000)) running hearing).
  - reflexivity.
  - reflexivity.
  - reflexivity.
Defined.

Lemma one_loop_unless_starts_overlap_witness :
  singleLoop
    (play [StartRequested;
           StartAnswered (granted (reading 0 0));
           Happens (AnimationFrame (reading 80 16));
           StartRequested;
           Happens (DataAvailable 5000);
           Happens (RecorderStopped (answering greetingBody));
           Happens (AnimationFrame (reading 0 33));
           StartAnswered (granted (reading 0 40));
           Happens (AnimationFrame (reading 0 56));
           Happens StopListening;
           Happens (StartListening (granted (reading 0 90)))] initial).
Proof.
  apply (one_loop_unless_starts_overlap
           [StartRequested;
            StartAnswered (granted (reading 0 0));
            Happens (AnimationFrame (reading 80 16));
            StartRequested;
            Happens (DataAvailable 5000);
            Happens (RecorderStopped (answering greetingBody));
            Happens (AnimationFrame (reading 0 33));
            StartAnswered (granted (reading 0 40));
            Happens (AnimationFrame (reading 0 56));
            Happens StopListening;
            Happens (StartListening (granted (reading 0 90)))]).
  reflexivity.
Defined.

(** Two starts that overlap: both calls are made before either is
    answered.  Each answer adds a tick, so two are pending; a stop
    cancels the one [animationFrameRef] names and stops the second
    recorder only, so the loop goes on and the first stream stays
    live. *)
Example overlapping_starts_leave_two_loops :
  let h := play [StartRequested; StartRequested;
                 StartAnswered (granted (reading 0 0));
                 StartAnswered (granted (reading 0 5))] initial in
  let stopped := play [Happens StopListening;
                       Happens (RecorderStopped (answering greetingBody))]
                   h in
  frames h = [1%positive; 2%positive]
  /\ animationFrameRef h = Some 2%positive
  /\ frames stopped = [1%positive]
  /\ analyserRef stopped = Some audioNode
  /\ liveStreams stopped = [1%positive]
  /\ stopEvents stopped = []
  /\ frames (play [Happens (AnimationFrame (reading 0 20))] stopped)
     = [3%positive].
Proof. vm_compute. repeat split. Qed.

Lemma start_unsupported_witness :
  let h' := startListening (unsupported (reading 0 0)) initial in
  error h' = Some (lit "Microphone access denied")
  /\ isListening h' = false
  /\ nextStream initial ∈ liveStreams h'
  /\ recorderIdle h'
  /\ frames h' = []
  /\ analyserRef h' = Some audioNode
  /\ audioContextRef h' = Some running.
Proof.
  apply (start_unsupported (unsupported (reading 0 0)) running
           (Error (lit "NotSupportedError")) initial).
  - left. reflexivity.
  - reflexivity.
  - reflexivity.
  - reflexivity.
Defined.

Lemma stop_without_key_witness :
  let h' := onstop keyless 1%positive recordedSpeech in
  error h' = Some (lit "Missing API Key")
  /\ submitted h'
     = submitted recordedSpeech ++ [Blob_size (audioChunksRef recordedSpeech)]
  /\ uploads h' = uploads recordedSpeech
  /\ transcript h' = transcript recordedSpeech.
Proof.
  apply (stop_without_key keyless 1%positive recordedSpeech).
  - vm_compute. reflexivity.
  - vm_compute. reflexivity.
  - reflexivity.
Defined.

Lemma processAudio_failure_witness :
  let h' := processAudio (refusing 500) 5000 hearing in
  error h' = Some (lit "Transcription failed")
  /\ transcript h' = transcript hearing
  /\ uploads h' = uploads hearing ++ [5000].
Proof.
  apply (processAudio_failure (refusing 500) 5000 hearing).
  - reflexivity.
  - left. reflexivity.
Defined.

Lemma processAudio_no_text_witness :
  let h' := processAudio (answering silentBody) 5000 hearing in
  error h' = error hearing
  /\ transcript h' = transcript hearing
  /\ uploads h' = uploads hearing ++ [5000].
Proof.
  apply (processAudio_no_text (answering silentBody) 5000 hearing
           {| status := 200; text := Throw TypeError;
              json := Normal silentBody |} silentBody).
  - reflexivity.
  - reflexivity.
  - reflexivity.
  - reflexivity.
  - discriminate.
  - reflexivity.
Defined.

End GroqSTTExtra.

(* ===================================================================== *)
(** * Further properties of the chat service                              *)
(* ===================================================================== *)

Module GroqServiceExtra.
Import JS GroqService GroqServiceSpec.

(** ** Failed calls *)

(** X10.  Every failed call is retracted.  Whatever makes the request
    fail (a rejected fetch, an error status, a body that is not JSON or
    has no [choices]), the error reaches the caller as it was thrown and
    the user message is taken back: the history is the one the call
    found, seeded with the system prompt if it was empty. *)
Theorem failed_send_is_retracted
    (API_KEY userMessage : jsstring) (answer : fetch_result) (e : exn)
    (s : Service) :
  API_KEY <> [] ->
  requestReply answer = Throw e ->
  let out := sendMessageToGemini API_KEY userMessage answer s in
  out.1 = Throw e
  /\ conversationHistory out.2 = seed (conversationHistory s).
Proof.
  intros Hkey Hfail. cbn zeta. unfold sendMessageToGemini.
  destruct API_KEY as [|k key]; [now elim Hkey|]. rewrite Hfail.
  cbn [fst snd]. unfold pop, post.
  cbn [conversationHistory requests set_history].
  rewrite enqueue_history, removelast_last. repeat split.
Qed.

(** X11.  The error of an HTTP failure.  An answer outside the 2xx
    range whose body can be read is reported as a [GeminiApiError]
    carrying the status; it is marked retryable exactly when the status
    is 429. *)
Theorem http_error_carries_status
    (API_KEY userMessage err : jsstring) (response : Response) (s : Service) :
  API_KEY <> [] ->
  ok response = false ->
  text response = Normal err ->
  exists message retryable,
    (sendMessageToGemini API_KEY userMessage (Normal response) s).1
    = Throw (GeminiApiError message (Some (status response)) retryable)
    /\ (retryable = true <-> status response = 429).
Proof.
  intros Hkey Hok Htext. unfold sendMessageToGemini.
  destruct API_KEY as [|k key]; [now elim Hkey|].
  unfold requestReply. cbn [bind]. rewrite Hok, Htext. cbn [negb bind].
  destruct (status response =? 429) eqn:Hcode.
  - apply Z.eqb_eq in Hcode. rewrite Hcode. cbn [fst].
    eexists _, true. split; [reflexivity|]. tauto.
  - apply Z.eqb_neq in Hcode. cbn [fst].
    eexists _, false. split; [reflexivity|]. split; [discriminate|].
    intros H. now elim Hcode.
Qed.

(** ** Replies *)

(** X12.  What a call returns.  A call returns exactly when the
    request is answered with a 2xx status and a JSON body on which
    [choices[0]?.message?.content] can be read; the reply is then that
    content when it is truthy and the apology of line 77 otherwise, so
    that a reply is never empty. *)
Theorem reply_is_content_or_apology (answer : fetch_result) (reply : JSON) :
  (requestReply answer = Normal reply
   <-> exists response data content,
         answer = Normal response /\ ok response = true
         /\ json response = Normal data
         /\ firstChoiceContent data = Normal content
         /\ ((truthy content = true /\ content = Some reply)
             \/ (truthy content = false
                 /\ reply = JString fallback_reply)))
  /\ (requestReply answer = Normal reply -> truthy (Some reply) = true).
Proof.
  assert (Hiff : requestReply answer = Normal reply
     <-> exists response data content,
         answer = Normal response /\ ok response = true
         /\ json response = Normal data
         /\ firstChoiceContent data = Normal content
         /\ ((truthy content = true /\ content = Some reply)
             \/ (truthy content = false
                 /\ reply = JString fallback_reply))).
  { unfold requestReply. split.
    - destruct answer as [response|e]; [|discriminate].
      cbn [bind]. destruct (ok response) eqn:Hok; cbn [negb].
      2:{ destruct (text response); cbn [bind]; [|discriminate].
          destruct (status response =? 429); discriminate. }
      destruct (json response) as [data|] eqn:Hjson; cbn [bind];
        [|discriminate].
      intros Hreply. exists response, data.
      unfold firstChoiceContent.
      destruct (get (Some data) (lit "choices")) as [choices|]; cbn [bind] in *;
        [|discriminate].
      destruct (get0 choices) as [choice|]; cbn [bind] in *; [|discriminate].
      destruct (get_opt choice (lit "message")) as [message|];
        cbn [bind] in *; [|discriminate].
      destruct (get_opt message (lit "content")) as [content|];
        cbn [bind] in *; [|discriminate].
      exists content. split; [reflexivity|]. split; [exact Hok|].
      split; [exact Hjson|]. split; [reflexivity|].
      destruct content as [c|].
      + destruct (truthy (Some c)) eqn:Hc; injection Hreply as <-;
          [left | right]; split; reflexivity.
      + injection Hreply as <-. right. split; reflexivity.
    - intros (response & data & content & -> & Hok & Hjson & Hc & Hcase).
      cbn [bind]. rewrite Hok, Hjson. cbn [negb bind].
      unfold firstChoiceContent in Hc.
      destruct (get (Some data) (lit "choices")) as [choices|]; cbn [bind] in *;
        [|discriminate].
      destruct (get0 choices) as [choice|]; cbn [bind] in *; [|discriminate].
      destruct (get_opt choice (lit "message")) as [message|];
        cbn [bind] in *; [|discriminate].
      rewrite Hc. cbn [bind].
      destruct Hcase as [[Ht ->] | [Ht ->]].
      + now rewrite Ht.
      + destruct content as [c|]; [now rewrite Ht | reflexivity]. }
  split; [exact Hiff|]. intros Hreply. apply Hiff in Hreply.
  destruct Hreply as (_ & _ & content & _ & _ & _ & _ & [[Ht ->] | [_ ->]]);
    [exact Ht | reflexivity].
Qed.

(** X16.  The exchange just made ends the history.  After a call that
    returns, the history ends with the user message followed by the
    reply that was returned, whether or not older entries were
    trimmed. *)
Theorem reply_is_recorded
    (API_KEY userMessage : jsstring) (answer : fetch_result) (reply : JSON)
    (s : Service) :
  API_KEY <> [] ->
  requestReply answer = Normal reply ->
  let out := sendMessageToGemini API_KEY userMessage answer s in
  out.1 = Normal reply
  /\ exists older,
       conversationHistory out.2
       = older ++ [userEntry userMessage; assistantEntry reply].
Proof.
  intros Hkey Hreply. cbn zeta. unfold sendMessageToGemini.
  destruct API_KEY as [|k key]; [now elim Hkey|]. rewrite Hreply.
  cbn [fst snd]. split; [reflexivity|]. unfold push, post.
  cbn [conversationHistory requests set_history].
  rewrite enqueue_history, <- app_assoc. cbn [app].
  fold (assistantEntry reply).
  set (h := seed (conversationHistory s)).
  unfold trimHistory.
  destruct (7 <? length (h ++ _))%nat eqn:Hlong; [|now exists h].
  apply Nat.ltb_lt in Hlong. rewrite length_app in *. cbn [length] in *.
  destruct h as [|first rest] eqn:Eh; [cbn in Hlong; lia|].
  cbn [app]. exists (first :: drop (length (first :: rest) + 2 - 6) (first :: rest)).
  cbn [app]. f_equal. rewrite <- drop_app_le by (cbn [length]; lia).
  reflexivity.
Qed.

(** ** The history over any sequence of calls *)

Section Sequences.

Variable API_KEY : jsstring.
Variable JSON_parse : jsstring -> completion JSON.
Variable ToString : JSON -> jsstring.

Local Abbreviation call := (call API_KEY JSON_parse ToString).
Local Abbreviation calls := (calls API_KEY JSON_parse ToString).

Lemma seed_length (h : list ChatMessage) :
  (length h <= 7 -> length (seed h) <= 7)%nat.
Proof. destruct h; cbn; lia. Qed.

Lemma extension_seeded (h : list ChatMessage) (m : jsstring) (reply : JSON) :
  seeded h -> seeded (seed h ++ [userEntry m; assistantEntry reply]).
Proof.
  intros Hseed. apply seed_seeded in Hseed.
  destruct (seed h) as [|first rest] eqn:E.
  - destruct h; discriminate.
  - destruct Hseed as [-> Hrest]. split; [reflexivity|].
    apply Forall_app. split; [exact Hrest|]. repeat constructor; discriminate.
Qed.

(** What a call does to the history, outcome by outcome. *)
Lemma call_history (c : Call) (s : Service) :
  let h := conversationHistory s in
  let h' := conversationHistory (call c s) in
  h' = h \/ h' = [] \/ h' = seed h
  \/ (exists m reply,
        h' = trimHistory (seed h ++ [userEntry m; assistantEntry reply]))
  \/ (streams c = true
      /\ exists m reply, h' = seed h ++ [userEntry m; assistantEntry reply]).
Proof.
  cbn zeta. destruct c as [m answer|m answer|]; cbn [GroqService.call].
  - unfold sendMessageToGemini. destruct API_KEY; [now left|].
    destruct (requestReply answer) as [reply|e]; cbn [snd];
      unfold pop, push, post;
      cbn [conversationHistory requests set_history];
      rewrite enqueue_history.
    + right. right. right. left. exists m, reply.
      now rewrite <- app_assoc.
    + right. right. left. apply removelast_last.
  - unfold streamMessageToGemini. destruct API_KEY; [now left|].
    assert (Hpop : conversationHistory (pop (post (enqueue m s)))
                   = seed (conversationHistory s)).
    { unfold pop, post. cbn [conversationHistory requests set_history].
      rewrite enqueue_history. apply removelast_last. }
    destruct answer as [response|e]; [|right; right; left; exact Hpop].
    destruct (stream_ok response); cbn [negb];
      [|right; right; left; exact Hpop].
    destruct (body response) as [reader|];
      [|right; right; left; exact Hpop].
    destruct (ending reader); [|right; right; left; exact Hpop].
    right. right. right. right. split; [reflexivity|].
    eexists m, _. cbn [snd]. unfold push, post.
    cbn [conversationHistory requests set_history].
    rewrite enqueue_history, <- app_assoc. reflexivity.
  - right. left. reflexivity.
Qed.

Lemma call_seeded (c : Call) (s : Service) :
  seeded (conversationHistory s) -> seeded (conversationHistory (call c s)).
Proof.
  intros Hseed.
  destruct (call_history c s)
    as [-> | [-> | [-> | [(m & reply & ->) | (_ & m & reply & ->)]]]].
  - exact Hseed.
  - exact I.
  - now apply seed_seeded.
  - apply trimHistory_seeded. now apply extension_seeded.
  - now apply extension_seeded.
Qed.

Lemma sendMessageToGemini_split
    (userMessage : jsstring) (answer : fetch_result) (s : Service) :
  API_KEY <> [] ->
  sendMessageToGemini API_KEY userMessage answer s
  = sendMessage_settle answer (sendMessage_begin userMessage s).
Proof.
  intros Hkey. unfold sendMessageToGemini, sendMessage_settle,
    sendMessage_begin.
  destruct API_KEY; [now elim Hkey | reflexivity].
Qed.

Lemma streamMessageToGemini_split
    (userMessage : jsstring) (answer : completion StreamResponse)
    (s : Service) :
  API_KEY <> [] ->
  streamMessageToGemini API_KEY JSON_parse ToString userMessage answer s
  = streamMessage_settle JSON_parse ToString answer
      (sendMessage_begin userMessage s).
Proof.
  intros Hkey. unfold streamMessageToGemini, streamMessage_settle,
    sendMessage_begin.
  destruct API_KEY; [now elim Hkey | reflexivity].
Qed.

(** X13.  The history starts with the system prompt, as long as calls
    do not overlap.  After any sequence of calls made one after the
    other, each settled before the next is made, streamed or not,
    answered or failed, with resets in between, the history is empty or
    begins with the system prompt, and no later entry has the system
    role.  Calls that overlap can break this: when [resetConversation]
    is called while a request waits for its answer, the reply of
    [sendMessageToGemini], or the text of a stream read to its end, is
    pushed onto the emptied history and stands there alone, without
    system prompt or question. *)
Theorem history_stays_seeded (cs : list Call) :
  let s := calls cs loaded in
  seeded (conversationHistory s)
  /\ (forall (userMessage : jsstring) (answer : fetch_result)
             (reply : JSON),
        requestReply answer = Normal reply ->
        let waiting := sendMessage_begin userMessage s in
        let out := sendMessage_settle answer (resetConversation waiting) in
        conversationHistory out.2 = [assistantEntry reply]
        /\ ~ seeded (conversationHistory out.2))
  /\ (forall (userMessage : jsstring) (response : StreamResponse)
             (reader : Reader),
        stream_ok response = true -> body response = Some reader ->
        ending reader = Normal tt ->
        let waiting := sendMessage_begin userMessage s in
        let out := streamMessage_settle JSON_parse ToString (Normal response)
                     (resetConversation waiting) in
        conversationHistory out.2
        = [assistantEntry
             (JString (fullResponse (readAll JSON_parse ToString reader)))]
        /\ ~ seeded (conversationHistory out.2)).
Proof.
  cbn zeta. split; [|split].
  - assert (H : forall s, seeded (conversationHistory s) ->
                          seeded (conversationHistory (calls cs s))).
    { induction cs as [|c cs IH]; intros s Hseed; [exact Hseed|].
      cbn. apply IH. now apply call_seeded. }
    apply H. exact I.
  - intros userMessage answer reply Hreply.
    unfold sendMessage_settle. rewrite Hreply. cbn.
    split; [reflexivity|]. intros [Hfirst _]. discriminate.
  - intros userMessage response reader Hok Hbody Hend.
    unfold streamMessage_settle. rewrite Hok, Hbody, Hend. cbn.
    split; [reflexivity|]. intros [Hfirst _]. discriminate.
Qed.

(** X14.  Seven entries at most, without streaming.  As long as no call
    is streamed, the history never holds more than seven entries,
    however many calls are made and however they end. *)
Theorem history_stays_bounded (cs : list Call) :
  Forall (fun c => streams c = false) cs ->
  (length (conversationHistory (calls cs loaded)) <= 7)%nat.
Proof.
  intros Hcs.
  assert (H : forall s, (length (conversationHistory s) <= 7)%nat ->
                (length (conversationHistory (calls cs s)) <= 7)%nat).
  { induction Hcs as [|c cs Hc _ IH]; intros s Hlen; [exact Hlen|].
    cbn. apply IH.
    destruct (call_history c s)
      as [-> | [-> | [-> | [(m & reply & ->) | (Hs & _)]]]].
    - exact Hlen.
    - cbn. lia.
    - now apply seed_length.
    - apply trimHistory_length.
    - congruence. }
  apply H. cbn. lia.
Qed.

(** X15.  One request per call.  With a key configured, a call that asks
    a question sends exactly one request, whatever the answer: it
    carries the history as the call found it, seeded with the system
    prompt if it was empty, followed by the user message.  A reset
    sends nothing. *)
Theorem one_request_per_call (c : Call) (s : Service) :
  API_KEY <> [] ->
  requests (call c s)
  = match question c with
    | Some m =>
        requests s ++ [seed (conversationHistory s) ++ [userEntry m]]
    | None => requests s
    end.
Proof.
  intros Hkey. destruct c as [m answer|m answer|]; cbn [GroqService.call question].
  - unfold sendMessageToGemini. destruct API_KEY; [now elim Hkey|].
    destruct (requestReply answer); cbn [snd]; unfold pop, push, post;
      cbn [conversationHistory requests set_history];
      now rewrite enqueue_history, enqueue_requests.
  - unfold streamMessageToGemini. destruct API_KEY; [now elim Hkey|].
    assert (Hreq : forall k, requests (pop (post k))
                     = requests k ++ [conversationHistory k])
      by reflexivity.
    assert (Hpush : forall k m', requests (push m' (post k))
                     = requests k ++ [conversationHistory k])
      by reflexivity.
    destruct answer as [response|e]; cbn [snd];
      [|now rewrite Hreq, enqueue_history, enqueue_requests].
    destruct (stream_ok response); cbn [negb snd];
      [|now rewrite Hreq, enqueue_history, enqueue_requests].
    destruct (body response) as [reader|]; cbn [snd];
      [|now rewrite Hreq, enqueue_history, enqueue_requests].
    destruct (ending reader); cbn [snd];
      [now rewrite Hpush, enqueue_history, enqueue_requests
      |now rewrite Hreq, enqueue_history, enqueue_requests].
  - reflexivity.
Qed.

End Sequences.

(** ** Streams *)

(** X17.  A refused stream.  An answer outside the 2xx range makes the
    generator throw, before it yields anything, a [GeminiApiError]
    without status code and not marked retryable (a rate limit
    included), and the user message is taken back. *)
Theorem refused_stream_is_untyped
    (API_KEY : jsstring) (JSON_parse : jsstring -> completion JSON)
    (ToString : JSON -> jsstring) (userMessage : jsstring)
    (response : StreamResponse) (s : Service) :
  API_KEY <> [] ->
  stream_ok response = false ->
  let out := streamMessageToGemini API_KEY JSON_parse ToString userMessage
               (Normal response) s in
  out.1.1 = []
  /\ out.1.2
     = Throw (GeminiApiError
                (lit "Stream Error: " ++ lit (pretty (stream_status response)))
                None false)
  /\ conversationHistory out.2 = seed (conversationHistory s).
Proof.
  intros Hkey Hok. cbn zeta. unfold streamMessageToGemini.
  destruct API_KEY as [|k key]; [now elim Hkey|]. rewrite Hok.
  cbn [negb fst snd]. unfold pop, post.
  cbn [conversationHistory requests set_history].
  rewrite enqueue_history, removelast_last. repeat split.
Qed.

(** X18.  A stream that breaks.  When a read fails after some chunks,
    what those chunks contributed has been yielded, the failure reaches
    the caller, and the user message is taken back: the partial reply is
    not recorded. *)
Theorem broken_stream_is_retracted
    (API_KEY : jsstring) (JSON_parse : jsstring -> completion JSON)
    (ToString : JSON -> jsstring) (userMessage : jsstring)
    (response : StreamResponse) (reader : Reader) (e : exn) (s : Service) :
  API_KEY <> [] ->
  stream_ok response = true ->
  body response = Some reader ->
  ending reader = Throw e ->
  let out := streamMessageToGemini API_KEY JSON_parse ToString userMessage
               (Normal response) s in
  out.1.1 = omap (contribution JSON_parse) (linesOf reader)
  /\ out.1.2 = Throw e
  /\ conversationHistory out.2 = seed (conversationHistory s).
Proof.
  intros Hkey Hok Hbody Hend. cbn zeta. unfold streamMessageToGemini.
  destruct API_KEY as [|k key]; [now elim Hkey|].
  rewrite Hok, Hbody, Hend. cbn [negb fst snd]. unfold pop, post.
  cbn [conversationHistory requests set_history].
  rewrite enqueue_history, removelast_last.
  rewrite (readAll_lines JSON_parse ToString reader).
  destruct (processLines_spec JSON_parse ToString (linesOf reader)
              {| fullResponse := []; yielded := [] |}) as [Hy _].
  rewrite Hy. repeat split.
Qed.

Lemma split_line_feed (c1 c2 : jsstring) :
  split 10%N (c1 ++ 10%N :: c2) = split 10%N c1 ++ split 10%N c2.
Proof.
  induction c1 as [|c c1 IH]; [reflexivity|].
  cbn [app split]. rewrite IH.
  destruct (code_unit_eqb c 10); [reflexivity|].
  destruct (split 10%N c1) as [|piece pieces] eqn:E; [|reflexivity].
  destruct c1; cbn in E; [discriminate|].
  destruct (code_unit_eqb _ _); [discriminate|].
  destruct (split 10%N c1); discriminate.
Qed.

Lemma processLine_empty
    (JSON_parse : jsstring -> completion JSON) (ToString : JSON -> jsstring)
    (st : Stream) :
  processLine JSON_parse ToString st [] = st.
Proof. reflexivity. Qed.

(** X19.  Chunking at line ends does not matter.  Delivering a chunk in
    two parts, cut right after a line feed or right before it, gives the
    same reply and the same yields as delivering it whole: the line feed
    goes with one of the parts, and the empty line it leaves at the cut
    contributes nothing. *)
Theorem chunking_at_line_ends
    (JSON_parse : jsstring -> completion JSON) (ToString : JSON -> jsstring)
    (before after : list jsstring) (c1 c2 : jsstring)
    (ending1 ending2 : completion unit) :
  let whole := {| chunks := before ++ [c1 ++ [10%N] ++ c2] ++ after;
                  ending := ending1 |} in
  let cutAfter := {| chunks := before ++ [c1 ++ [10%N]; c2] ++ after;
                     ending := ending2 |} in
  let cutBefore := {| chunks := before ++ [c1; [10%N] ++ c2] ++ after;
                      ending := ending2 |} in
  readAll JSON_parse ToString cutAfter = readAll JSON_parse ToString whole
  /\ readAll JSON_parse ToString cutBefore
     = readAll JSON_parse ToString whole.
Proof.
  cbn zeta. rewrite !readAll_lines. unfold linesOf. cbn [chunks].
  rewrite !map_app, !concat_app. cbn [map concat app].
  rewrite !app_nil_r.
  change (c1 ++ [10%N]) with (c1 ++ 10%N :: []).
  rewrite !split_line_feed.
  change (split 10%N []) with [([] : jsstring)].
  change (split 10%N (10%N :: c2)) with ([] :: split 10%N c2).
  rewrite !foldl_app. cbn [foldl]. rewrite !processLine_empty.
  split; reflexivity.
Qed.

(** ** Concrete exchanges *)

Lemma failed_send_is_retracted_witness :
  let out := sendMessageToGemini sampleKey (lit "Tung") (Throw TypeError)
               threeExchanges in
  out.1 = Throw TypeError
  /\ conversationHistory out.2 = seed (conversationHistory threeExchanges).
Proof.
  apply (failed_send_is_retracted sampleKey (lit "Tung") (Throw TypeError)
           TypeError threeExchanges).
  - discriminate.
  - reflexivity.
Defined.

Lemma http_error_carries_status_witness :
  exists message retryable,
    (sendMessageToGemini sampleKey (lit "Tung") (erring 503) loaded).1
    = Throw (GeminiApiError message (Some 503) retryable)
    /\ (retryable = true <-> 503 = 429).
Proof.
  apply (http_error_carries_status sampleKey (lit "Tung") (lit "error")
           {| status := 503; text := Normal (lit "error");
              json := Throw SyntaxError |} loaded).
  - discriminate.
  - reflexivity.
  - reflexivity.
Defined.

Lemma reply_is_content_or_apology_witness :
  requestReply speechless = Normal (JString fallback_reply)
  /\ requestReply (replying "Po") = Normal (JString (lit "Po")).
Proof.
  split.
  - apply (proj1 (reply_is_content_or_apology speechless
                    (JString fallback_reply))).
    eexists _, _, None. repeat (split; [reflexivity|]).
    right. split; reflexivity.
  - apply (proj1 (reply_is_content_or_apology (replying "Po")
                    (JString (lit "Po")))).
    eexists _, _, (Some (JString (lit "Po"))).
    repeat (split; [reflexivity|]). left. split; reflexivity.
Defined.

Lemma reply_is_recorded_witness :
  let out := sendMessageToGemini sampleKey (lit "kater") (replying "Po")
               threeExchanges in
  out.1 = Normal (JString (lit "Po"))
  /\ exists older,
       conversationHistory out.2
       = older ++ [userEntry (lit "kater"); assistantEntry (JString (lit "Po"))].
Proof.
  apply (reply_is_recorded sampleKey (lit "kater") (replying "Po")
           (JString (lit "Po")) threeExchanges).
  - discriminate.
  - reflexivity.
Defined.

Lemma history_stays_bounded_witness :
  let cs := [SendMessage (lit "nje") (replying "1");
             SendMessage (lit "dy") (erring 429);
             SendMessage (lit "tre") (replying "3");
             SendMessage (lit "kater") speechless;
             SendMessage (lit "pese") (replying "5");
             SendMessage (lit "gjashte") (replying "6")] in
  (length (conversationHistory
             (calls sampleKey parseSample toStringSample cs loaded)) <= 7)%nat.
Proof.
  apply (history_stays_bounded sampleKey parseSample toStringSample).
  repeat constructor.
Defined.

Lemma one_request_per_call_witness :
  let c := StreamMessage (lit "kater") (streamRefused 500) in
  requests (call sampleKey parseSample toStringSample c threeExchanges)
  = requests threeExchanges
    ++ [seed (conversationHistory threeExchanges) ++ [userEntry (lit "kater")]].
Proof.
  apply (one_request_per_call sampleKey parseSample toStringSample
           (StreamMessage (lit "kater") (streamRefused 500)) threeExchanges).
  discriminate.
Defined.

Lemma refused_stream_is_untyped_witness :
  let out := streamMessageToGemini sampleKey parseSample toStringSample
               (lit "kater") (streamRefused 429) threeExchanges in
  out.1.1 = []
  /\ out.1.2
     = Throw (GeminiApiError (lit "Stream Error: " ++ lit (pretty 429))
                None false)
  /\ conversationHistory out.2 = seed (conversationHistory threeExchanges).
Proof.
  apply (refused_stream_is_untyped sampleKey parseSample toStringSample
           (lit "kater") {| stream_status := 429; body := None |}
           threeExchanges).
  - discriminate.
  - reflexivity.
Defined.

Lemma broken_stream_is_retracted_witness :
  let reader := {| chunks := [lit "data: " ++ deltaText "Po"];
                   ending := Throw TypeError |} in
  let out := streamMessageToGemini sampleKey parseSample toStringSample
               (lit "kater") (streamBroken [lit "data: " ++ deltaText "Po"])
               threeExchanges in
  out.1.1 = omap (contribution parseSample) (linesOf reader)
  /\ out.1.2 = Throw TypeError
  /\ conversationHistory out.2 = seed (conversationHistory threeExchanges).
Proof.
  apply (broken_stream_is_retracted sampleKey parseSample toStringSample
           (lit "kater")
           {| stream_status := 200;
              body := Some {| chunks := [lit "data: " ++ deltaText "Po"];
                              ending := Throw TypeError |} |}
           {| chunks := [lit "data: " ++ deltaText "Po"];
              ending := Throw TypeError |}
           TypeError threeExchanges).
  - discriminate.
  - reflexivity.
  - reflexivity.
  - reflexivity.
Defined.

End GroqServiceExtra.

(* ===================================================================== *)
(** * Properties of the camera helpers, the status and the poller         *)
(* ===================================================================== *)

Module HardwareSpec.
Import JS SensorService Hardware.

Lemma jsstring_eqb_eq (a b : jsstring) : jsstring_eqb a b = true <-> a = b.
Proof.
  revert b. induction a as [|x a IH]; intros [|y b]; cbn;
    try (split; [discriminate | discriminate]); [tauto|].
  rewrite andb_true_iff. unfold code_unit_eqb. rewrite N.eqb_eq, IH.
  split; [intros [-> ->]; reflexivity | intros [= -> ->]; auto].
Qed.

Lemma fetchSensorData_returns (env : Env) :
  exists d, fetchSensorData env = Normal d
    /\ (isSimulationMode env = true -> isConnected d = true)
    /\ (isHardwareConfigured env = false -> isConnected d = false).
Proof.
  unfold fetchSensorData, isHardwareConfigured.
  destruct (isSimulationMode env).
  { eexists. split; [reflexivity|]. split.
    - intros _. unfold generateSimulatedSensorData.
      destruct (random env) as [[[[r1 r2] r3] r4] r5]. reflexivity.
    - rewrite orb_true_r. discriminate. }
  destruct (PI_IP env) as [|c ip].
  { eexists. split; [reflexivity|]. split; [discriminate|reflexivity]. }
  destruct (readSensors env) as [d|e]; cbn [try_catch]; eexists;
    (split; [reflexivity|]); split; discriminate.
Qed.

Lemma checkCameraConnection_returns (env : Env) (cam : Camera) :
  exists connected, checkCameraConnection env cam = Normal connected
    /\ (isHardwareConfigured env = false -> connected = false).
Proof.
  unfold checkCameraConnection, isHardwareConfigured.
  destruct (isSimulationMode env).
  { rewrite orb_true_r.
    destruct (enumerateDevices cam); cbn; eexists; split;
      try reflexivity; discriminate. }
  destruct (PI_IP env) as [|c ip].
  { exists false. split; [reflexivity|]. reflexivity. }
  destruct (health cam); cbn; eexists; split; try reflexivity; discriminate.
Qed.

(** X20.  The camera check never fails.  [checkCameraConnection]
    always resolves.  Outside simulation mode it is [true] exactly when
    a device address is configured and the health request is answered
    with a 2xx status; in simulation mode, exactly when the browser
    lists a video input. *)
Theorem camera_check (env : Env) (cam : Camera) :
  exists connected, checkCameraConnection env cam = Normal connected
    /\ (isSimulationMode env = false ->
        connected = true
        <-> PI_IP env <> []
            /\ exists response, health cam = Normal response
                                /\ ok response = true)
    /\ (isSimulationMode env = true ->
        connected = true
        <-> exists devices, enumerateDevices cam = Normal devices
                            /\ lit "videoinput" ∈ devices).
Proof.
  unfold checkCameraConnection. destruct (isSimulationMode env).
  - destruct (enumerateDevices cam) as [devices|e]; cbn [bind try_catch].
    + eexists. split; [reflexivity|]. split; [discriminate|]. intros _.
      rewrite existsb_exists. split.
      * intros (kind & Hin & Heq). exists devices. split; [reflexivity|].
        apply jsstring_eqb_eq in Heq as ->. now apply list_elem_of_In.
      * intros (devices' & [= <-] & Hin). exists (lit "videoinput").
        split; [now apply list_elem_of_In | now apply jsstring_eqb_eq].
    + exists false. split; [reflexivity|]. split; [discriminate|]. intros _.
      split; [discriminate|]. intros (devices & Hd & _). discriminate.
  - destruct (PI_IP env) as [|c ip].
    + exists false. split; [reflexivity|]. split; [|discriminate]. intros _.
      split; [discriminate|]. intros [Hne _]. now elim Hne.
    + destruct (health cam) as [response|e]; cbn [bind try_catch].
      * eexists. split; [reflexivity|]. split; [|discriminate]. intros _.
        split.
        -- intros Hok. split; [discriminate|]. now exists response.
        -- intros (_ & response' & [= <-] & Hok). exact Hok.
      * exists false. split; [reflexivity|]. split; [|discriminate].
        intros _. split; [discriminate|].
        intros (_ & response & Hr & _). discriminate.
Qed.

(** X21.  The camera URLs.  The stream URL and the snapshot URL are
    [null] in the same configurations, namely in simulation mode or
    without a device address; otherwise both are built on
    [http://PI_IP:CAMERA_PORT].  Whenever the browser camera is to be
    used, there is no stream URL. *)
Theorem camera_urls (env : Env) (cam : Camera) :
  (getCameraStreamUrl env cam = None
   <-> isSimulationMode env = true \/ PI_IP env = [])
  /\ (getCameraSnapshotUrl env cam = None
      <-> getCameraStreamUrl env cam = None)
  /\ (forall url, getCameraStreamUrl env cam = Some url ->
        url = lit "http://" ++ PI_IP env ++ lit ":" ++ CAMERA_PORT cam
                ++ lit "/stream"
        /\ getCameraSnapshotUrl env cam
           = Some (lit "http://" ++ PI_IP env ++ lit ":" ++ CAMERA_PORT cam
                     ++ lit "/snapshot"))
  /\ (useBrowserCamera env = true -> getCameraStreamUrl env cam = None).
Proof.
  unfold getCameraStreamUrl, getCameraSnapshotUrl, useBrowserCamera,
    cameraBase.
  destruct (isSimulationMode env).
  { repeat split; auto; discriminate. }
  destruct (PI_IP env) as [|c ip] eqn:Hip.
  { repeat split; auto; discriminate. }
  split; [|split; [|split]].
  - split; [discriminate|]. intros [H | H]; discriminate.
  - split; discriminate.
  - intros url [= <-]. rewrite <- !app_assoc. split; reflexivity.
  - discriminate.
Qed.

(** X22.  The hardware status.  [getHardwareStatus] always resolves.
    In simulation mode it reports the sensors connected and no camera
    URL.  Without a device address and outside simulation mode it
    reports nothing connected.  A camera URL is only reported together
    with a connected camera, and is then the stream URL. *)
Theorem hardware_status (env : Env) (cam : Camera) :
  exists st, getHardwareStatus env cam = Normal st
    /\ isSimulation st = isSimulationMode env
    /\ (isSimulationMode env = true ->
        sensorsConnected st = true /\ cameraUrl st = None)
    /\ (isHardwareConfigured env = false ->
        sensorsConnected st = false /\ cameraConnected st = false
        /\ cameraUrl st = None)
    /\ (forall url, cameraUrl st = Some url ->
        cameraConnected st = true
        /\ getCameraStreamUrl env cam = Some url).
Proof.
  unfold getHardwareStatus.
  destruct (fetchSensorData_returns env) as (d & -> & Hsim & Hoff).
  destruct (checkCameraConnection_returns env cam) as (b & -> & Hcam).
  cbn [bind]. eexists. split; [reflexivity|]. cbn.
  split; [reflexivity|]. split; [|split].
  - intros Hmode. split; [now apply Hsim|].
    destruct b; [|reflexivity]. unfold getCameraStreamUrl. now rewrite Hmode.
  - intros Hno. rewrite (Hoff Hno), (Hcam Hno). repeat split.
  - intros url. destruct b; [|discriminate]. intros ->. split; reflexivity.
Qed.

(** ** The poller *)

Section PollerFacts.

Variable onData : SensorData -> Callback.
Variable onError : option (exn -> Callback).

Local Abbreviation resume := (resume onData onError).
Local Abbreviation pollerStep := (pollerStep onData onError).
Local Abbreviation pollerRun := (pollerRun onData onError).
Local Abbreviation onErrorReturns := (onErrorReturns onData onError).
Local Abbreviation orderly := (orderly onData).
Local Abbreviation deliver := (deliver onData).
Local Abbreviation report := (report onError).

Lemma fetchSensorData_normal (env : Env) :
  exists d, fetchSensorData env = Normal d.
Proof. destruct (fetchSensorData_returns env) as (d & E & _). eauto. Qed.

(** A poll that settles on a poller that is not polling calls nobody
    and sets no timeout. *)
Lemma resume_stopped (env : Env) (q : Poller) :
  isPolling q = false ->
  isPolling (resume env q) = false
  /\ (timeoutPending q = false -> timeoutPending (resume env q) = false)
  /\ delivered (resume env q) = delivered q
  /\ reported (resume env q) = reported q.
Proof.
  intros Hoff. unfold Hardware.resume.
  destruct (fetching q); [|auto].
  unfold Hardware.deliver, Hardware.report. rewrite Hoff.
  destruct (fetchSensorData env); cbn; rewrite !app_nil_r; auto.
Qed.

(** X23.  A stopped poller is silent.  Once the cleanup function has
    run, nothing that happens afterwards (a fetch still in flight that
    settles, a stale timeout, a second cleanup) calls [onData] or
    [onError] again or sets a new timeout. *)
Theorem stopped_poller_is_silent (evs : list PollerEvent) (p : Poller) :
  let q := pollerRun evs (stopPolling p) in
  delivered q = delivered p
  /\ reported q = reported p
  /\ timeoutPending q = false
  /\ isPolling q = false.
Proof.
  cbn zeta.
  assert (H : forall q,
             isPolling q = false -> timeoutPending q = false ->
             delivered (pollerRun evs q) = delivered q
             /\ reported (pollerRun evs q) = reported q
             /\ timeoutPending (pollerRun evs q) = false
             /\ isPolling (pollerRun evs q) = false).
  { induction evs as [|ev evs IH]; intros q Hoff Hnone; [auto|].
    cbn [Hardware.pollerRun foldl].
    fold (Hardware.pollerRun onData onError evs (pollerStep ev q)).
    assert (Hstep : isPolling (pollerStep ev q) = false
                    /\ timeoutPending (pollerStep ev q) = false
                    /\ delivered (pollerStep ev q) = delivered q
                    /\ reported (pollerStep ev q) = reported q).
    { destruct ev as [env| |]; cbn [Hardware.pollerStep].
      - destruct (resume_stopped env q Hoff) as (H1 & H2 & H3 & H4). auto.
      - unfold timeout. rewrite Hnone. auto.
      - cbn. auto. }
    destruct Hstep as (H1 & H2 & H3 & H4).
    destruct (IH _ H1 H2) as (-> & -> & -> & ->). auto. }
  apply (H (stopPolling p)); reflexivity.
Qed.

(** What [onError] is handed is what [onData] threw. *)
Lemma report_errors (env : Env) (q : Poller) :
  Forall (fun e => exists d, completes (onData d) = Throw e)
    (errors (report (deliver env q))).
Proof.
  unfold Hardware.deliver, Hardware.report.
  destruct (fetchSensorData_normal env) as (d & ->).
  destruct (isPolling q); cbn [tried]; [|constructor].
  destruct (completes (onData d)) as [u|e] eqn:Hd; cbn; [constructor|].
  destruct (stops (onData d)); cbn; [constructor|].
  destruct onError; cbn; repeat constructor. eauto.
Qed.

Lemma pollerStep_orderly (ev : PollerEvent) (q : Poller) :
  orderly q -> orderly (pollerStep ev q).
Proof.
  intros (Hrep & Hoff & Hex). unfold Hardware.orderly.
  destruct ev as [env| |]; cbn [Hardware.pollerStep].
  - unfold Hardware.resume.
    destruct (fetching q) eqn:Hfq; [|rewrite Hfq; auto].
    cbn [reported isPolling timeoutPending fetching andb].
    split; [|split; [|reflexivity]].
    + apply Forall_app. split; [exact Hrep | apply report_errors].
    + intros ->. now destruct (caught _).
  - unfold timeout.
    destruct (timeoutPending q) eqn:Ht; [|rewrite Ht; auto].
    unfold poll. cbn [isPolling timeoutPending].
    destruct (isPolling q) eqn:Hp; cbn; auto using andb_false_r.
  - cbn. auto using andb_false_r.
Qed.

Lemma pollerStep_busy (ev : PollerEvent) (q : Poller) :
  onErrorReturns ->
  (isPolling q = true -> fetching q || timeoutPending q = true) ->
  isPolling (pollerStep ev q) = true ->
  fetching (pollerStep ev q) || timeoutPending (pollerStep ev q) = true.
Proof.
  intros Hret Hbusy. destruct ev as [env| |]; cbn [Hardware.pollerStep].
  - unfold Hardware.resume.
    destruct (fetching q) eqn:Hfq; [|rewrite Hfq; exact Hbusy].
    cbn [isPolling fetching timeoutPending orb]. intros Hp. rewrite Hp.
    revert Hp. unfold Hardware.deliver, Hardware.report.
    destruct (fetchSensorData_normal env) as (d & ->).
    destruct (isPolling q); cbn [tried pollingAfterTry]; [|discriminate].
    destruct (completes (onData d)) as [u|e] eqn:Hd; cbn; [reflexivity|].
    destruct (stops (onData d)); cbn; [discriminate|].
    destruct onError as [handler|] eqn:Hh; cbn; [|reflexivity].
    destruct (Hret d e handler Hd eq_refl) as (u & ->). reflexivity.
  - unfold timeout.
    destruct (timeoutPending q) eqn:Ht; [|rewrite Ht; exact Hbusy].
    unfold poll. cbn [isPolling]. destruct (isPolling q) eqn:Hp; cbn;
      [reflexivity | discriminate].
  - cbn. discriminate.
Qed.

(** Nothing but the caller's cleanup changes a poller with no fetch in
    flight and no timeout pending. *)
Lemma stalled_is_silent (evs : list PollerEvent) :
  forall q,
    fetching q = false -> timeoutPending q = false ->
    delivered (pollerRun evs q) = delivered q
    /\ reported (pollerRun evs q) = reported q
    /\ fetching (pollerRun evs q) = false
    /\ timeoutPending (pollerRun evs q) = false.
Proof.
  induction evs as [|ev evs IH]; intros q Hf Ht; [auto|].
  cbn [Hardware.pollerRun foldl].
  fold (Hardware.pollerRun onData onError evs (pollerStep ev q)).
  assert (Hstep : fetching (pollerStep ev q) = false
                  /\ timeoutPending (pollerStep ev q) = false
                  /\ delivered (pollerStep ev q) = delivered q
                  /\ reported (pollerStep ev q) = reported q).
  { destruct ev as [env| |]; cbn [Hardware.pollerStep].
    - unfold Hardware.resume. rewrite Hf. auto.
    - unfold timeout. rewrite Ht. auto.
    - cbn. auto. }
  destruct Hstep as (H1 & H2 & H3 & H4).
  destruct (IH _ H1 H2) as (-> & -> & -> & ->). auto.
Qed.

Lemma pollerRun_orderly (evs : list PollerEvent) :
  forall q, orderly q -> orderly (pollerRun evs q).
Proof.
  induction evs as [|ev evs IH]; intros q Hq; [exact Hq|].
  cbn [Hardware.pollerRun foldl]. apply IH. now apply pollerStep_orderly.
Qed.

Lemma pollerRun_busy (evs : list PollerEvent) :
  onErrorReturns ->
  forall q,
    (isPolling q = true -> fetching q || timeoutPending q = true) ->
    isPolling (pollerRun evs q) = true ->
    fetching (pollerRun evs q) || timeoutPending (pollerRun evs q) = true.
Proof.
  intros Hret. induction evs as [|ev evs IH]; intros q Hq; [exact Hq|].
  cbn [Hardware.pollerRun foldl]. apply IH. now apply pollerStep_busy.
Qed.

(** X24.  One poll at a time, and what [onError] can see.  From its
    creation on, whatever happens, [onError] is only ever called with
    something [onData] threw (a failing fetch never reaches it), a
    poller that is not polling has no timeout pending, and a fetch in
    flight and a pending timeout never coincide.  As long as [onError]
    returns whenever it is called, a poller that is polling always has
    one of the two, so that polling goes on.  When [onError] throws
    (neither callback having called the cleanup), the next timeout is
    not set: the poller still counts as polling, yet nothing is in
    flight or pending, and whatever happens later, no callback is
    called again. *)
Theorem poller_invariant (evs : list PollerEvent) :
  let q := pollerRun evs (createSensorPoller) in
  Forall (fun e => exists d, completes (onData d) = Throw e) (reported q)
  /\ (isPolling q = false -> timeoutPending q = false)
  /\ fetching q && timeoutPending q = false
  /\ (onErrorReturns ->
      isPolling q = true -> fetching q || timeoutPending q = true)
  /\ (forall env d e handler e' later,
        fetching q = true -> isPolling q = true ->
        fetchSensorData env = Normal d ->
        completes (onData d) = Throw e -> stops (onData d) = false ->
        onError = Some handler ->
        completes (handler e) = Throw e' -> stops (handler e) = false ->
        let stalled := resume env q in
        isPolling stalled = true
        /\ fetching stalled = false /\ timeoutPending stalled = false
        /\ delivered (pollerRun later stalled) = delivered q ++ [d]
        /\ reported (pollerRun later stalled) = reported q ++ [e]).
Proof.
  cbn zeta.
  destruct (pollerRun_orderly evs (createSensorPoller)) as (H1 & H2 & H3).
  { split; [constructor|]. split; [discriminate | reflexivity]. }
  split; [exact H1|]. split; [exact H2|]. split; [exact H3|]. split.
  - intros Hret. apply (pollerRun_busy evs Hret). reflexivity.
  - intros env d e handler e' later Hf Hp Hfetch Hd Hsd Hh He Hse.
    set (q := Hardware.pollerRun onData onError evs createSensorPoller) in *.
    assert (E : resume env q
                = {| isPolling := true; timeoutPending := false;
                     fetching := false; delivered := delivered q ++ [d];
                     reported := reported q ++ [e] |}).
    { unfold Hardware.resume, Hardware.deliver, Hardware.report.
      rewrite Hf, Hp, Hfetch. cbn. rewrite Hd, Hsd, Hh. cbn.
      rewrite He, Hse. reflexivity. }
    rewrite E. cbn [isPolling fetching timeoutPending].
    repeat (split; [reflexivity|]).
    destruct (stalled_is_silent later
                {| isPolling := true; timeoutPending := false;
                   fetching := false; delivered := delivered q ++ [d];
                   reported := reported q ++ [e] |} eq_refl eq_refl)
      as (-> & -> & _). split; reflexivity.
Qed.

(** X25.  An unreachable sensor service is data, not an error.  When a
    poll settles while the poller is polling, outside simulation mode,
    and the device address is missing or the request failed, [onData]
    is called with the default, disconnected record stamped with the
    current time.  If [onData] returns, nothing is reported; if it
    throws, what it threw is handed to [onError], provided there is one
    and [onData] has not called the cleanup.  The poller goes on
    polling unless one of the callbacks called has called the cleanup,
    and the next timeout is set exactly when it goes on polling and
    [onError], if it was called, returned. *)
Theorem unreachable_is_delivered (env : Env) (p : Poller) :
  fetching p = true ->
  isPolling p = true ->
  isSimulationMode env = false ->
  PI_IP env = [] \/ failed env ->
  let q := resume env p in
  let data := onData (offline (clock env)) in
  delivered q = delivered p ++ [offline (clock env)]
  /\ fetching q = false
  /\ (forall u, completes data = Normal u ->
        reported q = reported p
        /\ isPolling q = negb (stops data)
        /\ timeoutPending q = negb (stops data))
  /\ (forall e, completes data = Throw e ->
        match onError with
        | Some handler =>
            if stops data
            then reported q = reported p
                 /\ isPolling q = false /\ timeoutPending q = false
            else reported q = reported p ++ [e]
                 /\ isPolling q = negb (stops (handler e))
                 /\ (timeoutPending q = true
                     <-> stops (handler e) = false
                         /\ exists u, completes (handler e) = Normal u)
        | None =>
            reported q = reported p
            /\ isPolling q = negb (stops data)
            /\ timeoutPending q = negb (stops data)
        end).
Proof.
  intros Hf Hp Hsim Hdown. cbn zeta.
  assert (Hoff : fetchSensorData env = Normal (offline (clock env))).
  { unfold fetchSensorData. rewrite Hsim.
    destruct (PI_IP env) as [|c ip]; [reflexivity|].
    destruct Hdown as [Hno | Hfail]; [discriminate|].
    destruct (SensorServiceSpec.readSensors_failed env Hfail) as (e & ->).
    reflexivity. }
  unfold Hardware.resume, Hardware.deliver, Hardware.report.
  rewrite Hf, Hp, Hoff.
  cbn [tried called pollingAfterTry delivered fetching reported
       timeoutPending isPolling].
  split; [reflexivity|]. split; [reflexivity|]. split.
  - intros u ->. cbn. now rewrite app_nil_r.
  - intros e ->. destruct onError as [handler|]; cbn.
    + destruct (stops (onData (offline (clock env)))); cbn.
      * now rewrite app_nil_r.
      * split; [reflexivity|]. split; [reflexivity|].
        destruct (completes (handler e)) as [u|e'];
          destruct (stops (handler e)); cbn.
        -- split; [discriminate|]. intros [Hs _]. discriminate.
        -- split; [eauto | reflexivity].
        -- split; [discriminate|]. intros [Hs _]. discriminate.
        -- split; [discriminate|]. intros [_ (u' & Hu)]. discriminate.
    + destruct (stops (onData (offline (clock env)))); cbn;
        now rewrite app_nil_r.
Qed.

End PollerFacts.

Lemma poller_invariant_witness :
  let q := pollerRun demanding (Some rethrowing)
             [Settled (wired mistyped); TimedOut] createSensorPoller in
  isPolling q = true /\ fetching q = true /\ timeoutPending q = false
  /\ let stalled := resume demanding (Some rethrowing) unconfigured q in
     isPolling stalled = true
     /\ fetching stalled = false /\ timeoutPending stalled = false
     /\ delivered
          (pollerRun demanding (Some rethrowing) [TimedOut; Settled unconfigured]
             stalled)
        = delivered q ++ [offline 2000]
     /\ reported
          (pollerRun demanding (Some rethrowing) [TimedOut; Settled unconfigured]
             stalled)
        = reported q ++ [Error (lit "offline")].
Proof.
  split; [reflexivity|]. split; [reflexivity|]. split; [reflexivity|].
  apply (proj2 (proj2 (proj2 (proj2
           (poller_invariant demanding (Some rethrowing)
              [Settled (wired mistyped); TimedOut]))))
           unconfigured (offline 2000) (Error (lit "offline")) rethrowing
           (Error (lit "offline")) [TimedOut; Settled unconfigured]);
    reflexivity.
Defined.

Lemma unreachable_is_delivered_witness :
  let p := createSensorPoller in
  let q := resume accepting None unconfigured p in
  let data := accepting (offline (clock unconfigured)) in
  delivered q = delivered p ++ [offline (clock unconfigured)]
  /\ fetching q = false
  /\ (forall u, completes data = Normal u ->
        reported q = reported p
        /\ isPolling q = negb (stops data)
        /\ timeoutPending q = negb (stops data))
  /\ (forall e, completes data = Throw e ->
        reported q = reported p
        /\ isPolling q = negb (stops data)
        /\ timeoutPending q = negb (stops data)).
Proof.
  apply (unreachable_is_delivered accepting None unconfigured
           createSensorPoller).
  - reflexivity.
  - reflexivity.
  - reflexivity.
  - left. reflexivity.
Defined.

(** A poller told to stop by its own [onData]: polling until the
    sensors are connected.  The first poll finds nothing and sets the
    timeout; the second finds the sensors, [onData] calls the cleanup,
    and no further timeout is set. *)
Example polling_until_connected :
  let q := pollerRun untilConnected None
             [Settled unconfigured; TimedOut; Settled (wired mistyped)]
             createSensorPoller in
  length (delivered q) = 2%nat
  /\ isPolling q = false /\ timeoutPending q = false
  /\ fetching q = false.
Proof. vm_compute. repeat split. Qed.

End HardwareSpec.

(* ===================================================================== *)
(** * Properties of the environment readers                               *)
(* ===================================================================== *)

Module EnvConfigSpec.
Import JS EnvConfig.

Lemma key_configured (e : ImportMetaEnv) :
  orNull (or_string (VITE_GROQ_API_KEY e) (VITE_GEMINI_API_KEY e)) = None
  <-> falsy_string (VITE_GROQ_API_KEY e) = true
      /\ falsy_string (VITE_GEMINI_API_KEY e) = true.
Proof.
  destruct (VITE_GROQ_API_KEY e) as [[|g groq]|],
    (VITE_GEMINI_API_KEY e) as [[|m gemini]|]; cbn;
    split; try discriminate; auto; intros [? ?]; discriminate.
Qed.

(** X26.  What makes the environment valid.  [validateEnv] reports the
    environment valid exactly when it lists no error, which is exactly
    when a Groq key or, failing that, a Gemini key is set and not empty;
    otherwise its one error is the missing-key message.  A key that does
    not start with [gsk_] leaves the environment valid and is worth a
    warning. *)
Theorem validateEnv_validity (e : ImportMetaEnv) :
  let r := validateEnv e in
  (isValid r = true <-> errors r = [])
  /\ (isValid r = true
      <-> falsy_string (VITE_GROQ_API_KEY e) = false
          \/ falsy_string (VITE_GEMINI_API_KEY e) = false)
  /\ (isValid r = false -> errors r = [missingKey])
  /\ (forall key, groqApiKey (config r) = Some key ->
        isValid r = true
        /\ (oddKey ∈ warnings r <-> startsWith key (lit "gsk_") = false)).
Proof.
  cbn zeta. unfold validateEnv.
  cbn [isValid errors config groqApiKey warnings].
  pose proof (key_configured e) as Hnone.
  destruct (orNull (or_string (VITE_GROQ_API_KEY e) (VITE_GEMINI_API_KEY e)))
    as [key|].
  - assert (Hset : falsy_string (VITE_GROQ_API_KEY e) = false
                   \/ falsy_string (VITE_GEMINI_API_KEY e) = false).
    { destruct (falsy_string (VITE_GROQ_API_KEY e)); [|now left].
      destruct (falsy_string (VITE_GEMINI_API_KEY e)); [|now right].
      destruct Hnone as [_ Hnone]. now discriminate Hnone. }
    cbn [length Nat.eqb]. split; [tauto|]. split; [tauto|].
    split; [discriminate|]. intros key' [= <-]. split; [reflexivity|].
    set (hardware := match orNull (VITE_RASPBERRY_PI_IP e) with
                     | None => _
                     | Some _ => _
                     end).
    assert (Hw : exists tail, hardware
                   = (if startsWith key (lit "gsk_") then [] else [oddKey])
                     ++ tail
                   /\ oddKey ∉ tail).
    { subst hardware.
      destruct (orNull (VITE_RASPBERRY_PI_IP e));
        [|destruct (isTrueString (VITE_SIMULATION_MODE e))].
      - exists []. rewrite app_nil_r. split; [reflexivity|]. apply not_elem_of_nil.
      - exists []. rewrite app_nil_r. split; [reflexivity|]. apply not_elem_of_nil.
      - exists [noHardware]. split; [reflexivity|].
        rewrite list_elem_of_singleton. discriminate. }
    destruct Hw as (tail & -> & Htail). rewrite elem_of_app.
    destruct (startsWith key (lit "gsk_")).
    + split; [|discriminate]. intros [Hin | Hin]; [|now elim Htail].
      now apply elem_of_nil in Hin.
    + split; [reflexivity|]. intros _. left.
      now apply list_elem_of_singleton.
  - cbn [length Nat.eqb]. split; [split; discriminate|]. split.
    + split; [discriminate|]. destruct Hnone as [Hnone _].
      destruct (Hnone eq_refl) as [-> ->]. intros [H | H]; discriminate.
    + split; [reflexivity|]. discriminate.
Qed.

Lemma orDefault_empty (x : option jsstring) :
  orDefault x [] = [] <-> orNull x = None.
Proof. destruct x as [[|c r]|]; cbn; split; auto; discriminate. Qed.

(** X27.  The validator and the sensor service agree.  Whenever
    [validateEnv] reports simulation mode, the sensor service simulates;
    whenever it does not warn that the Pi address is missing, the sensor
    service counts as configured; it reports no address exactly when
    the sensor service has none, an address it reports is the very one
    the sensor service uses, and so is the sensor port. *)
Theorem validateEnv_agrees_with_sensor_service
    (e : ImportMetaEnv) (loadTime clock Date_now : Z)
    (random : float * float * float * float * float)
    (answer : fetch_result) :
  let r := validateEnv e in
  let env := sensorEnv e loadTime clock Date_now random answer in
  (simulationMode (config r) = true ->
   SensorService.isSimulationMode env = true)
  /\ (noHardware ∉ warnings r -> Hardware.isHardwareConfigured env = true)
  /\ (raspberryPiIp (config r) = None <-> SensorService.PI_IP env = [])
  /\ (forall ip, raspberryPiIp (config r) = Some ip ->
        SensorService.PI_IP env = ip)
  /\ sensorPort (config r) = SensorService.SENSOR_PORT env.
Proof.
  cbn zeta.
  assert (Hsim : isTrueString (VITE_SIMULATION_MODE e) = true ->
                 SensorService.isSimulationMode
                   (sensorEnv e loadTime clock Date_now random answer)
                 = true).
  { unfold isTrueString, SensorService.isSimulationMode, sensorEnv.
    cbn [SensorService.VITE_SIMULATION_MODE].
    destruct (VITE_SIMULATION_MODE e) as [[| | |mode| |]|]; try discriminate.
    intros ->. reflexivity. }
  split; [exact Hsim|]. split; [|split; [|split]].
  - unfold Hardware.isHardwareConfigured, validateEnv.
    cbn [warnings SensorService.PI_IP sensorEnv].
    destruct (VITE_RASPBERRY_PI_IP e) as [[|c ip]|]; cbn [orNull orDefault];
      try reflexivity;
      (destruct (isTrueString (VITE_SIMULATION_MODE e));
       [intros _; now rewrite Hsim
       |intros Hno; elim Hno; apply elem_of_app; right;
        now apply list_elem_of_singleton]).
  - unfold validateEnv, sensorEnv.
    cbn [config raspberryPiIp SensorService.PI_IP].
    symmetry. apply orDefault_empty.
  - unfold validateEnv, sensorEnv.
    cbn [config raspberryPiIp SensorService.PI_IP].
    destruct (VITE_RASPBERRY_PI_IP e) as [[|c ip']|]; cbn [orNull orDefault];
      intros ip [= <-]. reflexivity.
  - reflexivity.
Qed.

(** X28.  The two readers of the configuration.  [getEnvConfig] and the
    configuration inside [validateEnv] agree on the Pi address, the two
    ports and the simulation flag; a key that [getEnvConfig] reports is
    the key [validateEnv] reports, but [validateEnv] alone falls back to
    the Gemini key. *)
Theorem getEnvConfig_agrees (e : ImportMetaEnv) :
  let c := getEnvConfig e in
  let v := config (validateEnv e) in
  raspberryPiIp c = raspberryPiIp v
  /\ sensorPort c = sensorPort v
  /\ cameraPort c = cameraPort v
  /\ simulationMode c = simulationMode v
  /\ (forall key, groqApiKey c = Some key -> groqApiKey v = Some key)
  /\ (groqApiKey c = None ->
      groqApiKey v = orNull (VITE_GEMINI_API_KEY e)).
Proof.
  cbn zeta. unfold getEnvConfig, validateEnv.
  cbn [config raspberryPiIp sensorPort cameraPort simulationMode groqApiKey].
  repeat (split; [reflexivity|]).
  destruct (VITE_GROQ_API_KEY e) as [[|g groq]|]; cbn [orNull or_string];
    split; try discriminate; auto.
Qed.

End EnvConfigSpec.

(* ===================================================================== *)
(** * Properties of the vision service                                    *)
(* ===================================================================== *)

Module VisionServiceSpec.
Import JS VisionService.

(** What the [try] block returns, and when. *)
Lemma attempt_returned (answer : fetch_result) (result : JSON) :
  attempt answer = Returned result
  <-> exists response data,
        answer = Normal response /\ ok response = true
        /\ json response = Normal data
        /\ firstChoiceContent data = Normal (Some result)
        /\ truthy (Some result) = true.
Proof.
  unfold attempt, firstChoiceContent. split.
  - destruct answer as [response|e]; [|discriminate].
    destruct (ok response) eqn:Hok; cbn [negb].
    2:{ destruct (text response); [|discriminate].
        destruct (_ || _); discriminate. }
    destruct (json response) as [data|e] eqn:Hjson; cbn [bind];
      [|discriminate].
    destruct (bind (get (Some data) (lit "choices")) _) as [[r|]|e] eqn:Hc;
      try discriminate.
    destruct (truthy (Some r)) eqn:Hr; [|discriminate].
    intros [= <-]. exists response, data. auto.
  - intros (response & data & -> & Hok & Hjson & Hc & Hr).
    rewrite Hok, Hjson. cbn [negb bind]. rewrite Hc, Hr. reflexivity.
Qed.

(** X29.  Every failure of the analysis looks the same.  With a key
    configured, the call sends one request carrying the prompt with the
    question and the image as a data URL.  It resolves exactly when the
    answer has a 2xx status and a JSON body whose
    [choices[0]?.message?.content] is truthy, and then with that very
    content; in every other case it rejects with the one error "Failed
    to analyze image", without status code and not retryable.  That is
    also what an error status gives: the more specific errors raised for
    it inside the [try] block, the model hint for 400 and 404 among
    them, never reach the caller. *)
Theorem analysis_failures_look_the_same
    (API_KEY imageBase64 question : jsstring) (answer : fetch_result) :
  API_KEY <> [] ->
  let out := analyzeImageWithGemini API_KEY imageBase64 question answer in
  out.2 = Some (promptOf question, imageUrlOf imageBase64)
  /\ (forall result,
        out.1 = Resolved result
        <-> exists response data,
              answer = Normal response /\ ok response = true
              /\ json response = Normal data
              /\ firstChoiceContent data = Normal (Some result)
              /\ truthy (Some result) = true)
  /\ ((exists result, out.1 = Resolved result) \/ out.1 = Rejected failure)
  /\ (forall response,
        answer = Normal response -> ok response = false ->
        out.1 = Rejected failure).
Proof.
  intros Hkey. cbn zeta. unfold analyzeImageWithGemini.
  destruct API_KEY as [|k key]; [now elim Hkey|].
  split; [destruct (attempt answer); reflexivity|]. split; [|split].
  - intros result. rewrite <- attempt_returned.
    destruct (attempt answer); cbn [fst]; split; intros [= <-];
      reflexivity.
  - destruct (attempt answer) as [result| |]; cbn [fst];
      [left; now exists result | now right | now right].
  - intros response -> Hok. unfold attempt. rewrite Hok. cbn [negb].
    destruct (text response); [|reflexivity].
    destruct (_ || _); reflexivity.
Qed.

Lemma analysis_failures_look_the_same_witness :
  let out := analyzeImageWithGemini (lit "gsk_test") (lit "AAAA")
               (lit "shiko") (describing "Nje dhome") in
  out.2 = Some (promptOf (lit "shiko"), imageUrlOf (lit "AAAA"))
  /\ (forall result,
        out.1 = Resolved result
        <-> exists response data,
              describing "Nje dhome" = Normal response /\ ok response = true
              /\ json response = Normal data
              /\ firstChoiceContent data = Normal (Some result)
              /\ truthy (Some result) = true)
  /\ ((exists result, out.1 = Resolved result) \/ out.1 = Rejected failure)
  /\ (forall response,
        describing "Nje dhome" = Normal response -> ok response = false ->
        out.1 = Rejected failure).
Proof.
  apply (analysis_failures_look_the_same (lit "gsk_test") (lit "AAAA")
           (lit "shiko") (describing "Nje dhome")).
  discriminate.
Defined.

(** The description of a 2xx answer is what the call resolves with. *)
Example analysis_resolves :
  (analyzeImageWithGemini (lit "gsk_test") (lit "AAAA") (lit "shiko")
     (describing "Nje dhome")).1
  = Resolved (JString (lit "Nje dhome")).
Proof. reflexivity. Qed.

Lemma startsWith_app (prefix rest : jsstring) :
  startsWith (prefix ++ rest) prefix = true.
Proof.
  induction prefix as [|c prefix IH]; [now destruct rest|].
  cbn. unfold code_unit_eqb. now rewrite N.eqb_refl, IH.
Qed.

(** X30.  The image is always sent as a data URL.  Whatever the caller
    passes, the URL sent starts with [data:]; a string that already
    does is sent unchanged, any other is taken as a base64 JPEG; and
    formatting twice changes nothing. *)
Theorem image_is_sent_as_data_url (imageBase64 : jsstring) :
  startsWith (imageUrlOf imageBase64) (lit "data:") = true
  /\ (startsWith imageBase64 (lit "data:") = true ->
      imageUrlOf imageBase64 = imageBase64)
  /\ (startsWith imageBase64 (lit "data:") = false ->
      imageUrlOf imageBase64 = lit "data:image/jpeg;base64," ++ imageBase64)
  /\ imageUrlOf (imageUrlOf imageBase64) = imageUrlOf imageBase64.
Proof.
  assert (Hfirst : startsWith (imageUrlOf imageBase64) (lit "data:") = true).
  { unfold imageUrlOf.
    destruct (startsWith imageBase64 (lit "data:")) eqn:E; [exact E|].
    change (lit "data:image/jpeg;base64," ++ imageBase64)
      with (lit "data:" ++ (lit "image/jpeg;base64," ++ imageBase64)).
    apply startsWith_app. }
  split; [exact Hfirst|]. split; [|split].
  - unfold imageUrlOf. now intros ->.
  - unfold imageUrlOf. now intros ->.
  - unfold imageUrlOf at 1. now rewrite Hfirst.
Qed.

End VisionServiceSpec.
